(** * Orchestrate: the backend controllers and the report aggregation

    A shallow embedding of the Express/Mongoose backend of Orchestrate
    (task controllers, created-event controller, authentication middleware)
    and of the in-memory aggregation of the compiled report, followed by the
    properties of the specification that concern them.

    Conventions of the embedding:
    - a MongoDB collection is a finite map from the document's [_id] (the
      hexadecimal text of its ObjectId, in lower case, as [toString] gives
      it) to the document; a text that denotes an ObjectId is cast to it
      before it is looked up;
    - a JavaScript string is its text in UTF-8; one that may be [undefined]
      is an [option string];
    - a JavaScript number that is an integer is a [Z], read back from a
      text by [parseInt] as the nearest double; the budgets of the report,
      which need not be integers, are doubles ([float]); a [Date] is its
      number of milliseconds since the epoch;
    - a request handler is a function of the request, of the clock reading
      when it needs one, and of the store; it returns the response and the
      store it leaves;
    - what the code leaves to the libraries it calls and to the database
      server (mongoose, jsonwebtoken, MongoDB) is given by the methods of a
      type class, so that every result holds for whatever they compute: in
      particular the order in which the server returns the documents of a
      query that the sort does not tell apart. *)

From stdpp Require Import gmap strings list sorting fin_maps pretty.
From Stdlib Require Import ZArith Lia Ascii Floats.

Local Open Scope Z_scope.

(** ** JavaScript primitives used by the controllers *)

Module JS.

(** [!!v] for a string that may be [undefined]: the empty string and
    [undefined] are falsy. *)
Definition truthy (v : option string) : bool :=
  match v with
  | Some s => negb (String.eqb s "")
  | None => false
  end.

(** [a || b] on strings that may be [undefined]. *)
Definition or_else (a b : option string) : option string :=
  if truthy a then a else b.

(** [n || d] on numbers: [NaN] (here [None]) and [0] are falsy. *)
Definition num_or (n : option Z) (d : Z) : Z :=
  match n with
  | Some 0 | None => d
  | Some k => k
  end.

(** [x || d] on doubles: [NaN], [0] and [-0] are falsy. *)
Definition float_or (x d : float) : float :=
  if PrimFloat.is_nan x || PrimFloat.eqb x 0 then d else x.

(** The double nearest to an integer, ties to the even mantissa, as
    [parseInt] returns it; [2 ^ 1024] stands for [Infinity]. The integers
    below [2 ^ 53] in absolute value are doubles. *)
Definition to_double (n : Z) : Z :=
  let a := Z.abs n in
  let e := Z.log2 a - 52 in
  if e <=? 0 then n
  else
    let q := Z.shiftr a e in
    let r := Z.land a (Z.ones e) in
    let half := Z.shiftl 1 (e - 1) in
    let q := if (half <? r) || ((r =? half) && Z.odd q) then q + 1 else q in
    Z.sgn n * Z.min (Z.shiftl q e) (2 ^ 1024).

(** The number of bytes of the white-space character at the head of the
    text, [0] when there is none. White space is what [trim] and
    [parseInt] skip: U+0009 to U+000D, U+0020, U+00A0, U+1680, U+2000 to
    U+200A, U+2028, U+2029, U+202F, U+205F, U+3000 and U+FEFF. *)
Definition white_space (s : string) : nat :=
  match s with
  | String c s1 =>
      let n := nat_of_ascii c in
      if ((9 <=? n) && (n <=? 13) || (n =? 32))%nat then 1%nat
      else if (n =? 194)%nat then
        match s1 with
        | String c1 _ => if (nat_of_ascii c1 =? 160)%nat then 2%nat else 0%nat
        | EmptyString => 0%nat
        end
      else if ((n =? 225) || (n =? 226) || (n =? 227) || (n =? 239))%nat then
        match s1 with
        | String c1 (String c2 _) =>
            let n1 := nat_of_ascii c1 in
            let n2 := nat_of_ascii c2 in
            if ((n =? 225) && (n1 =? 154) && (n2 =? 128) ||
                (n =? 226) && (n1 =? 128) &&
                  ((128 <=? n2) && (n2 <=? 138) ||
                   (n2 =? 168) || (n2 =? 169) || (n2 =? 175)) ||
                (n =? 226) && (n1 =? 129) && (n2 =? 159) ||
                (n =? 227) && (n1 =? 128) && (n2 =? 128) ||
                (n =? 239) && (n1 =? 187) && (n2 =? 191))%nat
            then 3%nat else 0%nat
        | _ => 0%nat
        end
      else 0%nat
  | EmptyString => 0%nat
  end.

(** [s.trimStart()]. *)
Fixpoint trim_start (s : string) : string :=
  match s with
  | String _ s1 =>
      match white_space s, s1 with
      | 0%nat, _ => s
      | 1%nat, _ => trim_start s1
      | 2%nat, String _ s2 => trim_start s2
      | _, String _ (String _ s3) => trim_start s3
      | _, _ => s
      end
  | EmptyString => EmptyString
  end.

(** [s.trimEnd()]. *)
Fixpoint trim_end (s : string) : string :=
  match s with
  | String c s1 =>
      match white_space s, s1 with
      | 0%nat, _ => String c (trim_end s1)
      | 1%nat, _ =>
          let r := trim_end s1 in
          if String.eqb r "" then "" else String c r
      | 2%nat, String c1 s2 =>
          let r := trim_end s2 in
          if String.eqb r "" then "" else String c (String c1 r)
      | _, String c1 (String c2 s3) =>
          let r := trim_end s3 in
          if String.eqb r "" then "" else String c (String c1 (String c2 r))
      | _, _ => String c (trim_end s1)
      end
  | EmptyString => EmptyString
  end.

(** [s.trim()]. *)
Definition trim (s : string) : string := trim_end (trim_start s).

(** Value of a character as a digit of the given radix. *)
Definition digit_of (radix : Z) (c : ascii) : option Z :=
  let n := Z.of_nat (nat_of_ascii c) in
  let v :=
    if (48 <=? n) && (n <=? 57) then Some (n - 48)
    else if (97 <=? n) && (n <=? 122) then Some (n - 87)
    else if (65 <=? n) && (n <=? 90) then Some (n - 55)
    else None in
  match v with
  | Some d => if d <? radix then Some d else None
  | None => None
  end.

(** Longest prefix of digits, read in the radix; [None] when the prefix
    is empty. *)
Fixpoint digits_prefix (radix : Z) (acc : option Z) (s : string) : option Z :=
  match s with
  | String c s' =>
      match digit_of radix c with
      | Some d => digits_prefix radix (Some (default 0 acc * radix + d)) s'
      | None => acc
      end
  | EmptyString => acc
  end.

(** [parseInt(v)] with no radix argument: leading white space, an
    optional sign, an optional [0x] prefix, then the longest prefix of
    digits; [NaN] ([None]) when there is none, and otherwise the double
    nearest to the integer read. *)
Definition parseInt (v : option string) : option Z :=
  let s := trim_start (default "undefined" v) in
  let '(sign, s) :=
    match s with
    | String "-" s' => (-1, s')
    | String "+" s' => (1, s')
    | _ => (1, s)
    end in
  let '(radix, s) :=
    match s with
    | String "0" (String "x" s') | String "0" (String "X" s') => (16, s')
    | _ => (10, s)
    end in
  (λ n, to_double (sign * n)) <$> digits_prefix radix None s.

(** [s.replace(pat, rep)] with a string pattern: the first occurrence
    only. *)
Fixpoint replace (pat rep s : string) : string :=
  if String.prefix pat s
  then rep +:+ String.substring (String.length pat)
                 (String.length s - String.length pat) s
  else match s with
       | String c s' => String c (replace pat rep s')
       | EmptyString => EmptyString
       end.

(** [s.toLowerCase()] on the letters A to Z; the other characters are
    left as they are. *)
Definition lower_ascii (c : ascii) : ascii :=
  let n := nat_of_ascii c in
  if ((65 <=? n) && (n <=? 90))%nat then ascii_of_nat (n + 32) else c.

Fixpoint toLowerCase (s : string) : string :=
  match s with
  | String c s' => String (lower_ascii c) (toLowerCase s')
  | EmptyString => EmptyString
  end.

End JS.

(** ** Documents (backend/models) *)

Module Comment.
Record t := mk {
  author : string;
  message : string;
  timestamp : Z;
}.
End Comment.

Module Task.
(** [models/Task.js]; [createdAt] and [updatedAt] come from the schema
    option [timestamps: true]. *)
Record t := mk {
  _id : string;
  taskName : string;
  description : string;
  eventName : string;
  eventID : string;
  status : string;
  budget : option Z;
  creator : string;
  assignee : string;
  deadline : option Z;
  comments : list Comment.t;
  createdAt : Z;
  updatedAt : Z;
}.

(** The values the schema declares for [status]. *)
Definition status_enum : list string := ["Pending"; "In Progress"; "Completed"].

Definition set_status (s : string) (x : t) : t :=
  mk (_id x) (taskName x) (description x) (eventName x) (eventID x) s
     (budget x) (creator x) (assignee x) (deadline x) (comments x)
     (createdAt x) (updatedAt x).

Definition set_comments (cs : list Comment.t) (x : t) : t :=
  mk (_id x) (taskName x) (description x) (eventName x) (eventID x) (status x)
     (budget x) (creator x) (assignee x) (deadline x) cs
     (createdAt x) (updatedAt x).

Definition set_updatedAt (now : Z) (x : t) : t :=
  mk (_id x) (taskName x) (description x) (eventName x) (eventID x) (status x)
     (budget x) (creator x) (assignee x) (deadline x) (comments x)
     (createdAt x) now.
End Task.

Module Event.
(** [models/Event.js]. *)
Record t := mk {
  _id : string;
  eventName : string;
  eventType : string;
  date : option Z;
  venue : option string;
  description : string;
  availableSlots : option Z;
  ticketPrice : option Z;
  totalBudget : option Z;
  attendees : list string;
  team : string;
  isPaid : bool;
  creator : string;
}.

Definition eventType_enum : list string :=
  ["firm-wide"; "limited-entry"; "team-specific"].
End Event.

Module Employee.
(** [models/Employee.js]. *)
Record t := mk {
  _id : string;
  name : string;
  email : string;
  password : string;
  team : string;
  role : string;
}.
End Employee.

(** The three collections. *)
Record Store := mkStore {
  Tasks : gmap string Task.t;
  Events : gmap string Event.t;
  Employees : gmap string Employee.t;
}.

Definition set_Tasks (m : gmap string Task.t) (st : Store) : Store :=
  mkStore m (Events st) (Employees st).

(** ** Requests and responses (Express) *)

(** What the middleware attaches to the request as [req.user]. *)
Record AuthUser := mkAuthUser {
  user_id : string;
  user_email : string;
  user_name : string;
  user_role : string;
  user_team : string;
}.

(** The parts of an Express request the handlers read. Header names are
    stored in lower case, as Node delivers them; [cookies] is [undefined]
    when no cookie parser is installed; the values of [params], [query]
    and [body] are strings. *)
Record Request := mkRequest {
  headers : gmap string string;
  cookies : option (gmap string string);
  params : gmap string string;
  query : gmap string string;
  body : gmap string string;
  user : option AuthUser;
}.

(** [req.header(name)]: the lookup ignores the case of [name]. *)
Definition header (req : Request) (name : string) : option string :=
  headers req !! JS.toLowerCase name.

Definition set_user (u : AuthUser) (req : Request) : Request :=
  mkRequest (headers req) (cookies req) (params req) (query req) (body req) (Some u).

(** What a handler passes to [res.json]. *)
Inductive Json :=
  | JMessage (message : string)                  (* { message } *)
  | JError (error : string)                      (* { error } *)
  | JTask (task : Task.t)                        (* a task document *)
  | JTasks (tasks : list Task.t)                 (* an array of task documents *)
  | JMessageTask (message : string) (task : Task.t)   (* { message, task } *)
  | JEvents (events : list (string * string)).   (* [{ _id, eventName }] *)

Record Response := mkResponse {
  status : Z;
  json : Json;
}.

(** ** The database layer (mongoose) *)

(** Errors the database layer throws. *)
Inductive Exn :=
  | CastError (value : string)         (* the text is not an ObjectId *)
  | ValidationError (value : string)   (* the value fails a schema validator *)
  | MongoServerError (skip : Z).       (* the server rejects a negative skip *)

(** A query under construction: [Model.find(filter)] followed by
    [.sort], [.skip] and [.limit]. The sort specification is given by
    its order, as a boolean comparison. *)
Record Query (A : Type) := mkQuery {
  q_coll : gmap string A;
  q_filter : A → bool;
  q_sort : option (A → A → bool);
  q_skip : Z;
  q_limit : option nat;
}.
Arguments mkQuery {A}.
Arguments q_coll {A}.
Arguments q_filter {A}.
Arguments q_sort {A}.
Arguments q_skip {A}.
Arguments q_limit {A}.

(** The documents of the collection that match the filter, in the order
    of their [_id]. *)
Definition matching {A} (coll : gmap string A) (p : A → bool) : list A :=
  filter (λ d, Is_true (p d)) (map_to_list coll).*2.

(** What the controllers leave to mongoose and to the database server:
    whether a text is a valid ObjectId (the empty text is not); the
    ObjectId a valid text denotes, given by its hexadecimal text; the
    [message] of an error; and the order in which the server meets the
    documents that match a query, which is the server's choice and may
    differ from one query to the next. *)
Class Mongoose := {
  ObjectId_isValid : string → bool;
  ObjectId_cast : string → string;
  error_message : Exn → string;
  scan : ∀ A : Type, Query A → list A;
  ObjectId_isValid_empty : ObjectId_isValid "" = false;
  scan_Permutation :
    ∀ (A : Type) (q : Query A), scan A q ≡ₚ matching (q_coll q) (q_filter q);
}.
Arguments scan {_ A}.

Section mongoose.
Context `{Mongoose} {A : Type}.

(** [Model.findById(id)]: [undefined] finds nothing, a text that is not
    an ObjectId throws, otherwise the document whose [_id] is the
    ObjectId the text denotes, if any. *)
Definition findById (coll : gmap string A) (id : option string) : Exn + option A :=
  match id with
  | None => inr None
  | Some i =>
      if ObjectId_isValid i then inr (coll !! ObjectId_cast i) else inl (CastError i)
  end.

(** The options of [findByIdAndUpdate] that matter here, with their
    defaults: [new] (return the document after the update) and
    [runValidators] (check the update against the schema). *)
Record UpdateOptions := mkUpdateOptions {
  opt_new : bool;
  opt_runValidators : bool;
}.

(** [Model.findByIdAndUpdate(id, update, options)]. The update is given
    by its effect [upd] on the document; [invalid] is the value of the
    update that a validator of the schema rejects, if there is one.
    Validators run only under [runValidators]. *)
Definition findByIdAndUpdate (coll : gmap string A) (id : string)
    (upd : A → A) (invalid : option string) (opts : UpdateOptions)
    : Exn + (option A * gmap string A) :=
  if negb (ObjectId_isValid id) then inl (CastError id)
  else
    match (if opt_runValidators opts then invalid else None) with
    | Some v => inl (ValidationError v)
    | None =>
        match coll !! ObjectId_cast id with
        | None => inr (None, coll)
        | Some d =>
            inr (Some (if opt_new opts then upd d else d),
                 <[ObjectId_cast id := upd d]> coll)
        end
    end.

Definition find (coll : gmap string A) (p : A → bool) : Query A :=
  mkQuery coll p None 0 None.
Definition sort (leb : A → A → bool) (q : Query A) : Query A :=
  mkQuery (q_coll q) (q_filter q) (Some leb) (q_skip q) (q_limit q).
Definition skip (n : Z) (q : Query A) : Query A :=
  mkQuery (q_coll q) (q_filter q) (q_sort q) n (q_limit q).
Definition limit (n : nat) (q : Query A) : Query A :=
  mkQuery (q_coll q) (q_filter q) (q_sort q) (q_skip q) (Some n).

(** Sorting: each document is put before the first of the following
    ones that it does not come after, so that documents that compare
    equal stay in the order they were met. *)
Fixpoint insert_by (leb : A → A → bool) (x : A) (l : list A) : list A :=
  match l with
  | [] => [x]
  | y :: l' => if leb x y then x :: l else y :: insert_by leb x l'
  end.

Definition sorted_by (leb : option (A → A → bool)) (l : list A) : list A :=
  match leb with
  | Some f => foldr (insert_by f) [] l
  | None => l
  end.

(** Awaiting the query: the matching documents as the server meets them,
    sorted, then skip, then limit. The server refuses a negative skip. *)
Definition exec (q : Query A) : Exn + list A :=
  if q_skip q <? 0 then inl (MongoServerError (q_skip q))
  else
    let docs := sorted_by (q_sort q) (scan q) in
    let docs := drop (Z.to_nat (q_skip q)) docs in
    inr (match q_limit q with Some n => take n docs | None => docs end).
End mongoose.

Notation "q |> f" := (f q) (at level 45, left associativity, only parsing).

(** Ascending order of a date field that may be [null]: [null] sorts
    first. *)
Definition date_compare (a b : option Z) : comparison :=
  match a, b with
  | None, None => Eq
  | None, Some _ => Lt
  | Some _, None => Gt
  | Some x, Some y => x ?= y
  end.

(** The sort specification [{ deadline: 1, createdAt: 1 }]. *)
Definition by_deadline_createdAt (a b : Task.t) : bool :=
  match date_compare (Task.deadline a) (Task.deadline b) with
  | Lt => true
  | Gt => false
  | Eq => Task.createdAt a <=? Task.createdAt b
  end.

(** The same order as the specification words it: by deadline, a task
    without deadline before the others, then by creation time. *)
Definition deadline_then_createdAt (a b : Task.t) : Prop :=
  match Task.deadline a, Task.deadline b with
  | None, Some _ => True
  | Some _, None => False
  | None, None => Task.createdAt a ≤ Task.createdAt b
  | Some x, Some y => x < y ∨ (x = y ∧ Task.createdAt a ≤ Task.createdAt b)
  end.

(** The sort specification [{ date: 1 }]. *)
Definition by_date (a b : Event.t) : bool :=
  match date_compare (Event.date a) (Event.date b) with
  | Gt => false
  | _ => true
  end.

(** ** The Task model (models/Task.js) *)

Module TaskModel.
Section model.
Context `{Mongoose}.

(** A [required] string must not be empty. *)
Definition required (s : string) : bool := negb (String.eqb s "").

Definition comment_valid (c : Comment.t) : bool :=
  required (Comment.author c) && required (Comment.message c).

(** The validators of [taskSchema]: the required fields, the [enum] of
    [status], and the required fields of every comment. *)
Definition validate (x : Task.t) : bool :=
  required (Task.taskName x) && required (Task.description x) &&
  required (Task.eventName x) && required (Task.eventID x) &&
  bool_decide (Task.status x ∈ Task.status_enum) &&
  required (Task.creator x) && required (Task.assignee x) &&
  forallb comment_valid (Task.comments x).

(** [Task.findByIdAndUpdate(id, { $set: { status } }, options)]:
    with [timestamps: true] the update also sets [updatedAt]. The only
    validator concerned is the [enum] of [status]. *)
Definition findByIdAndUpdate_set_status (coll : gmap string Task.t)
    (id status : string) (opts : UpdateOptions) (now : Z)
    : Exn + (option Task.t * gmap string Task.t) :=
  findByIdAndUpdate coll id
    (λ x, Task.set_updatedAt now (Task.set_status status x))
    (if bool_decide (status ∈ Task.status_enum) then None else Some status)
    opts.

(** [task.save()] on a document read from the collection: the document
    is validated against the schema, then written back whole, with
    [updatedAt] set. *)
Definition save (task : Task.t) (now : Z) (coll : gmap string Task.t)
    : Exn + (Task.t * gmap string Task.t) :=
  if validate task
  then let saved := Task.set_updatedAt now task in
       inr (saved, <[Task._id task := saved]> coll)
  else inl (ValidationError (Task._id task)).
End model.
End TaskModel.

(** ** controllers/taskController.js *)

Module taskController.
Section controller.
Context `{Mongoose}.

Definition getTasksByAssignee (taskRequest : Request) (st : Store) : Response :=
  let userEmail := headers taskRequest !! "user-email" in
  if negb (JS.truthy userEmail)
  then mkResponse 400 (JMessage "User email is required in headers")
  else
    let userEmail := default "" userEmail in
    match find (Tasks st) (λ x, String.eqb (Task.assignee x) userEmail)
            |> sort by_deadline_createdAt |> exec with
    | inl error =>
        mkResponse 500 (JMessage ("Error fetching tasks: " +:+ error_message error))
    | inr tasks =>
        if (length tasks =? 0)%nat
        then mkResponse 404 (JMessage "No tasks found for this employee")
        else mkResponse 200 (JTasks tasks)
    end.

Definition updateTaskStatus (taskRequest : Request) (now : Z) (st : Store)
    : Response * Store :=
  let status := body taskRequest !! "status" in
  let taskId := params taskRequest !! "taskId" in
  if negb (JS.truthy taskId) || negb (JS.truthy status)
  then (mkResponse 400 (JMessage "Task ID and status are required"), st)
  else
    let status := default "" status in
    let taskId := default "" taskId in
    if negb (ObjectId_isValid taskId)
    then (mkResponse 400 (JMessage "Invalid Task ID format"), st)
    else
      match TaskModel.findByIdAndUpdate_set_status (Tasks st) taskId status
              {| opt_new := true; opt_runValidators := false |} now with
      | inl error =>
          (mkResponse 500
             (JMessage ("Error updating task status: " +:+ error_message error)), st)
      | inr (None, _) => (mkResponse 404 (JMessage "Task not found"), st)
      | inr (Some updatedTask, coll) =>
          (mkResponse 200 (JMessageTask "Task status updated" updatedTask),
           set_Tasks coll st)
      end.

Definition addCommentToTask_Assignee (commentRequest : Request) (now : Z)
    (st : Store) : Response * Store :=
  let userEmail := headers commentRequest !! "user-email" in
  let message := body commentRequest !! "message" in
  let taskId := params commentRequest !! "taskId" in
  if negb (bool_decide (is_Some taskId)) || negb (ObjectId_isValid (default "" taskId))
  then (mkResponse 400 (JMessage "Invalid Task ID format"), st)
  else if negb (JS.truthy userEmail) || negb (JS.truthy message)
  then (mkResponse 400 (JMessage "User email and message are required"), st)
  else
    match findById (Tasks st) taskId with
    | inl error =>
        (mkResponse 500 (JMessage ("Server error: " +:+ error_message error)), st)
    | inr None => (mkResponse 404 (JMessage "Task not found"), st)
    | inr (Some task) =>
        let newComment :=
          Comment.mk (default "" userEmail) (default "" message) now in
        let task := Task.set_comments (Task.comments task ++ [newComment]) task in
        match TaskModel.save task now (Tasks st) with
        | inl error =>
            (mkResponse 500 (JMessage ("Server error: " +:+ error_message error)), st)
        | inr (task, coll) =>
            (mkResponse 201 (JMessageTask "Comment added successfully" task),
             set_Tasks coll st)
        end
    end.
End controller.
End taskController.

(** ** controllers/createdEventController.js *)

Module createdEventController.
Section controller.
Context `{Mongoose}.

Definition getTasks (taskRequest : Request) (st : Store) : Response :=
  let userEmail := headers taskRequest !! "user-email" in
  if negb (JS.truthy userEmail)
  then mkResponse 400 (JMessage "User email is required in headers")
  else
    let userEmail := default "" userEmail in
    let page := JS.num_or (JS.parseInt (query taskRequest !! "page")) 1 in
    let limit_ := 10%nat in
    let skip_ := (page - 1) * Z.of_nat limit_ in
    match find (Tasks st) (λ x, String.eqb (Task.creator x) userEmail)
            |> sort by_deadline_createdAt |> skip skip_ |> limit limit_
            |> exec with
    | inl error =>
        mkResponse 500 (JMessage ("Error fetching tasks: " +:+ error_message error))
    | inr tasks => mkResponse 200 (JTasks tasks)
    end.

(** The query object [filterTasks] builds. *)
Record TaskQuery := mkTaskQuery {
  query_status : option string;
  query_assignee : option string;
}.

(** [Task.find(query)]: every field present in the query must be equal
    in the document. *)
Definition matches (q : TaskQuery) (x : Task.t) : bool :=
  match query_status q with
  | Some s => String.eqb (Task.status x) s
  | None => true
  end &&
  match query_assignee q with
  | Some a => String.eqb (Task.assignee x) a
  | None => true
  end.

Definition filterTasks_query (taskRequest : Request) : TaskQuery :=
  let status := query taskRequest !! "status" in
  let assignee := query taskRequest !! "assignee" in
  {| query_status :=
       if JS.truthy status &&
          bool_decide (default "" status ∈ ["Pending"; "In Progress"; "Completed"])
       then status else None;
     query_assignee := if JS.truthy assignee then assignee else None |}.

Definition filterTasks (taskRequest : Request) (st : Store) : Response :=
  let query := filterTasks_query taskRequest in
  match find (Tasks st) (matches query) |> exec with
  | inl error =>
      mkResponse 500 (JMessage ("Server error: " +:+ error_message error))
  | inr filteredTasks => mkResponse 200 (JTasks filteredTasks)
  end.

(** [task.comments] of a document of the model is always an array, so
    the branch that resets it is never taken. *)
Definition addCommentToTask (commentRequest : Request) (now : Z) (st : Store)
    : Response * Store :=
  let author := body commentRequest !! "author" in
  let message := body commentRequest !! "message" in
  if negb (JS.truthy author) || negb (JS.truthy message)
  then (mkResponse 400 (JMessage "Author and message are required"), st)
  else
    match findById (Tasks st) (params commentRequest !! "id") with
    | inl error =>
        (mkResponse 500 (JMessage ("Server error: " +:+ error_message error)), st)
    | inr None => (mkResponse 404 (JMessage "Task not found"), st)
    | inr (Some task) =>
        let newComment :=
          Comment.mk (default "" author) (default "" message) now in
        let task := Task.set_comments (Task.comments task ++ [newComment]) task in
        match TaskModel.save task now (Tasks st) with
        | inl error =>
            (mkResponse 500 (JMessage ("Server error: " +:+ error_message error)), st)
        | inr (task, coll) =>
            (mkResponse 201 (JMessageTask "Comment added successfully" task),
             set_Tasks coll st)
        end
    end.

Definition getEventsByCreator (eventRequest : Request) (st : Store) : Response :=
  let userEmail := headers eventRequest !! "user-email" in
  if negb (JS.truthy userEmail)
  then mkResponse 400 (JMessage "User email is required in headers")
  else
    let userEmail := default "" userEmail in
    let page := JS.num_or (JS.parseInt (query eventRequest !! "page")) 1 in
    let limit_ := 10%nat in
    let skip_ := (page - 1) * Z.of_nat limit_ in
    match find (Events st) (λ e, String.eqb (Event.creator e) userEmail)
            |> sort by_date |> skip skip_ |> limit limit_ |> exec with
    | inl error =>
        mkResponse 500 (JMessage ("Error fetching events: " +:+ error_message error))
    | inr events =>
        if (length events =? 0)%nat
        then mkResponse 404 (JMessage "No events found for this creator")
        else mkResponse 200
               (JEvents ((λ e, (Event._id e, Event.eventName e)) <$> events))
    end.
End controller.
End createdEventController.

(** ** middleware/authenticateUser.js *)

(** What [jwt.verify] throws. *)
Inductive JwtError :=
  | TokenExpiredError
  | JsonWebTokenError     (* malformed token, bad signature *)
  | NotBeforeError.

(** [jwt.verify(token, secret)] either throws or returns the decoded
    payload, of which the middleware reads [id] (which may be absent);
    [process.env.JWT_SECRET] may be unset. *)
Class Jwt := {
  jwt_verify : string → string → JwtError + option string;
  env_JWT_SECRET : option string;
}.

(** A middleware either answers the request itself or calls [next] with
    the request. *)
Inductive MiddlewareResult :=
  | Halt (response : Response)
  | Next (request : Request).

Module authenticateUser.
Section middleware.
Context `{Mongoose} `{Jwt}.

Definition JWT_SECRET : string :=
  default "" (JS.or_else env_JWT_SECRET (Some "fallback_secret")).

Definition unauthorized (error : string) : MiddlewareResult :=
  Halt (mkResponse 401 (JError error)).

(** [authRequest.cookies?.token ||
     authRequest.header("Authorization")?.replace("Bearer ", "")]. *)
Definition token_of (authRequest : Request) : option string :=
  JS.or_else
    (cookies authRequest ≫= (.!! "token"))
    (JS.replace "Bearer " "" <$> header authRequest "Authorization").

Definition authenticateUser (authRequest : Request) (st : Store) : MiddlewareResult :=
  let token := token_of authRequest in
  if negb (JS.truthy token)
  then unauthorized "Unauthorized: No token provided."
  else
    match jwt_verify (default "" token) JWT_SECRET with
    | inl _ => unauthorized "Unauthorized: Invalid or expired token."
    | inr decoded_id =>
        match findById (Employees st) decoded_id with
        | inl _ => unauthorized "Unauthorized: Invalid or expired token."
        | inr None => unauthorized "Unauthorized: User not found."
        | inr (Some authenticatedUser) =>
            Next (set_user
                    {| user_id := Employee._id authenticatedUser;
                       user_email := Employee.email authenticatedUser;
                       user_name := Employee.name authenticatedUser;
                       user_role := Employee.role authenticatedUser;
                       user_team := Employee.team authenticatedUser |}
                    authRequest)
        end
    end.

(** A route [router.METHOD(path, authenticateUser, handler)]: the
    handler runs only if the middleware calls [next]. *)
Definition guarded (handler : Request → Z → Store → Response * Store)
    (request : Request) (now : Z) (st : Store) : Response * Store :=
  match authenticateUser request st with
  | Halt response => (response, st)
  | Next request => handler request now st
  end.
End middleware.
End authenticateUser.

(** ** frontend/src/components/Reports/ReportsHome.js: the aggregation *)

Module ReportsHome.

(** An element [cur] of the array the compiled-report endpoint returns.
    [totalBudget] is the double [Number(cur.totalBudget)], which may be
    [NaN]; [team] and [eventName] may be absent. *)
Record Entry := mkEntry {
  year : N;
  eventType : string;
  totalBudget : float;
  team : option string;
  eventName : option string;
}.

(** A row of the report. *)
Record Row := mkRow {
  row_year : N;
  row_team : string;
  row_eventType : string;
  row_eventCount : Z;
  row_eventNames : list string;
  row_totalBudget : float;
}.

(** The accumulator [acc] is an object used as a map: its own keys in
    insertion order, each with a row. Every key starts with the digits
    of a year and contains a dash, so that none is an array index or a
    name that a plain object inherits. *)
Definition Obj := list (string * Row).

Fixpoint get (key : string) (acc : Obj) : option Row :=
  match acc with
  | [] => None
  | (k, r) :: acc' => if String.eqb k key then Some r else get key acc'
  end.

(** [acc[key] = r]: in place for a key already there, at the end for a
    new one. *)
Fixpoint set (key : string) (r : Row) (acc : Obj) : Obj :=
  match acc with
  | [] => [(key, r)]
  | (k, r') :: acc' =>
      if String.eqb k key then (k, r) :: acc' else (k, r') :: set key r acc'
  end.

(** Template literal [`${cur.year}-${cur.eventType}`]. *)
Definition key_of (year : N) (eventType : string) : string :=
  pretty year +:+ "-" +:+ eventType.

(** The callback of [reduce]. *)
Definition step (acc : Obj) (cur : Entry) : Obj :=
  let key := key_of (year cur) (eventType cur) in
  let acc :=
    match get key acc with
    | None =>
        set key
          {| row_year := year cur;
             row_team := default "" (JS.or_else (team cur) (Some "N/A"));
             row_eventType := eventType cur;
             row_eventCount := 0;
             row_eventNames := [];
             row_totalBudget := 0%float |} acc
    | Some _ => acc
    end in
  match get key acc with
  | None => acc
  | Some r =>
      set key
        {| row_year := row_year r;
           row_team := row_team r;
           row_eventType := row_eventType r;
           row_eventCount := row_eventCount r + 1;
           row_eventNames :=
             if JS.truthy (eventName cur)
             then row_eventNames r ++ [default "" (eventName cur)]
             else row_eventNames r;
           row_totalBudget :=
             (row_totalBudget r + JS.float_or (totalBudget cur) 0)%float |}
        acc
  end.

Definition aggregatedData (data : list Entry) : Obj := fold_left step data [].

(** [Object.values(aggregatedData)]. *)
Definition finalData (data : list Entry) : list Row := (aggregatedData data).*2.

(** *** What the aggregation is meant to compute *)

(** The entries of [data] with a given year and event type. *)
Definition group_of (y : N) (ty : string) (data : list Entry) : list Entry :=
  filter (λ e, year e = y ∧ eventType e = ty) data.

(** The entries of [data] with a given key. *)
Definition keyed (key : string) (data : list Entry) : list Entry :=
  filter (λ e, key_of (year e) (eventType e) = key) data.

(** The sum of the budgets of the entries, added one after the other
    in the order of the list, as doubles; a budget that is [NaN] counts
    for [0]. *)
Definition sum_budgets (l : list Entry) : float :=
  fold_left (λ s e, (s + JS.float_or (totalBudget e) 0)%float) l 0%float.

Definition names_of (l : list Entry) : list string :=
  l ≫= (λ e, if JS.truthy (eventName e) then [default "" (eventName e)] else []).

(** The row of a group: year, team and event type of its first entry,
    the number of its entries, their names and the sum of their budgets. *)
Definition row_of_group (first : Entry) (g : list Entry) : Row :=
  {| row_year := year first;
     row_team := default "" (JS.or_else (team first) (Some "N/A"));
     row_eventType := eventType first;
     row_eventCount := Z.of_nat (length g);
     row_eventNames := names_of g;
     row_totalBudget := sum_budgets g |}.

Fixpoint no_dash (s : string) : bool :=
  match s with
  | String c s' => negb (Ascii.eqb c "-") && no_dash s'
  | EmptyString => true
  end.

End ReportsHome.

(** ** The two comment endpoints *)

(** [POST /api/tasks/assigned/:taskId/comments] (assignee side) and
    [POST /api/admin/:id/comments] (creator side). *)
Inductive CommentEndpoint := AssigneeComments | CreatorComments.

Section comment_endpoints.
Context `{Mongoose}.

Definition addComment (via : CommentEndpoint)
    : Request → Z → Store → Response * Store :=
  match via with
  | AssigneeComments => taskController.addCommentToTask_Assignee
  | CreatorComments => createdEventController.addCommentToTask
  end.

(** Where each endpoint reads the task id, the author and the message. *)
Definition carries (via : CommentEndpoint) (req : Request)
    (taskId author message : string) : Prop :=
  match via with
  | AssigneeComments =>
      params req !! "taskId" = Some taskId ∧
      headers req !! "user-email" = Some author ∧
      body req !! "message" = Some message
  | CreatorComments =>
      params req !! "id" = Some taskId ∧
      body req !! "author" = Some author ∧
      body req !! "message" = Some message
  end.
End comment_endpoints.

(** ** Running a sequence of requests *)

(** The responses to a sequence of requests served one after the other
    by the same handler, each with its clock reading, and the store that
    is left. *)
Fixpoint serve (handler : Request → Z → Store → Response * Store)
    (requests : list (Request * Z)) (st : Store) : list Response * Store :=
  match requests with
  | [] => ([], st)
  | (request, now) :: requests =>
      let '(response, st) := handler request now st in
      let '(responses, st) := serve handler requests st in
      (response :: responses, st)
  end.

(** ** An instance of the library interfaces, to evaluate the model *)

Module Fixture.

Definition is_hex (c : ascii) : bool :=
  match JS.digit_of 16 c with Some _ => true | None => false end.

Fixpoint all_hex (s : string) : bool :=
  match s with
  | String c s' => is_hex c && all_hex s'
  | EmptyString => true
  end.

(** Texts of 24 hexadecimal digits. *)
Definition hex24 (s : string) : bool :=
  (String.length s =? 24)%nat && all_hex s.

(** The valid ObjectIds of this instance are the texts of 24
    hexadecimal digits, of either case (the versions of the library
    differ on texts of 12 characters, which no example here uses); the
    server meets the documents in the order of their [_id]. *)
Definition mongoose : Mongoose :=
  {| ObjectId_isValid := hex24;
     ObjectId_cast := JS.toLowerCase;
     error_message e :=
       match e with
       | CastError v => "Cast to ObjectId failed for value " +:+ v
       | ValidationError v => "Validation failed: " +:+ v
       | MongoServerError n => "Skip value must be non-negative"
       end;
     scan A q := matching (q_coll q) (q_filter q);
     ObjectId_isValid_empty := eq_refl;
     scan_Permutation A q := reflexivity _ |}.

(** A verifier that knows one token, one expired token, and rejects
    the rest. *)
Definition jwt : Jwt :=
  {| jwt_verify token secret :=
       if String.eqb token "valid.token" then inr (Some "65f0a1b2c3d4e5f601234567")
       else if String.eqb token "expired.token" then inl TokenExpiredError
       else inl JsonWebTokenError;
     env_JWT_SECRET := None |}.

Definition id1 : string := "65f0a1b2c3d4e5f6a7b8c9d0".

Definition task1 : Task.t :=
  {| Task._id := id1; Task.taskName := "Book venue";
     Task.description := "Call the venue"; Task.eventName := "Offsite";
     Task.eventID := "65f0a1b2c3d4e5f6a7b8c9d1"; Task.status := "Pending";
     Task.budget := None; Task.creator := "manager@firm.com";
     Task.assignee := "dev@firm.com"; Task.deadline := None;
     Task.comments := []; Task.createdAt := 1000; Task.updatedAt := 1000 |}.

Definition store1 : Store :=
  {| Tasks := {[ id1 := task1 ]}; Events := ∅; Employees := ∅ |}.

Definition request (hs ps qs bs : list (string * string)) : Request :=
  {| headers := list_to_map hs; cookies := None; params := list_to_map ps;
     query := list_to_map qs; body := list_to_map bs; user := None |}.

(** An event of the creator of the tasks. *)
Definition event1 : Event.t :=
  {| Event._id := "65f0a1b2c3d4e5f6a7b8c9d1"; Event.eventName := "Workshop";
     Event.eventType := "limited-entry"; Event.date := Some 1700000000000;
     Event.venue := None; Event.description := "Hands-on";
     Event.availableSlots := Some 1; Event.ticketPrice := Some 100;
     Event.totalBudget := Some 5000; Event.attendees := [];
     Event.team := ""; Event.isPaid := true;
     Event.creator := "manager@firm.com" |}.

(** Twenty-five tasks of one creator, some without deadline. *)
Definition task_n (i : nat) : Task.t :=
  {| Task._id := "65f0a1b2c3d4e5f6a7b8c" +:+ pretty (100 + i)%nat;
     Task.taskName := "Task " +:+ pretty i;
     Task.description := "Prepare"; Task.eventName := "Offsite";
     Task.eventID := "65f0a1b2c3d4e5f6a7b8c9d1"; Task.status := "Pending";
     Task.budget := None; Task.creator := "manager@firm.com";
     Task.assignee := "dev@firm.com";
     Task.deadline :=
       if (i mod 3 =? 0)%nat then None else Some (Z.of_nat ((i * 7) mod 25));
     Task.comments := []; Task.createdAt := Z.of_nat i;
     Task.updatedAt := Z.of_nat i |}.

Definition store25 : Store :=
  {| Tasks := list_to_map ((λ i, (Task._id (task_n i), task_n i)) <$> seq 0 25);
     Events := ∅; Employees := ∅ |}.

End Fixture.

(** * The rest of the controllers *)

(** ** Reading a task (taskController.js, createdEventController.js) *)

Section read_endpoints.
Context `{Mongoose}.

(** [taskController.getTaskById], behind
    [GET /api/tasks/assigned/:taskId]. *)
Definition getTaskById (taskRequest : Request) (st : Store) : Response :=
  let taskId := params taskRequest !! "taskId" in
  if negb (bool_decide (is_Some taskId)) || negb (ObjectId_isValid (default "" taskId))
  then mkResponse 400 (JMessage "Invalid Task ID format")
  else
    match findById (Tasks st) taskId with
    | inl error =>
        mkResponse 500
          (JMessage ("Error fetching task details: " +:+ error_message error))
    | inr None => mkResponse 404 (JMessage "Task not found")
    | inr (Some task) => mkResponse 200 (JTask task)
    end.

(** [createdEventController.getTaskDetails], behind [GET /api/admin/:id]:
    the id is not checked before the lookup. *)
Definition getTaskDetails (taskRequest : Request) (st : Store) : Response :=
  match findById (Tasks st) (params taskRequest !! "id") with
  | inl error =>
      mkResponse 500 (JMessage ("Server error: " +:+ error_message error))
  | inr None => mkResponse 404 (JMessage "Task not found")
  | inr (Some task) => mkResponse 200 (JTask task)
  end.

(** What [getTaskComments] passes to [res.json]. *)
Inductive CommentsJson :=
  | JComments (comments : list Comment.t)     (* { comments } *)
  | JCommentsMessage (message : string).      (* { message } *)

(** [createdEventController.getTaskComments], behind
    [GET /api/admin/:id/comments]. *)
Definition getTaskComments (commentRequest : Request) (st : Store)
    : Z * CommentsJson :=
  match findById (Tasks st) (params commentRequest !! "id") with
  | inl error =>
      (500, JCommentsMessage ("Server error: " +:+ error_message error))
  | inr None => (404, JCommentsMessage "Task not found")
  | inr (Some task) => (200, JComments (Task.comments task))
  end.

(** [createdEventController.getTasksByEventID], behind
    [GET /api/admin/tasks?eventID=]: [res.json] without [res.status]
    answers 200. The [eventID] of a task is the hexadecimal text of its
    ObjectId. *)
Definition getTasksByEventID (taskRequest : Request) (st : Store) : Response :=
  let eventID := query taskRequest !! "eventID" in
  if negb (bool_decide (is_Some eventID)) || negb (ObjectId_isValid (default "" eventID))
  then mkResponse 400 (JError "Invalid eventID format")
  else
    let objectId := ObjectId_cast (default "" eventID) in
    match find (Tasks st) (λ x, String.eqb (Task.eventID x) objectId) |> exec with
    | inl _ => mkResponse 500 (JError "Server error")
    | inr tasks => mkResponse 200 (JTasks tasks)
    end.
End read_endpoints.

(** ** Invariants of the task collection *)

(** Every task is stored under its own [_id]. *)
Definition ids_consistent (st : Store) : Prop :=
  ∀ id x, Tasks st !! id = Some x → Task._id x = id.

(** Every task passes the validators of the schema. *)
Definition schema_valid (st : Store) : Prop :=
  ∀ id x, Tasks st !! id = Some x → TaskModel.validate x = true.

(** The array of tasks in a response, if that is what it carries. *)
Definition tasks_of (response : Response) : list Task.t :=
  match json response with
  | JTasks l => l
  | _ => []
  end.

(** ** Sequences of writes to the task collection *)

(** The requests that write to a task: a status update, or a comment
    through one of the two comment endpoints, each with the clock reading
    of its call. *)
Inductive TaskOp :=
  | OpStatus (request : Request) (now : Z)
  | OpComment (via : CommentEndpoint) (request : Request) (now : Z).

Section task_ops.
Context `{Mongoose}.

Definition apply_op (op : TaskOp) (st : Store) : Response * Store :=
  match op with
  | OpStatus request now => taskController.updateTaskStatus request now st
  | OpComment via request now => addComment via request now st
  end.

(** The store after serving the requests one after the other. *)
Definition run_ops (ops : list TaskOp) (st : Store) : Store :=
  fold_left (λ st op, (apply_op op st).2) ops st.
End task_ops.

(** The fields of a task that no endpoint writes. *)
Definition same_identity (x x' : Task.t) : Prop :=
  Task._id x' = Task._id x ∧ Task.taskName x' = Task.taskName x ∧
  Task.description x' = Task.description x ∧
  Task.eventName x' = Task.eventName x ∧ Task.eventID x' = Task.eventID x ∧
  Task.budget x' = Task.budget x ∧ Task.creator x' = Task.creator x ∧
  Task.assignee x' = Task.assignee x ∧ Task.deadline x' = Task.deadline x ∧
  Task.createdAt x' = Task.createdAt x.

(** The task a write request names. *)
Definition op_target (op : TaskOp) : option string :=
  match op with
  | OpStatus request _ => params request !! "taskId"
  | OpComment AssigneeComments request _ => params request !! "taskId"
  | OpComment CreatorComments request _ => params request !! "id"
  end.

(** The clock reading of a write request. *)
Definition op_now (op : TaskOp) : Z :=
  match op with
  | OpStatus _ now => now
  | OpComment _ _ now => now
  end.

(** A status update is well-formed when the status it carries, if any,
    is one the schema declares. *)
Definition op_status_declared (op : TaskOp) : Prop :=
  match op with
  | OpStatus request _ =>
      ∀ s, body request !! "status" = Some s → s ∈ Task.status_enum
  | OpComment _ _ _ => True
  end.

(** The timestamps of the comments of every task are in non-decreasing
    order and none is later than [bound]. *)
Definition timestamps_ordered (bound : Z) (st : Store) : Prop :=
  ∀ id x, Tasks st !! id = Some x →
    Sorted Z.le (Comment.timestamp <$> Task.comments x) ∧
    Forall (λ t, t ≤ bound) (Comment.timestamp <$> Task.comments x).

(** ** Page numbers *)

(** A text made of decimal digits only. *)
Fixpoint all_digits (s : string) : bool :=
  match s with
  | String c s' =>
      (48 <=? nat_of_ascii c)%nat && (nat_of_ascii c <=? 57)%nat && all_digits s'
  | EmptyString => true
  end.

(** ** More data to evaluate the model on *)

Module Fixture2.

(** The twenty-five tasks, with one event of their creator. *)
Definition store26 : Store :=
  {| Tasks := Tasks Fixture.store25;
     Events := {[ Event._id Fixture.event1 := Fixture.event1 ]};
     Employees := ∅ |}.

(** The creator's request for page [n] of a listing. *)
Definition page_request (page : string) : Request :=
  Fixture.request [("user-email", "manager@firm.com")] [] [("page", page)] [].

(** The employee the token of [Fixture.jwt] decodes to. *)
Definition employee1 : Employee.t :=
  {| Employee._id := "65f0a1b2c3d4e5f601234567"; Employee.name := "Dev";
     Employee.email := "dev@firm.com"; Employee.password := "$2b$10$hash";
     Employee.team := "General"; Employee.role := "employee" |}.

Definition store27 : Store :=
  {| Tasks := Tasks Fixture.store1; Events := ∅;
     Employees := {[ Employee._id employee1 := employee1 ]} |}.

(** Eleven tasks of one creator with the same deadline and the same
    creation time. *)
Definition tied (i : nat) : Task.t :=
  {| Task._id := "65f0a1b2c3d4e5f6a7b8d" +:+ pretty (100 + i)%nat;
     Task.taskName := "Task " +:+ pretty i;
     Task.description := "Prepare"; Task.eventName := "Offsite";
     Task.eventID := "65f0a1b2c3d4e5f6a7b8c9d1"; Task.status := "Pending";
     Task.budget := None; Task.creator := "manager@firm.com";
     Task.assignee := "dev@firm.com"; Task.deadline := None;
     Task.comments := []; Task.createdAt := 1000; Task.updatedAt := 1000 |}.

Definition store_tied : Store :=
  {| Tasks := list_to_map ((λ i, (Task._id (tied i), tied i)) <$> seq 0 11);
     Events := ∅; Employees := ∅ |}.

(** A server that meets the documents in the order of their [_id] for
    a query without skip, and in the reverse order for a query with
    one. *)
Definition reversing : Mongoose :=
  {| ObjectId_isValid := Fixture.hex24;
     ObjectId_cast := JS.toLowerCase;
     error_message := @error_message Fixture.mongoose;
     scan A q :=
       if q_skip q =? 0 then matching (q_coll q) (q_filter q)
       else reverse (matching (q_coll q) (q_filter q));
     ObjectId_isValid_empty := eq_refl;
     scan_Permutation A q :=
       match q_skip q =? 0 as b
         return (if b then matching (q_coll q) (q_filter q)
                 else reverse (matching (q_coll q) (q_filter q)))
                ≡ₚ matching (q_coll q) (q_filter q)
       with
       | true => reflexivity _
       | false => reverse_Permutation _
       end |}.

(** A text of white space only: a space, a no-break space (U+00A0), an
    em space (U+2003) and a tab. *)
Definition blank : string :=
  String "032" (String "194" (String "160"
    (String "226" (String "128" (String "131" (String "009" EmptyString)))))).

(** A request with a cookie jar. *)
Definition cookie_request (jar : list (string * string)) : Request :=
  {| headers := ∅; cookies := Some (list_to_map jar); params := ∅;
     query := ∅; body := ∅; user := None |}.

End Fixture2.

(** ** What the middleware decides *)

(** The decision of the middleware, leaving out the request it passes
    on: the response it sends, or the identity it attaches. *)
Definition auth_outcome (result : MiddlewareResult) : Response + option AuthUser :=
  match result with
  | Halt response => inl response
  | Next request => inr (user request)
  end.

(** ** Counts of the report *)

Definition total_count (rows : list ReportsHome.Row) : Z :=
  foldr (λ r s, ReportsHome.row_eventCount r + s) 0 rows.

(** The rows, respectively the entries, whose year and event type are
    selected by [sel]. *)
Definition selected_rows (sel : N → string → bool) (rows : list ReportsHome.Row)
    : list ReportsHome.Row :=
  filter (λ r, Is_true (sel (ReportsHome.row_year r) (ReportsHome.row_eventType r)))
    rows.

Definition selected_entries (sel : N → string → bool)
    (data : list ReportsHome.Entry) : list ReportsHome.Entry :=
  filter (λ e, Is_true (sel (ReportsHome.year e) (ReportsHome.eventType e))) data.

(** * The browser side *)

(** ** axios *)

(** A request made with axios resolves with the response when its status
    is 2xx, and throws otherwise. *)
Definition axios_resolves (response : Response) : bool :=
  (200 <=? status response) && (status response <? 300).

(** ** components/Assignee Tasks/api.js *)

Module api.
Section client.
Context `{Mongoose}.

(** [fetchTasks]: [userEmail] is what [localStorage] holds; the request
    goes to [GET /api/tasks/assigned], served by [getTasksByAssignee]. *)
Definition fetchTasks (userEmail : option string) (st : Store) : Json :=
  if negb (JS.truthy userEmail) then JTasks []
  else
    let response :=
      taskController.getTasksByAssignee
        {| headers := {[ "user-email" := default "" userEmail ]};
           cookies := None; params := ∅; query := ∅; body := ∅; user := None |}
        st in
    if axios_resolves response then json response else JTasks [].
End client.
End api.

(** ** components/Event Creator Tasks/EventContext.js *)

Module EventContext.

(** The state [fetchEventTasks] reads and writes (the loading flag,
    which a timer resets, is left out). *)
Record State := mkState {
  selectedEventTasks : Json;
  lastFetchedEventID : option string;
}.

Section provider.
Context `{Mongoose}.

(** [fetchEventTasks(eventID)]: the request goes to
    [GET /api/admin/tasks?eventID=], served by [getTasksByEventID]. *)
Definition fetchEventTasks (eventID : option string) (st : Store) (s : State)
    : State :=
  if negb (JS.truthy eventID) || bool_decide (eventID = lastFetchedEventID s)
  then s
  else
    let response :=
      getTasksByEventID
        {| headers := ∅; cookies := None; params := ∅;
           query := {[ "eventID" := default "" eventID ]}; body := ∅;
           user := None |}
        st in
    if axios_resolves response
    then {| selectedEventTasks := json response; lastFetchedEventID := eventID |}
    else {| selectedEventTasks := JTasks [];
            lastFetchedEventID := lastFetchedEventID s |}.
End provider.
End EventContext.

(** ** Text search in the pages *)

(** [s.includes(pat)]. *)
Fixpoint includes (s pat : string) : bool :=
  String.prefix pat s ||
  match s with
  | String _ s' => includes s' pat
  | EmptyString => false
  end.

(** ** components/Event Creator Tasks/Dashboard.js *)

Module Dashboard.

Definition filteredTasks (taskFilter : string) (tasks : list Task.t) : list Task.t :=
  List.filter
    (λ task,
       if JS.truthy (Some (JS.trim taskFilter))
       then includes (JS.toLowerCase (Task.status task)) (JS.toLowerCase taskFilter)
       else true)
    tasks.

(** An event of the list is an [(_id, eventName)] pair. *)
Definition filteredEvents (eventFilter : string) (events : list (string * string))
    : list (string * string) :=
  List.filter
    (λ event,
       if JS.truthy (Some (JS.trim eventFilter))
       then includes (JS.toLowerCase event.2) (JS.toLowerCase eventFilter)
       else true)
    events.

End Dashboard.

(** ** components/Event Creator Tasks/EventTasksPage.js *)

Module EventTasksPage.

Definition filteredTasks (taskFilter : string) (selectedEventTasks : list Task.t)
    : list Task.t :=
  List.filter
    (λ task,
       if JS.truthy (Some taskFilter)
       then includes (JS.toLowerCase (Task.status task)) (JS.toLowerCase taskFilter)
       else true)
    selectedEventTasks.

End EventTasksPage.

(** ** The assignee's dashboard (Dashboard_Assignee.js) *)

Module DashboardAssignee.

Definition filteredTasks (search statusFilter eventFilter : string)
    (tasks : list Task.t) : list Task.t :=
  List.filter
    (λ task,
       (negb (JS.truthy (Some search)) ||
        includes (JS.toLowerCase (Task.eventName task)) (JS.toLowerCase search)) &&
       (negb (JS.truthy (Some statusFilter)) ||
        String.eqb (Task.status task) statusFilter) &&
       (negb (JS.truthy (Some eventFilter)) ||
        String.eqb (Task.eventName task) eventFilter))
    tasks.

End DashboardAssignee.

(** ** components/Reports/ReportsHome.js: the data of the charts *)

Module ReportsCharts.
Import ReportsHome.

(** Of the five objects the effect fills, the two whose keys are years:
    a year used as a key is the decimal text of it, one text per year,
    and is no name that a plain object inherits. They are modelled by
    what is under each key; the order in which [Object.keys] lists the
    keys is not part of the model. The three objects whose keys are event
    types and teams are left out. *)
Record Charts := mkCharts {
  eventsPerYear : gmap N Z;
  budgetPerYear : gmap N float;
}.

(** The callback of [forEach]:
    [obj[cur.year] = (obj[cur.year] || 0) + v]. *)
Definition forEach_step (c : Charts) (cur : Row) : Charts :=
  {| eventsPerYear :=
       <[row_year cur :=
           JS.num_or (eventsPerYear c !! row_year cur) 0 + row_eventCount cur]>
         (eventsPerYear c);
     budgetPerYear :=
       <[row_year cur :=
           (JS.float_or (default nan (budgetPerYear c !! row_year cur)) 0
            + row_totalBudget cur)%float]>
         (budgetPerYear c) |}.

(** The effect run on [reportData]: [None] when it returns at once. *)
Definition charts (reportData : list Row) : option Charts :=
  if (length reportData =? 0)%nat then None
  else Some (fold_left forEach_step reportData (mkCharts ∅ ∅)).

End ReportsCharts.

(** * Properties *)

Example parseInt_2 : JS.parseInt (Some "2") = Some 2.
Proof. reflexivity. Qed.
Example parseInt_absent : JS.parseInt None = None.
Proof. reflexivity. Qed.
Example parseInt_neg : JS.parseInt (Some " -1px") = Some (-1).
Proof. reflexivity. Qed.
Example parseInt_hex : JS.parseInt (Some "0x1f") = Some 31.
Proof. reflexivity. Qed.
Example parseInt_rounds :
  JS.parseInt (Some "9007199254740993") = Some 9007199254740992.
Proof. reflexivity. Qed.
Example parseInt_no_break_space :
  JS.parseInt (Some (String "194" (String "160" "7"))) = Some 7.
Proof. reflexivity. Qed.
Example trim_blank : JS.trim Fixture2.blank = "".
Proof. reflexivity. Qed.
Example trim_inner :
  JS.trim (Fixture2.blank +:+ "In Progress" +:+ Fixture2.blank) = "In Progress".
Proof. reflexivity. Qed.
Example float_or_nan : JS.float_or nan 0 = 0%float.
Proof. reflexivity. Qed.
Example replace_bearer : JS.replace "Bearer " "" "Bearer abc" = "abc".
Proof. reflexivity. Qed.
Example replace_none : JS.replace "Bearer " "" "abc" = "abc".
Proof. reflexivity. Qed.

(** ** JavaScript truthiness *)

Lemma truthy_Some s : s ≠ "" → JS.truthy (Some s) = true.
Proof.
  intros Hs. simpl. destruct (String.eqb_spec s ""); [done|reflexivity].
Qed.

Lemma truthy_inv v : JS.truthy v = true → ∃ s, v = Some s ∧ s ≠ "".
Proof.
  destruct v as [s|]; simpl; [|done].
  destruct (String.eqb_spec s ""); [done|]. intros _. by exists s.
Qed.

Lemma truthy_false_inv v : JS.truthy v = false → v = None ∨ v = Some "".
Proof.
  destruct v as [s|]; simpl; [|by left].
  destruct (String.eqb_spec s ""); [intros _; right; by subst|done].
Qed.

Lemma set_Tasks_same st : set_Tasks (Tasks st) st = st.
Proof. by destruct st. Qed.

(** ** Status update *)

Section status_update.
Context `{Mongoose}.

Lemma isValid_nonempty id : ObjectId_isValid id = true → id ≠ "".
Proof. intros Hv ->. rewrite ObjectId_isValid_empty in Hv. done. Qed.

(** What [updateTaskStatus] does to an existing task: whatever the
    status text, as long as it is not empty. *)
Lemma updateTaskStatus_found req now st taskId s t :
  params req !! "taskId" = Some taskId →
  body req !! "status" = Some s →
  s ≠ "" →
  ObjectId_isValid taskId = true →
  Tasks st !! ObjectId_cast taskId = Some t →
  taskController.updateTaskStatus req now st =
    (mkResponse 200
       (JMessageTask "Task status updated"
          (Task.set_updatedAt now (Task.set_status s t))),
     set_Tasks
       (<[ObjectId_cast taskId := Task.set_updatedAt now (Task.set_status s t)]>
          (Tasks st)) st).
Proof.
  intros Hid Hs Hne Hv Ht. unfold taskController.updateTaskStatus.
  rewrite Hid, Hs, !truthy_Some by eauto using isValid_nonempty. simpl.
  rewrite Hv. simpl.
  unfold TaskModel.findByIdAndUpdate_set_status, findByIdAndUpdate.
  rewrite Hv, Ht. simpl. reflexivity.
Qed.

Lemma updateTaskStatus_missing req now st :
  JS.truthy (params req !! "taskId") = false ∨
  JS.truthy (body req !! "status") = false →
  taskController.updateTaskStatus req now st =
    (mkResponse 400 (JMessage "Task ID and status are required"), st).
Proof.
  intros Hm. unfold taskController.updateTaskStatus.
  destruct Hm as [-> | ->]; simpl; [done|].
  by rewrite orb_true_r.
Qed.

Lemma updateTaskStatus_invalid req now st taskId :
  params req !! "taskId" = Some taskId →
  taskId ≠ "" →
  JS.truthy (body req !! "status") = true →
  ObjectId_isValid taskId = false →
  taskController.updateTaskStatus req now st =
    (mkResponse 400 (JMessage "Invalid Task ID format"), st).
Proof.
  intros Hid Hne Hs Hv. unfold taskController.updateTaskStatus.
  rewrite Hid, Hs, truthy_Some by done. simpl.
  by rewrite Hv.
Qed.

Lemma updateTaskStatus_not_found req now st taskId :
  params req !! "taskId" = Some taskId →
  JS.truthy (body req !! "status") = true →
  ObjectId_isValid taskId = true →
  Tasks st !! ObjectId_cast taskId = None →
  taskController.updateTaskStatus req now st =
    (mkResponse 404 (JMessage "Task not found"), st).
Proof.
  intros Hid Hs Hv Ht. unfold taskController.updateTaskStatus.
  rewrite Hid, Hs, truthy_Some by eauto using isValid_nonempty. simpl.
  rewrite Hv. simpl.
  unfold TaskModel.findByIdAndUpdate_set_status, findByIdAndUpdate.
  rewrite Hv, Ht. simpl. reflexivity.
Qed.

Lemma status_enum_nonempty s : s ∈ Task.status_enum → s ≠ "".
Proof.
  unfold Task.status_enum. rewrite !elem_of_cons, elem_of_nil.
  intros [->|[->|[->|[]]]]; done.
Qed.

Lemma lookup_set_Tasks m st : Tasks (set_Tasks m st) = m.
Proof. reflexivity. Qed.

(** C2: for an existing task and status values among Pending, In
    Progress and Completed, whatever the current status of the task,
    every status update is answered 200 and stores the supplied value:
    after any sequence of such updates the stored status is the last
    value set. The task is the one whose [_id] is the ObjectId that the
    text in the URL denotes. *)
Theorem updateTaskStatus_stores_last_value
    (requests : list (Request * Z)) (st : Store) (taskId : string) (t : Task.t) :
  ObjectId_isValid taskId = true →
  Tasks st !! ObjectId_cast taskId = Some t →
  Forall (λ r, params r.1 !! "taskId" = Some taskId ∧
               ∃ s, body r.1 !! "status" = Some s ∧ s ∈ Task.status_enum)
         requests →
  Forall (λ r, status r = 200) (serve taskController.updateTaskStatus requests st).1 ∧
  length (serve taskController.updateTaskStatus requests st).1 = length requests ∧
  Task.status <$>
    Tasks (serve taskController.updateTaskStatus requests st).2
      !! ObjectId_cast taskId =
    last (Task.status t :: ((λ r, default "" (body r.1 !! "status")) <$> requests)).
Proof.
  intros Hv Ht Hall. revert st t Ht.
  induction Hall as [|[req now] requests [Hid (s & Hs & Hin)] _ IH]; intros st t Ht.
  - simpl. rewrite Ht. by repeat split.
  - simpl.
    rewrite (updateTaskStatus_found req now st taskId s t)
      by eauto using status_enum_nonempty.
    set (t1 := Task.set_updatedAt now (Task.set_status s t)).
    set (st1 := set_Tasks _ st).
    assert (Ht1 : Tasks st1 !! ObjectId_cast taskId = Some t1).
    { unfold st1. simpl. apply lookup_insert_eq. }
    destruct (IH st1 t1 Ht1) as (Hok & Hlen & Hlast).
    destruct (serve taskController.updateTaskStatus requests st1)
      as [responses st'] eqn:Hserve.
    simpl in *. repeat split.
    + constructor; [reflexivity|exact Hok].
    + by rewrite Hlen.
    + rewrite Hlast, Hs. reflexivity.
Qed.

(** C7: [updateTaskStatus] answers 400 with a message, leaving the
    store as it was, when the task id or the status is missing or when
    the id is not a valid ObjectId; 404, leaving the store as it was,
    when no task has the ObjectId that the id denotes; and otherwise 200
    with the updated task document: the task found, with the status of
    the request and the time of the update, its other fields and its
    comments as they were, which is what is now stored. *)
Theorem updateTaskStatus_responses (req : Request) (now : Z) (st : Store) :
  (JS.truthy (params req !! "taskId") = false ∨
   JS.truthy (body req !! "status") = false →
   taskController.updateTaskStatus req now st =
     (mkResponse 400 (JMessage "Task ID and status are required"), st)) ∧
  (∀ taskId,
     params req !! "taskId" = Some taskId → taskId ≠ "" →
     JS.truthy (body req !! "status") = true →
     ObjectId_isValid taskId = false →
     taskController.updateTaskStatus req now st =
       (mkResponse 400 (JMessage "Invalid Task ID format"), st)) ∧
  (∀ taskId,
     params req !! "taskId" = Some taskId →
     JS.truthy (body req !! "status") = true →
     ObjectId_isValid taskId = true →
     Tasks st !! ObjectId_cast taskId = None →
     taskController.updateTaskStatus req now st =
       (mkResponse 404 (JMessage "Task not found"), st)) ∧
  (∀ taskId s t,
     params req !! "taskId" = Some taskId →
     body req !! "status" = Some s → s ≠ "" →
     ObjectId_isValid taskId = true →
     Tasks st !! ObjectId_cast taskId = Some t →
     ∃ updatedTask,
       (taskController.updateTaskStatus req now st).1 =
         mkResponse 200 (JMessageTask "Task status updated" updatedTask) ∧
       Tasks (taskController.updateTaskStatus req now st).2
         !! ObjectId_cast taskId = Some updatedTask ∧
       Task.status updatedTask = s ∧
       Task.updatedAt updatedTask = now ∧
       same_identity t updatedTask ∧
       Task.comments updatedTask = Task.comments t ∧
       ∀ id, id ≠ ObjectId_cast taskId →
             Tasks (taskController.updateTaskStatus req now st).2 !! id =
               Tasks st !! id).
Proof.
  split; [apply updateTaskStatus_missing|].
  split; [intros; by eapply updateTaskStatus_invalid|].
  split; [intros; by eapply updateTaskStatus_not_found|].
  intros taskId s t Hid Hs Hne Hv Ht.
  rewrite (updateTaskStatus_found req now st taskId s t) by done.
  eexists. split; [reflexivity|]. simpl.
  split; [apply lookup_insert_eq|].
  do 2 (split; [reflexivity|]). split; [by repeat split|].
  split; [reflexivity|].
  intros id Hother. by apply lookup_insert_ne.
Qed.

(** C10: [updateTaskStatus] does not check the supplied status against
    the enum of the schema: for an existing task and any status text
    that is not empty, the update is answered 200 and stores exactly
    that text, so that a text outside the enum leaves a task that the
    validators of the schema reject. *)
Theorem updateTaskStatus_no_enum_check
    (req : Request) (now : Z) (st : Store) (taskId s : string) (t : Task.t) :
  params req !! "taskId" = Some taskId →
  body req !! "status" = Some s →
  s ≠ "" →
  ObjectId_isValid taskId = true →
  Tasks st !! ObjectId_cast taskId = Some t →
  status (taskController.updateTaskStatus req now st).1 = 200 ∧
  ∃ t',
    Tasks (taskController.updateTaskStatus req now st).2 !! ObjectId_cast taskId =
      Some t' ∧
    Task.status t' = s ∧
    (s ∉ Task.status_enum → TaskModel.validate t' = false).
Proof.
  intros Hid Hs Hne Hv Ht.
  rewrite (updateTaskStatus_found req now st taskId s t) by done.
  split; [reflexivity|]. eexists. split; [apply lookup_insert_eq|].
  split; [reflexivity|].
  intros Hnot. unfold TaskModel.validate. simpl.
  rewrite (bool_decide_eq_false_2 _ Hnot).
  by rewrite !andb_false_r.
Qed.
End status_update.

Lemma updateTaskStatus_stores_last_value_witness :
  let requests :=
    [(Fixture.request [] [("taskId", Fixture.id1)] [] [("status", "Completed")], 2000);
     (Fixture.request [] [("taskId", Fixture.id1)] [] [("status", "Pending")], 3000);
     (Fixture.request [] [("taskId", Fixture.id1)] [] [("status", "In Progress")], 4000)] in
  let out :=
    serve (@taskController.updateTaskStatus Fixture.mongoose) requests Fixture.store1 in
  Forall (λ r, status r = 200) out.1 ∧
  length out.1 = 3%nat ∧
  Task.status <$> Tasks out.2 !! Fixture.id1 = Some "In Progress".
Proof.
  intros requests out.
  apply (@updateTaskStatus_stores_last_value Fixture.mongoose requests
           Fixture.store1 Fixture.id1 Fixture.task1).
  - reflexivity.
  - reflexivity.
  - repeat constructor; vm_compute; eexists; (split; [reflexivity|]);
      set_solver.
Defined.

Lemma updateTaskStatus_responses_witness :
  let upd := @taskController.updateTaskStatus Fixture.mongoose in
  let ID1 := "65F0A1B2C3D4E5F6A7B8C9D0" in
  upd (Fixture.request [] [("taskId", Fixture.id1)] [] []) 2000 Fixture.store1 =
    (mkResponse 400 (JMessage "Task ID and status are required"), Fixture.store1) ∧
  upd (Fixture.request [] [("taskId", "not-an-id")] [] [("status", "Completed")])
      2000 Fixture.store1 =
    (mkResponse 400 (JMessage "Invalid Task ID format"), Fixture.store1) ∧
  upd (Fixture.request [] [("taskId", "65f0a1b2c3d4e5f6a7b8c9ff")] []
         [("status", "Completed")]) 2000 Fixture.store1 =
    (mkResponse 404 (JMessage "Task not found"), Fixture.store1) ∧
  ∃ updatedTask,
    (upd (Fixture.request [] [("taskId", ID1)] [] [("status", "Completed")])
         2000 Fixture.store1).1 =
      mkResponse 200 (JMessageTask "Task status updated" updatedTask) ∧
    Tasks (upd (Fixture.request [] [("taskId", ID1)] [] [("status", "Completed")])
             2000 Fixture.store1).2 !! Fixture.id1 = Some updatedTask ∧
    Task.status updatedTask = "Completed" ∧
    Task.updatedAt updatedTask = 2000 ∧
    same_identity Fixture.task1 updatedTask ∧
    Task.comments updatedTask = Task.comments Fixture.task1.
Proof.
  intros upd ID1. split; [|split; [|split]].
  - apply (@updateTaskStatus_responses Fixture.mongoose). right. reflexivity.
  - apply (@updateTaskStatus_responses Fixture.mongoose) with (taskId := "not-an-id");
      [reflexivity|discriminate|reflexivity|reflexivity].
  - apply (@updateTaskStatus_responses Fixture.mongoose)
      with (taskId := "65f0a1b2c3d4e5f6a7b8c9ff"); reflexivity.
  - destruct (proj2 (proj2 (proj2
        (@updateTaskStatus_responses Fixture.mongoose
           (Fixture.request [] [("taskId", ID1)] [] [("status", "Completed")])
           2000 Fixture.store1))) ID1 "Completed" Fixture.task1)
      as (updatedTask & Hresponse & Hstored & Hstatus & Htime & Hsame & Hcomments & _);
      [reflexivity|reflexivity|discriminate|reflexivity|reflexivity|].
    exists updatedTask.
    split; [exact Hresponse|]. split; [exact Hstored|]. split; [exact Hstatus|].
    split; [exact Htime|]. split; [exact Hsame|exact Hcomments].
Defined.

Lemma updateTaskStatus_no_enum_check_witness :
  let out :=
    @taskController.updateTaskStatus Fixture.mongoose
      (Fixture.request [] [("taskId", Fixture.id1)] [] [("status", "Archived")])
      2000 Fixture.store1 in
  status out.1 = 200 ∧
  ∃ t', Tasks out.2 !! Fixture.id1 = Some t' ∧ Task.status t' = "Archived" ∧
        ("Archived" ∉ Task.status_enum → TaskModel.validate t' = false).
Proof.
  intros out.
  apply (@updateTaskStatus_no_enum_check Fixture.mongoose _ 2000 Fixture.store1
           Fixture.id1 "Archived" Fixture.task1);
    [reflexivity|reflexivity|discriminate|reflexivity|reflexivity].
Defined.

Example archived_not_in_enum : "Archived" ∉ Task.status_enum.
Proof.
  unfold Task.status_enum. rewrite !elem_of_cons, elem_of_nil.
  by intros [?|[?|[?|[]]]].
Qed.

(** ** Authentication *)

Section authentication.
Context `{Mongoose} `{Jwt}.

(** C5: a request to a route guarded by [authenticateUser] whose
    credential is absent, or is rejected by the verification (malformed,
    bad signature, expired), or verifies but decodes to an identifier
    that matches no stored employee (none has the ObjectId it denotes),
    is answered 401 by the middleware;
    the handler is not run, whatever it is, and the store is the one
    before the request. *)
Theorem authenticateUser_rejects
    (handler : Request → Z → Store → Response * Store)
    (req : Request) (now : Z) (st : Store) :
  JS.truthy (authenticateUser.token_of req) = false ∨
  (∃ e, jwt_verify (default "" (authenticateUser.token_of req))
          authenticateUser.JWT_SECRET = inl e) ∨
  (∃ id, jwt_verify (default "" (authenticateUser.token_of req))
           authenticateUser.JWT_SECRET = inr id ∧
         ∀ i, id = Some i → Employees st !! ObjectId_cast i = None) →
  ∃ error,
    authenticateUser.authenticateUser req st = Halt (mkResponse 401 (JError error)) ∧
    authenticateUser.guarded handler req now st = (mkResponse 401 (JError error), st).
Proof.
  intros Hbad.
  cut (∃ error, authenticateUser.authenticateUser req st =
                  Halt (mkResponse 401 (JError error))).
  { intros [error Herr]. exists error. split; [done|].
    unfold authenticateUser.guarded. by rewrite Herr. }
  unfold authenticateUser.authenticateUser, authenticateUser.unauthorized.
  destruct (JS.truthy (authenticateUser.token_of req)) eqn:Htok; simpl;
    [|by eexists].
  destruct Hbad as [?|[[e He]|(id & Hid & Hnone)]]; [done| |].
  - rewrite He. by eexists.
  - rewrite Hid. unfold findById.
    destruct id as [i|]; [|by eexists].
    destruct (ObjectId_isValid i); [|by eexists].
    rewrite (Hnone i eq_refl). by eexists.
Qed.
End authentication.

Lemma authenticateUser_rejects_witness :
  let handler : Request → Z → Store → Response * Store :=
    λ _ _ st, (mkResponse 200 (JMessage "created"), set_Tasks ∅ st) in
  let guarded :=
    @authenticateUser.guarded Fixture.mongoose Fixture.jwt handler in
  (∃ error,
     @authenticateUser.authenticateUser Fixture.mongoose Fixture.jwt
       (Fixture.request [] [] [] []) Fixture.store1 =
       Halt (mkResponse 401 (JError error)) ∧
     guarded (Fixture.request [] [] [] []) 2000 Fixture.store1 =
       (mkResponse 401 (JError error), Fixture.store1)) ∧
  (∃ error,
     @authenticateUser.authenticateUser Fixture.mongoose Fixture.jwt
       (Fixture.request [("authorization", "Bearer expired.token")] [] [] [])
       Fixture.store1 = Halt (mkResponse 401 (JError error)) ∧
     guarded (Fixture.request [("authorization", "Bearer expired.token")] [] [] [])
       2000 Fixture.store1 = (mkResponse 401 (JError error), Fixture.store1)) ∧
  (∃ error,
     @authenticateUser.authenticateUser Fixture.mongoose Fixture.jwt
       (Fixture.request [("authorization", "Bearer valid.token")] [] [] [])
       Fixture.store1 = Halt (mkResponse 401 (JError error)) ∧
     guarded (Fixture.request [("authorization", "Bearer valid.token")] [] [] [])
       2000 Fixture.store1 = (mkResponse 401 (JError error), Fixture.store1)).
Proof.
  intros handler guarded. split; [|split].
  - apply (@authenticateUser_rejects Fixture.mongoose Fixture.jwt handler).
    left. reflexivity.
  - apply (@authenticateUser_rejects Fixture.mongoose Fixture.jwt handler).
    right. left. exists TokenExpiredError. reflexivity.
  - apply (@authenticateUser_rejects Fixture.mongoose Fixture.jwt handler).
    right. right. exists (Some "65f0a1b2c3d4e5f601234567").
    split; [reflexivity|]. intros i _. reflexivity.
Defined.

(** ** The compiled report *)

Section report.
Import ReportsHome.

(** The key [year-eventType] determines the year and the event type:
    the decimal text of the year has no dash. *)
Lemma pretty_N_go_no_dash x s : no_dash s = true → no_dash (pretty_N_go x s) = true.
Proof.
  revert s. induction (N.lt_wf_0 x) as [x _ IH]; intros s Hs.
  assert (x = 0 ∨ 0 < x)%N as [->|?] by lia.
  - by rewrite pretty_N_go_0.
  - rewrite pretty_N_go_step by done. apply IH.
    { by apply N.div_lt. }
    simpl. rewrite Hs. unfold pretty_N_char. by repeat case_match.
Qed.

Lemma pretty_N_no_dash (x : N) : no_dash (pretty x) = true.
Proof.
  unfold pretty, pretty_N. case_decide; [done|].
  by apply pretty_N_go_no_dash.
Qed.

Lemma append_dash_inj s1 s2 t1 t2 :
  no_dash s1 = true → no_dash s2 = true →
  s1 +:+ "-" +:+ t1 = s2 +:+ "-" +:+ t2 → s1 = s2 ∧ t1 = t2.
Proof.
  revert s2. induction s1 as [|c s1 IH]; intros [|c' s2]; cbn.
  - intros _ _ Heq. by simplify_eq.
  - intros _ Hc Heq. by simplify_eq.
  - intros Hc _ Heq. by simplify_eq.
  - intros [_ H1]%andb_prop [_ H2]%andb_prop Heq. simplify_eq.
    match goal with
    | Ht : _ +:+ _ = _ +:+ _ |- _ => destruct (IH s2 H1 H2 Ht) as [-> ->]
    end. done.
Qed.

Lemma key_of_inj y ty y' ty' :
  key_of y ty = key_of y' ty' → y = y' ∧ ty = ty'.
Proof.
  unfold key_of. intros Heq.
  apply append_dash_inj in Heq as [Hy ->]; auto using pretty_N_no_dash.
  split; [|done]. by apply (inj pretty).
Qed.

(** The accumulator as a map. *)
Lemma get_set_eq k r acc : get k (set k r acc) = Some r.
Proof.
  induction acc as [|[k' r'] acc IH]; simpl.
  - by rewrite String.eqb_refl.
  - destruct (String.eqb_spec k' k) as [->|Hne]; simpl.
    + by rewrite String.eqb_refl.
    + by destruct (String.eqb_spec k' k).
Qed.

Lemma get_set_ne k k' r acc : k ≠ k' → get k' (set k r acc) = get k' acc.
Proof.
  intros Hne. induction acc as [|[k0 r0] acc IH]; simpl.
  - by destruct (String.eqb_spec k k').
  - destruct (String.eqb_spec k0 k) as [->|Hne0]; simpl.
    + by destruct (String.eqb_spec k k').
    + by rewrite IH.
Qed.

Lemma get_None k acc : get k acc = None ↔ k ∉ acc.*1.
Proof.
  induction acc as [|[k' r'] acc IH]; simpl.
  - split; [intros _; apply not_elem_of_nil|done].
  - rewrite not_elem_of_cons. destruct (String.eqb_spec k' k) as [->|Hne].
    + split; [done|]. by intros [[] _].
    + rewrite IH. split; [by split|by intros [_ ?]].
Qed.

Lemma get_elem_of k r acc : NoDup acc.*1 → (k, r) ∈ acc → get k acc = Some r.
Proof.
  induction acc as [|[k' r'] acc IH]; simpl.
  - intros _ []%elem_of_nil.
  - rewrite NoDup_cons. intros [Hnotin Hnd] [Heq|Hin]%elem_of_cons.
    + simplify_eq. by rewrite String.eqb_refl.
    + destruct (String.eqb_spec k' k) as [->|Hne]; [|by apply IH].
      destruct Hnotin. apply list_elem_of_fmap. by exists (k, r).
Qed.

Lemma get_Some_elem_of k r acc : get k acc = Some r → (k, r) ∈ acc.
Proof.
  induction acc as [|[k' r'] acc IH]; simpl; [done|].
  destruct (String.eqb_spec k' k) as [->|Hne].
  - intros [= ->]. left.
  - intros Hget. right. by apply IH.
Qed.

Lemma set_keys k r acc :
  (set k r acc).*1 =
    match get k acc with Some _ => acc.*1 | None => acc.*1 ++ [k] end.
Proof.
  induction acc as [|[k' r'] acc IH]; csimpl; [done|].
  destruct (String.eqb_spec k' k) as [->|Hne]; csimpl; [done|].
  rewrite IH. by destruct (get k acc).
Qed.

Lemma step_keys_NoDup acc cur : NoDup acc.*1 → NoDup (step acc cur).*1.
Proof.
  intros Hnd. unfold step.
  set (key := key_of (year cur) (eventType cur)).
  destruct (get key acc) as [r|] eqn:Hget.
  - rewrite Hget, set_keys, Hget. done.
  - rewrite get_set_eq, set_keys, get_set_eq, set_keys, Hget.
    apply NoDup_app. split; [done|]. split.
    + intros x Hx Hx'. apply list_elem_of_singleton in Hx' as ->.
      by apply get_None in Hget.
    + apply NoDup_singleton.
Qed.

Lemma aggregatedData_snoc data cur :
  aggregatedData (data ++ [cur]) = step (aggregatedData data) cur.
Proof. unfold aggregatedData. by rewrite fold_left_app. Qed.

Lemma aggregatedData_keys_NoDup data : NoDup (aggregatedData data).*1.
Proof.
  induction data as [|cur data IH] using rev_ind.
  - apply NoDup_nil_2.
  - rewrite aggregatedData_snoc. by apply step_keys_NoDup.
Qed.

Lemma sum_budgets_snoc l e :
  sum_budgets (l ++ [e]) =
    (sum_budgets l + JS.float_or (totalBudget e) 0)%float.
Proof. unfold sum_budgets. by rewrite fold_left_app. Qed.

Lemma names_of_app l1 l2 : names_of (l1 ++ l2) = names_of l1 ++ names_of l2.
Proof. unfold names_of. apply bind_app. Qed.

(** The aggregation refines its specification: under each key, the row
    of the group of entries with this key. *)
Lemma aggregatedData_get data key :
  get key (aggregatedData data) =
    match keyed key data with
    | [] => None
    | first :: _ => Some (row_of_group first (keyed key data))
    end.
Proof.
  induction data as [|cur data IH] using rev_ind; [done|].
  rewrite aggregatedData_snoc. unfold keyed in *. rewrite filter_app.
  set (acc := aggregatedData data) in *. unfold step.
  set (k := key_of (year cur) (eventType cur)).
  destruct (decide (k = key)) as [<-|Hne].
  - rewrite filter_cons_True, filter_nil by done.
    destruct (filter _ data) as [|first g] eqn:Hg.
    + rewrite IH. cbv zeta iota. rewrite !get_set_eq. simpl. f_equal.
      unfold row_of_group, names_of, sum_budgets. simpl.
      f_equal. by destruct (JS.truthy (eventName cur)).
    + rewrite IH. cbv zeta iota. rewrite IH, get_set_eq. f_equal.
      unfold row_of_group. rewrite names_of_app, sum_budgets_snoc, length_app.
      unfold names_of at 2. simpl.
      f_equal; [lia|].
      destruct (JS.truthy (eventName cur)); by rewrite ?app_nil_r.
  - rewrite filter_cons_False, filter_nil, app_nil_r by done.
    rewrite <-IH.
    destruct (get k acc) as [r|] eqn:Hget.
    + cbv zeta iota. by rewrite Hget, get_set_ne.
    + cbv zeta iota. by rewrite get_set_eq, !get_set_ne.
Qed.

Lemma keyed_group first data :
  keyed (key_of (year first) (eventType first)) data =
    group_of (year first) (eventType first) data.
Proof.
  unfold keyed, group_of. apply list_filter_iff. intros e. split.
  - intros Heq. by apply key_of_inj in Heq.
  - by intros [-> ->].
Qed.

(** Every entry of the accumulator is the row of the group of its key. *)
Lemma aggregatedData_elem_of data key r :
  (key, r) ∈ aggregatedData data →
  ∃ first,
    first ∈ data ∧ key = key_of (year first) (eventType first) ∧
    r = row_of_group first (group_of (year first) (eventType first) data).
Proof.
  intros Hin. apply get_elem_of in Hin; [|apply aggregatedData_keys_NoDup].
  rewrite aggregatedData_get in Hin.
  destruct (keyed key data) as [|first g] eqn:Hg; [done|].
  assert (first ∈ keyed key data) as Hfirst by (rewrite Hg; left).
  apply list_elem_of_filter in Hfirst as [Hkey Hfirst].
  exists first. split; [done|]. split; [done|].
  rewrite <-keyed_group, Hkey, Hg. by simplify_eq.
Qed.

Lemma group_of_elem_of e data :
  e ∈ data → e ∈ group_of (year e) (eventType e) data.
Proof. intros He. apply list_elem_of_filter. done. Qed.

(** C3: the compiled report groups the entries by (year, event type):
    each row counts the entries with its year and event type and sums
    their budgets (as JavaScript does: doubles added one after the other
    in the order of the data, a budget that is not a number counting for
    0), no two rows have the same year and event type, and every entry
    is counted in a row. The two firm-wide events of 2024 with budgets
    1000 and 500 give the single row of count 2 and budget 1500. *)
Theorem compiled_report_groups (data : list Entry) :
  (∀ r, r ∈ finalData data →
     group_of (row_year r) (row_eventType r) data ≠ [] ∧
     row_eventCount r =
       Z.of_nat (length (group_of (row_year r) (row_eventType r) data)) ∧
     row_totalBudget r =
       sum_budgets (group_of (row_year r) (row_eventType r) data)) ∧
  NoDup ((λ r, (row_year r, row_eventType r)) <$> finalData data) ∧
  (∀ e, e ∈ data →
     ∃ r, r ∈ finalData data ∧
          row_year r = year e ∧ row_eventType r = eventType e) ∧
  finalData
    [ {| year := 2024; eventType := "firm-wide"; totalBudget := 1000%float;
         team := None; eventName := None |};
      {| year := 2024; eventType := "firm-wide"; totalBudget := 500%float;
         team := None; eventName := None |} ] =
    [ {| row_year := 2024; row_team := "N/A"; row_eventType := "firm-wide";
         row_eventCount := 2; row_eventNames := [];
         row_totalBudget := 1500%float |} ].
Proof.
  split; [|split; [|split]].
  - intros r Hr. unfold finalData in Hr.
    apply list_elem_of_fmap in Hr as ([key r'] & -> & Hin).
    apply aggregatedData_elem_of in Hin as (first & Hfirst & _ & ->). simpl.
    split; [|done].
    intros Hnil. apply group_of_elem_of in Hfirst. rewrite Hnil in Hfirst.
    by apply elem_of_nil in Hfirst.
  - unfold finalData.
    apply (NoDup_fmap_1 (λ p, key_of p.1 p.2)).
    rewrite <-!list_fmap_compose.
    erewrite list_fmap_ext; [apply (aggregatedData_keys_NoDup data)|].
    intros i [key r] Hi. apply list_elem_of_lookup_2 in Hi.
    apply aggregatedData_elem_of in Hi as (first & _ & -> & ->). done.
  - intros e He.
    pose proof (aggregatedData_get data (key_of (year e) (eventType e))) as Hget.
    rewrite keyed_group in Hget.
    destruct (group_of (year e) (eventType e) data) as [|first g] eqn:Hg.
    { apply group_of_elem_of in He. rewrite Hg in He. by apply elem_of_nil in He. }
    assert (first ∈ group_of (year e) (eventType e) data) as Hfirst
      by (rewrite Hg; left).
    apply list_elem_of_filter in Hfirst as [[Hy Hty] _].
    apply get_Some_elem_of in Hget.
    eexists. split.
    + unfold finalData. apply list_elem_of_fmap. eexists (_, _). split; [|exact Hget].
      reflexivity.
    + done.
  - vm_compute. reflexivity.
Qed.
End report.

(** ** Comments *)

Section comments.
Context `{Mongoose}.

Lemma validate_set_updatedAt now x :
  TaskModel.validate (Task.set_updatedAt now x) = TaskModel.validate x.
Proof. reflexivity. Qed.

Lemma validate_push_comment x c :
  TaskModel.validate x = true →
  TaskModel.comment_valid c = true →
  TaskModel.validate (Task.set_comments (Task.comments x ++ [c]) x) = true.
Proof.
  unfold TaskModel.validate. simpl. intros Hx Hc.
  apply andb_prop in Hx as [Hx Hcs]. rewrite Hx. simpl.
  rewrite forallb_app, Hcs. simpl. by rewrite Hc.
Qed.

Lemma comment_valid_mk author message now :
  author ≠ "" → message ≠ "" →
  TaskModel.comment_valid (Comment.mk author message now) = true.
Proof.
  intros Ha Hm. unfold TaskModel.comment_valid, TaskModel.required. simpl.
  destruct (String.eqb_spec author ""), (String.eqb_spec message ""); done.
Qed.

(** One append, at either endpoint, on an existing task that satisfies
    the schema. *)
Lemma addComment_found via req now st taskId x author message :
  ObjectId_isValid taskId = true →
  Tasks st !! ObjectId_cast taskId = Some x →
  Task._id x = ObjectId_cast taskId →
  TaskModel.validate x = true →
  carries via req taskId author message →
  author ≠ "" → message ≠ "" →
  addComment via req now st =
    (mkResponse 201
       (JMessageTask "Comment added successfully"
          (Task.set_updatedAt now
             (Task.set_comments
                (Task.comments x ++ [Comment.mk author message now]) x))),
     set_Tasks
       (<[ObjectId_cast taskId :=
            Task.set_updatedAt now
              (Task.set_comments
                 (Task.comments x ++ [Comment.mk author message now]) x)]>
          (Tasks st)) st).
Proof.
  intros Hv Hx Hid Hval Hreq Ha Hm.
  pose proof (validate_push_comment x (Comment.mk author message now) Hval
                (comment_valid_mk author message now Ha Hm)) as Hval'.
  destruct via; simpl in *; destruct Hreq as (Hp & Hau & Hmsg).
  - unfold taskController.addCommentToTask_Assignee.
    rewrite Hp, Hau, Hmsg, !truthy_Some by done. simpl. rewrite Hv. simpl.
    rewrite Hx. unfold TaskModel.save. simpl.
    rewrite Hval'. by rewrite Hid.
  - unfold createdEventController.addCommentToTask.
    rewrite Hp, Hau, Hmsg, !truthy_Some by done. simpl.
    rewrite Hv, Hx. unfold TaskModel.save. simpl.
    rewrite Hval'. by rewrite Hid.
Qed.

(** C4, as the code has it: on a task that satisfies the schema and has
    no comment, appending a first comment and then a second one, each
    through either comment endpoint, leaves the task with exactly these
    two comments in the order of insertion, each an (author, message,
    timestamp) record stamped with the clock reading of its call, so that
    the timestamps do not decrease exactly when the clock did not go back
    between the two calls; each call answers with the whole updated task
    document, which is the one stored. *)
Theorem comments_appended_in_order
    (via1 via2 : CommentEndpoint) (req1 req2 : Request) (now1 now2 : Z)
    (st : Store) (taskId : string) (x : Task.t) (a1 m1 a2 m2 : string) :
  ObjectId_isValid taskId = true →
  Tasks st !! ObjectId_cast taskId = Some x →
  Task._id x = ObjectId_cast taskId →
  TaskModel.validate x = true →
  Task.comments x = [] →
  carries via1 req1 taskId a1 m1 → a1 ≠ "" → m1 ≠ "" →
  carries via2 req2 taskId a2 m2 → a2 ≠ "" → m2 ≠ "" →
  let c1 := Comment.mk a1 m1 now1 in
  let c2 := Comment.mk a2 m2 now2 in
  let out1 := addComment via1 req1 now1 st in
  let out2 := addComment via2 req2 now2 out1.2 in
  ∃ x1 x2,
    out1.1 = mkResponse 201 (JMessageTask "Comment added successfully" x1) ∧
    Tasks out1.2 !! ObjectId_cast taskId = Some x1 ∧
    x1 = Task.set_updatedAt now1 (Task.set_comments [c1] x) ∧
    out2.1 = mkResponse 201 (JMessageTask "Comment added successfully" x2) ∧
    Tasks out2.2 !! ObjectId_cast taskId = Some x2 ∧
    x2 = Task.set_updatedAt now2 (Task.set_comments [c1; c2] x) ∧
    Task.comments x2 = [c1; c2] ∧
    (Sorted Z.le (Comment.timestamp <$> Task.comments x2) ↔ now1 ≤ now2).
Proof.
  intros Hv Hx Hid Hval Hnil Hreq1 Ha1 Hm1 Hreq2 Ha2 Hm2 c1 c2 out1 out2.
  set (x1 := Task.set_updatedAt now1 (Task.set_comments [c1] x)).
  assert (Hout1 : out1 =
    (mkResponse 201 (JMessageTask "Comment added successfully" x1),
     set_Tasks (<[ObjectId_cast taskId := x1]> (Tasks st)) st)).
  { unfold out1.
    rewrite (addComment_found via1 req1 now1 st taskId x a1 m1) by done.
    by rewrite Hnil. }
  assert (Hx1 : Tasks out1.2 !! ObjectId_cast taskId = Some x1).
  { rewrite Hout1. simpl. apply lookup_insert_eq. }
  assert (Hval1 : TaskModel.validate x1 = true).
  { unfold x1. rewrite validate_set_updatedAt.
    pose proof (validate_push_comment x c1 Hval
                  (comment_valid_mk a1 m1 now1 Ha1 Hm1)) as Hpush.
    by rewrite Hnil in Hpush. }
  set (x2 := Task.set_updatedAt now2 (Task.set_comments [c1; c2] x)).
  assert (Hout2 : out2 =
    (mkResponse 201 (JMessageTask "Comment added successfully" x2),
     set_Tasks (<[ObjectId_cast taskId := x2]> (Tasks out1.2)) out1.2)).
  { unfold out2.
    by rewrite (addComment_found via2 req2 now2 out1.2 taskId x1 a2 m2). }
  exists x1, x2. rewrite Hout2. rewrite Hout1 at 1. simpl.
  split; [done|]. split; [done|]. split; [done|]. split; [done|].
  split; [apply lookup_insert_eq|]. split; [done|]. split; [done|].
  split.
  - intros Hsorted. apply Sorted_inv in Hsorted as [_ Hhd].
    by apply HdRel_inv in Hhd.
  - intros Hclock. repeat constructor. simpl. done.
Qed.
End comments.

Lemma comments_appended_in_order_witness :
  let req1 :=
    Fixture.request [("user-email", "dev@firm.com")] [("taskId", Fixture.id1)] []
      [("message", "Started")] in
  let req2 :=
    Fixture.request [] [("id", Fixture.id1)] []
      [("author", "manager@firm.com"); ("message", "Thanks")] in
  let c1 := Comment.mk "dev@firm.com" "Started" 2000 in
  let c2 := Comment.mk "manager@firm.com" "Thanks" 3000 in
  let out1 := @addComment Fixture.mongoose AssigneeComments req1 2000 Fixture.store1 in
  let out2 := @addComment Fixture.mongoose CreatorComments req2 3000 out1.2 in
  ∃ x1 x2,
    out1.1 = mkResponse 201 (JMessageTask "Comment added successfully" x1) ∧
    Tasks out1.2 !! Fixture.id1 = Some x1 ∧
    x1 = Task.set_updatedAt 2000 (Task.set_comments [c1] Fixture.task1) ∧
    out2.1 = mkResponse 201 (JMessageTask "Comment added successfully" x2) ∧
    Tasks out2.2 !! Fixture.id1 = Some x2 ∧
    x2 = Task.set_updatedAt 3000 (Task.set_comments [c1; c2] Fixture.task1) ∧
    Task.comments x2 = [c1; c2] ∧
    (Sorted Z.le (Comment.timestamp <$> Task.comments x2) ↔ 2000 ≤ 3000).
Proof.
  intros req1 req2 c1 c2.
  apply (@comments_appended_in_order Fixture.mongoose AssigneeComments
           CreatorComments req1 req2 2000 3000 Fixture.store1 Fixture.id1
           Fixture.task1 "dev@firm.com" "Started" "manager@firm.com" "Thanks");
    try reflexivity; try discriminate; try (repeat split; reflexivity).
Defined.

(** The claim without these conditions fails. When the clock goes back
    between the two calls, both comments are stored, in the order of
    insertion, and their timestamps decrease. And on a task whose status
    the update endpoint left outside the values of the schema, a comment
    is refused: the whole document is validated when it is saved. *)
Lemma comments_appended_in_order_counterexample :
  let req1 :=
    Fixture.request [("user-email", "dev@firm.com")] [("taskId", Fixture.id1)] []
      [("message", "Started")] in
  let req2 :=
    Fixture.request [] [("id", Fixture.id1)] []
      [("author", "manager@firm.com"); ("message", "Thanks")] in
  let archive :=
    Fixture.request [] [("taskId", Fixture.id1)] [] [("status", "Archived")] in
  (let out1 := @addComment Fixture.mongoose AssigneeComments req1 3000 Fixture.store1 in
   let out2 := @addComment Fixture.mongoose CreatorComments req2 2000 out1.2 in
   status out1.1 = 201 ∧ status out2.1 = 201 ∧
   (fmap Comment.timestamp ∘ Task.comments) <$> Tasks out2.2 !! Fixture.id1 =
     Some [3000; 2000] ∧
   ¬ Sorted Z.le [3000; 2000]) ∧
  (let archived :=
     @taskController.updateTaskStatus Fixture.mongoose archive 1500 Fixture.store1 in
   let out := @addComment Fixture.mongoose AssigneeComments req1 2000 archived.2 in
   status archived.1 = 200 ∧
   Task.comments <$> Tasks archived.2 !! Fixture.id1 = Some [] ∧
   status out.1 = 500 ∧
   out.2 = archived.2).
Proof.
  intros req1 req2 archive. split.
  - split; [reflexivity|]. split; [reflexivity|]. split; [reflexivity|].
    intros Hsorted. apply Sorted_inv in Hsorted as [_ Hhd].
    apply HdRel_inv in Hhd. lia.
  - repeat split; reflexivity.
Qed.

(** ** Page numbers *)

Lemma digit_of_pretty_char d :
  (d < 10)%N → JS.digit_of 10 (pretty_N_char d) = Some (Z.of_N d).
Proof.
  intros Hd.
  assert (d = 0 ∨ d = 1 ∨ d = 2 ∨ d = 3 ∨ d = 4 ∨ d = 5 ∨ d = 6 ∨ d = 7 ∨
          d = 8 ∨ d = 9)%N as Hcases by lia.
  repeat (destruct Hcases as [->|Hcases]; [reflexivity|]). by subst.
Qed.

Lemma all_digits_pretty_char d s :
  all_digits s = true → all_digits (String (pretty_N_char d) s) = true.
Proof.
  intros Hs. cbn [all_digits]. rewrite Hs.
  unfold pretty_N_char. repeat case_match; reflexivity.
Qed.

Lemma pretty_N_go_all_digits x s :
  all_digits s = true → all_digits (pretty_N_go x s) = true.
Proof.
  revert s. induction (N.lt_wf_0 x) as [x _ IH]; intros s Hs.
  assert (x = 0 ∨ 0 < x)%N as [->|?] by lia.
  - by rewrite pretty_N_go_0.
  - rewrite pretty_N_go_step by done. apply IH.
    { by apply N.div_lt. }
    by apply all_digits_pretty_char.
Qed.

Lemma pretty_N_all_digits (x : N) : all_digits (pretty x) = true.
Proof.
  unfold pretty, pretty_N. case_decide; [done|].
  by apply pretty_N_go_all_digits.
Qed.

(** Reading back the digits that [pretty] writes. *)
Lemma digits_prefix_pretty_go x s :
  (0 < x)%N →
  JS.digits_prefix 10 None (pretty_N_go x s) =
    JS.digits_prefix 10 (Some (Z.of_N x)) s.
Proof.
  revert s. induction (N.lt_wf_0 x) as [x _ IH]; intros s Hx.
  rewrite pretty_N_go_step by done.
  assert (x `mod` 10 < 10)%N as Hmod by (apply N.mod_lt; lia).
  destruct (decide (x `div` 10 = 0)%N) as [Hdiv|Hdiv].
  - rewrite Hdiv, pretty_N_go_0. simpl.
    rewrite (digit_of_pretty_char _ Hmod). cbn [default JS.digits_prefix].
    do 2 f_equal. pose proof (N.div_mod x 10). lia.
  - rewrite IH; [|apply N.div_lt; lia|by apply N.neq_0_lt_0]. simpl.
    rewrite (digit_of_pretty_char _ Hmod). cbn [default JS.digits_prefix].
    do 2 f_equal. pose proof (N.div_mod x 10). lia.
Qed.

(** [parseInt] on a text of digits reads all of it in base ten. *)
Lemma parseInt_all_digits s :
  s ≠ "" → all_digits s = true →
  JS.parseInt (Some s) = JS.to_double <$> JS.digits_prefix 10 None s.
Proof.
  destruct s as [|c s]; [done|]. intros _ Hs. simpl in Hs.
  apply andb_prop in Hs as [Hc Hs].
  assert (JS.parseInt (Some (String c s)) =
          (λ n, JS.to_double (1 * n)) <$> JS.digits_prefix 10 None (String c s))
    as ->.
  { destruct c as [[] [] [] [] [] [] [] []]; try discriminate Hc;
      try reflexivity.
    destruct s as [|c' s]; [reflexivity|]. simpl in Hs.
    apply andb_prop in Hs as [Hc' _].
    destruct c' as [[] [] [] [] [] [] [] []]; try discriminate Hc';
      reflexivity. }
  destruct (JS.digits_prefix 10 None (String c s)) as [n|]; [|done].
  change (Some (JS.to_double (1 * n)) = Some (JS.to_double n)).
  by rewrite Z.mul_1_l.
Qed.

Lemma pretty_N_go_nonempty x s : s ≠ "" → pretty_N_go x s ≠ "".
Proof.
  revert s. induction (N.lt_wf_0 x) as [x _ IH]; intros s Hs.
  assert (x = 0 ∨ 0 < x)%N as [->|?] by lia.
  - by rewrite pretty_N_go_0.
  - rewrite pretty_N_go_step by done. apply IH; [by apply N.div_lt|done].
Qed.

Lemma pretty_N_nonempty (n : N) : pretty n ≠ "".
Proof.
  unfold pretty, pretty_N. case_decide; [done|].
  rewrite pretty_N_go_step by lia. by apply pretty_N_go_nonempty.
Qed.

(** The integers below [2 ^ 53] in absolute value are doubles. *)
Lemma to_double_small n : Z.abs n < 2 ^ 53 → JS.to_double n = n.
Proof.
  intros Hn. unfold JS.to_double.
  destruct (decide (n = 0)) as [->|Hne]; [done|].
  assert (Z.log2 (Z.abs n) < 53) by (apply Z.log2_lt_pow2; lia).
  destruct (Z.leb_spec (Z.log2 (Z.abs n) - 52) 0); [done|lia].
Qed.

(** A page number written in decimal is read back as it is. *)
Lemma parseInt_pretty (n : N) :
  (n < 2 ^ 53)%N → JS.parseInt (Some (pretty n)) = Some (Z.of_N n).
Proof.
  intros Hn.
  rewrite parseInt_all_digits;
    [|by apply pretty_N_nonempty|by apply pretty_N_all_digits].
  unfold pretty, pretty_N. case_decide as H0; [by subst|].
  rewrite digits_prefix_pretty_go by lia. simpl. f_equal.
  apply to_double_small. lia.
Qed.

Lemma num_or_nonzero p d : p ≠ 0 → JS.num_or (Some p) d = p.
Proof. by destruct p. Qed.

(** ** Task lists *)

Section task_lists.
Context `{Mongoose}.

(** The order [{ deadline: 1, createdAt: 1 }] is total. *)
#[local] Instance by_deadline_createdAt_total :
  Total (λ x y, Is_true (by_deadline_createdAt x y)).
Proof.
  intros x y. unfold by_deadline_createdAt, date_compare.
  destruct (Task.deadline x) as [a|], (Task.deadline y) as [b|]; simpl;
    try (by left); try (by right).
  - destruct (Z.compare_spec a b), (Z.compare_spec b a); try lia;
      try (by left); try (by right).
    destruct (Z.leb_spec (Task.createdAt x) (Task.createdAt y)); [by left|].
    right. apply Is_true_true, Z.leb_le. lia.
  - destruct (Z.leb_spec (Task.createdAt x) (Task.createdAt y)); [by left|].
    right. apply Is_true_true, Z.leb_le. lia.
Qed.

(** The comparison of the sort specification is the order by deadline,
    then by creation time. *)
Lemma by_deadline_createdAt_spec x y :
  Is_true (by_deadline_createdAt x y) ↔ deadline_then_createdAt x y.
Proof.
  unfold by_deadline_createdAt, deadline_then_createdAt, date_compare.
  destruct (Task.deadline x) as [a|], (Task.deadline y) as [b|]; simpl;
    try tauto.
  - destruct (Z.compare_spec a b).
    + rewrite Is_true_true, Z.leb_le. split; [by right|]. intros [?|[_ ?]]; [lia|done].
    + split; [by left|done].
    + split; [done|]. intros [?|[? _]]; lia.
  - by rewrite Is_true_true, Z.leb_le.
Qed.

Lemma Sorted_iff {A} (R1 R2 : A → A → Prop) (l : list A) :
  (∀ x y, R1 x y ↔ R2 x y) → Sorted R1 l → Sorted R2 l.
Proof.
  intros HR. induction 1 as [|x l _ IH Hhd]; constructor; [done|].
  destruct Hhd; constructor. by apply HR.
Qed.

Lemma elem_of_matching {A} (coll : gmap string A) (p : A → bool) (d : A) :
  d ∈ matching coll p ↔ p d = true ∧ ∃ id, coll !! id = Some d.
Proof.
  unfold matching. rewrite list_elem_of_filter, Is_true_true.
  apply and_iff_compat_l. rewrite list_elem_of_fmap. split.
  - intros ([id d'] & -> & Hin). exists id. by apply elem_of_map_to_list.
  - intros [id Hid]. exists (id, d). split; [done|]. by apply elem_of_map_to_list.
Qed.

Lemma matching_nil {A} (coll : gmap string A) (p : A → bool) :
  (∀ id d, coll !! id = Some d → p d = false) → matching coll p = [].
Proof.
  intros Hnone. apply elem_of_nil_inv. intros d [Hp [id Hid]]%elem_of_matching.
  rewrite (Hnone id d Hid) in Hp. done.
Qed.

(** An equality filter on a text field selects the documents whose
    field is that text. *)
Lemma matching_eqb {A} (coll : gmap string A) (field : A → string) (v : string) :
  matching coll (λ d, String.eqb (field d) v) =
    filter (λ d, field d = v) (map_to_list coll).*2.
Proof.
  unfold matching. apply list_filter_iff. intros d.
  by rewrite Is_true_true, String.eqb_eq.
Qed.

(** What the server meets for a query is what matches it. *)
Lemma elem_of_scan {A} (q : Query A) (d : A) :
  d ∈ scan q ↔ q_filter q d = true ∧ ∃ id, q_coll q !! id = Some d.
Proof. by rewrite scan_Permutation, elem_of_matching. Qed.

Lemma scan_nil {A} (q : Query A) :
  (∀ id d, q_coll q !! id = Some d → q_filter q d = false) → scan q = [].
Proof.
  intros Hnone. apply Permutation_nil_r.
  by rewrite scan_Permutation, matching_nil.
Qed.

Lemma insert_by_Permutation {A} (leb : A → A → bool) (x : A) (l : list A) :
  insert_by leb x l ≡ₚ x :: l.
Proof.
  induction l as [|y l IH]; simpl; [done|].
  destruct (leb x y); [done|]. rewrite IH. apply Permutation_swap.
Qed.

Lemma sorted_by_Permutation {A} (leb : option (A → A → bool)) (l : list A) :
  sorted_by leb l ≡ₚ l.
Proof.
  destruct leb as [f|]; [|done]. simpl.
  induction l as [|x l IH]; simpl; [done|].
  by rewrite insert_by_Permutation, IH.
Qed.

Lemma insert_by_Sorted {A} (leb : A → A → bool) (x : A) (l : list A) :
  Total (λ x y, Is_true (leb x y)) →
  Sorted (λ x y, Is_true (leb x y)) l →
  Sorted (λ x y, Is_true (leb x y)) (insert_by leb x l).
Proof.
  intros Htotal. induction 1 as [|y l Hl IH Hhd]; simpl.
  { by repeat constructor. }
  destruct (leb x y) eqn:Hxy.
  - constructor; [by constructor|]. constructor. by rewrite Hxy.
  - constructor; [done|].
    assert (Is_true (leb y x)) as Hyx.
    { destruct (Htotal x y) as [Hle|Hle]; [|done]. by rewrite Hxy in Hle. }
    destruct Hhd as [|z l Hyz]; simpl.
    + by constructor.
    + destruct (leb x z); by constructor.
Qed.

Lemma sorted_by_Sorted (l : list Task.t) :
  Sorted deadline_then_createdAt (sorted_by (Some by_deadline_createdAt) l).
Proof.
  apply (Sorted_iff (λ x y, Is_true (by_deadline_createdAt x y)));
    [apply by_deadline_createdAt_spec|].
  simpl. induction l as [|x l IH]; simpl; [constructor|].
  apply insert_by_Sorted; [apply _|done].
Qed.

(** A list in order is sorted into itself: whatever order of the
    documents agrees with the sort is the answer of some server. *)
Lemma sorted_by_sorted {A} (leb : A → A → bool) (l : list A) :
  Sorted (λ x y, Is_true (leb x y)) l → sorted_by (Some leb) l = l.
Proof.
  simpl. induction 1 as [|x l _ IH Hhd]; simpl; [done|].
  rewrite IH. destruct Hhd as [|y l Hxy]; simpl; [done|].
  by destruct (leb x y).
Qed.

(** The documents of a query, sorted: a permutation of the documents
    that match. *)
Lemma sorted_scan_Permutation {A} (leb : option (A → A → bool)) (q : Query A) :
  sorted_by leb (scan q) ≡ₚ matching (q_coll q) (q_filter q).
Proof. by rewrite sorted_by_Permutation, scan_Permutation. Qed.

(** The listing of the creator, by the skip that the page gives. *)
Lemma getTasks_skip req st email :
  headers req !! "user-email" = Some email → email ≠ "" →
  createdEventController.getTasks req st =
    let skip_ := (JS.num_or (JS.parseInt (query req !! "page")) 1 - 1) * 10 in
    if skip_ <? 0
    then mkResponse 500
           (JMessage ("Error fetching tasks: " +:+
                      error_message (MongoServerError skip_)))
    else mkResponse 200
           (JTasks
              (take 10
                 (drop (Z.to_nat skip_)
                    (sorted_by (Some by_deadline_createdAt)
                       (scan
                          (find (Tasks st) (λ x, String.eqb (Task.creator x) email)
                             |> sort by_deadline_createdAt |> skip skip_
                             |> limit 10)))))).
Proof.
  intros Hh Hne. unfold createdEventController.getTasks.
  rewrite Hh, truthy_Some by done. cbn [negb default]. unfold exec. cbn -[Z.mul].
  change (Z.of_nat 10) with 10.
  by destruct ((JS.num_or (JS.parseInt (query req !! "page")) 1 - 1) * 10 <? 0).
Qed.

Lemma getEventsByCreator_skip req st email :
  headers req !! "user-email" = Some email → email ≠ "" →
  createdEventController.getEventsByCreator req st =
    let skip_ := (JS.num_or (JS.parseInt (query req !! "page")) 1 - 1) * 10 in
    if skip_ <? 0
    then mkResponse 500
           (JMessage ("Error fetching events: " +:+
                      error_message (MongoServerError skip_)))
    else
      let events :=
        take 10
          (drop (Z.to_nat skip_)
             (sorted_by (Some by_date)
                (scan
                   (find (Events st) (λ e, String.eqb (Event.creator e) email)
                      |> sort by_date |> skip skip_ |> limit 10)))) in
      if (length events =? 0)%nat
      then mkResponse 404 (JMessage "No events found for this creator")
      else mkResponse 200
             (JEvents ((λ e, (Event._id e, Event.eventName e)) <$> events)).
Proof.
  intros Hh Hne. unfold createdEventController.getEventsByCreator.
  rewrite Hh, truthy_Some by done. cbn [negb default]. unfold exec. cbn -[Z.mul].
  change (Z.of_nat 10) with 10.
  by destruct ((JS.num_or (JS.parseInt (query req !! "page")) 1 - 1) * 10 <? 0).
Qed.

(** The listing of the creator, for a page number of at least one: a
    page of the creator's tasks in the order of the sort. *)
Lemma getTasks_page req st email page :
  headers req !! "user-email" = Some email →
  email ≠ "" →
  JS.num_or (JS.parseInt (query req !! "page")) 1 = page →
  1 ≤ page →
  ∃ sorted,
    Sorted deadline_then_createdAt sorted ∧
    sorted ≡ₚ filter (λ x, Task.creator x = email) (map_to_list (Tasks st)).*2 ∧
    createdEventController.getTasks req st =
      mkResponse 200
        (JTasks (take 10 (drop (Z.to_nat ((page - 1) * 10)) sorted))).
Proof.
  intros Hh Hne Hpage Hpos.
  rewrite (getTasks_skip req st email Hh Hne), Hpage. cbv zeta.
  destruct (Z.ltb_spec ((page - 1) * 10) 0); [lia|].
  match goal with
  | |- context [sorted_by ?leb (scan ?q)] => exists (sorted_by leb (scan q))
  end.
  split; [apply sorted_by_Sorted|]. split; [|reflexivity].
  rewrite sorted_scan_Permutation. cbn [q_coll q_filter find sort skip limit].
  by rewrite matching_eqb.
Qed.

(** The listing of the assignee: the whole of the assignee's tasks in
    the order of the sort, answered 404 when there is none. *)
Lemma getTasksByAssignee_sorted req st email :
  headers req !! "user-email" = Some email →
  email ≠ "" →
  ∃ sorted,
    Sorted deadline_then_createdAt sorted ∧
    sorted ≡ₚ filter (λ x, Task.assignee x = email) (map_to_list (Tasks st)).*2 ∧
    taskController.getTasksByAssignee req st =
      match sorted with
      | [] => mkResponse 404 (JMessage "No tasks found for this employee")
      | _ => mkResponse 200 (JTasks sorted)
      end.
Proof.
  intros Hh Hne. unfold taskController.getTasksByAssignee.
  rewrite Hh, truthy_Some by done. simpl. unfold exec. simpl.
  rewrite drop_0.
  match goal with
  | |- context [foldr _ [] (scan ?q)] =>
      exists (sorted_by (Some by_deadline_createdAt) (scan q))
  end.
  split; [apply sorted_by_Sorted|]. split.
  - rewrite sorted_scan_Permutation. cbn [q_coll q_filter find sort skip limit].
    by rewrite matching_eqb.
  - unfold sorted_by. by destruct (foldr _ _ _).
Qed.

(** C6: the task list of a creator is the page of ten tasks that follows
    the first (page - 1) * 10 of the creator's tasks sorted by deadline
    and then creation time, so that with 25 tasks page 2 is the eleventh
    to the twentieth task of that order; the task list of an assignee is
    the whole of the assignee's tasks in the same order. The page is the
    decimal number in the query; the creator's and the assignee's tasks
    are the stored tasks whose creator, respectively assignee, is the
    email of the request. *)
Theorem task_lists_sorted_and_paginated
    (reqC reqA : Request) (st : Store) (creator assignee : string) (page : N) :
  headers reqC !! "user-email" = Some creator → creator ≠ "" →
  query reqC !! "page" = Some (pretty page) → (1 ≤ page < 2 ^ 53)%N →
  headers reqA !! "user-email" = Some assignee → assignee ≠ "" →
  let stored := (map_to_list (Tasks st)).*2 in
  ∃ sorted_created sorted_assigned,
    Sorted deadline_then_createdAt sorted_created ∧
    sorted_created ≡ₚ filter (λ x, Task.creator x = creator) stored ∧
    createdEventController.getTasks reqC st =
      mkResponse 200
        (JTasks (take 10 (drop (10 * (N.to_nat page - 1)) sorted_created))) ∧
    (page = 2%N → length sorted_created = 25%nat →
     ∃ l, createdEventController.getTasks reqC st = mkResponse 200 (JTasks l) ∧
          length l = 10%nat ∧
          ∀ i, (i < 10)%nat → l !! i = sorted_created !! (10 + i)%nat) ∧
    Sorted deadline_then_createdAt sorted_assigned ∧
    sorted_assigned ≡ₚ filter (λ x, Task.assignee x = assignee) stored ∧
    (sorted_assigned ≠ [] →
     taskController.getTasksByAssignee reqA st =
       mkResponse 200 (JTasks sorted_assigned)).
Proof.
  intros HhC HneC Hpage Hbound HhA HneA stored.
  destruct (getTasks_page reqC st creator (Z.of_N page) HhC HneC)
    as (sorted_created & HsC & HpC & HgetC).
  { rewrite Hpage, parseInt_pretty by lia. apply num_or_nonzero. lia. }
  { lia. }
  destruct (getTasksByAssignee_sorted reqA st assignee HhA HneA)
    as (sorted_assigned & HsA & HpA & HgetA).
  replace (Z.to_nat ((Z.of_N page - 1) * 10))
    with (10 * (N.to_nat page - 1))%nat in HgetC by lia.
  exists sorted_created, sorted_assigned.
  split; [done|]. split; [done|]. split; [done|]. split.
  { intros -> Hlen. eexists. split; [exact HgetC|].
    change (10 * (N.to_nat 2 - 1))%nat with 10%nat. split.
    - rewrite length_take, length_drop, Hlen. reflexivity.
    - intros i Hi. by rewrite lookup_take_lt, lookup_drop. }
  split; [done|]. split; [done|].
  intros Hsome. rewrite HgetA. by destruct sorted_assigned.
Qed.
End task_lists.

Lemma task_lists_sorted_and_paginated_witness :
  let reqC :=
    Fixture.request [("user-email", "manager@firm.com")] [] [("page", "2")] [] in
  let reqA := Fixture.request [("user-email", "dev@firm.com")] [] [] [] in
  ∃ sorted_created sorted_assigned l,
    Sorted deadline_then_createdAt sorted_created ∧
    length sorted_created = 25%nat ∧
    @createdEventController.getTasks Fixture.mongoose reqC Fixture.store25 =
      mkResponse 200 (JTasks l) ∧
    length l = 10%nat ∧
    (∀ i, (i < 10)%nat → l !! i = sorted_created !! (10 + i)%nat) ∧
    @taskController.getTasksByAssignee Fixture.mongoose reqA Fixture.store25 =
      mkResponse 200 (JTasks sorted_assigned) ∧
    length sorted_assigned = 25%nat.
Proof.
  intros reqC reqA.
  destruct (@task_lists_sorted_and_paginated Fixture.mongoose reqC reqA
              Fixture.store25 "manager@firm.com" "dev@firm.com" 2)
    as (sc & sa & HsC & HpC & _ & Hpage & _ & HpA & HgetA);
    [reflexivity|discriminate|reflexivity|lia|reflexivity|discriminate|].
  assert (length sc = 25%nat) as HlenC by (rewrite HpC; clear; by vm_compute).
  assert (length sa = 25%nat) as HlenA by (rewrite HpA; clear; by vm_compute).
  destruct (Hpage eq_refl HlenC) as (l & Hl & Hlen & Hnth).
  exists sc, sa, l.
  split; [exact HsC|]. split; [exact HlenC|]. split; [exact Hl|].
  split; [exact Hlen|]. split; [exact Hnth|].
  split; [|exact HlenA]. apply HgetA. intros ->. discriminate HlenA.
Defined.

(** ** The filter endpoint *)

Section filter.
Context `{Mongoose}.

Lemma filterTasks_query_status req s :
  query req !! "status" = Some s → s ∈ Task.status_enum →
  createdEventController.query_status
    (createdEventController.filterTasks_query req) = Some s.
Proof.
  intros Hs Hin. unfold createdEventController.filterTasks_query. simpl.
  rewrite Hs, truthy_Some by eauto using status_enum_nonempty. simpl.
  by rewrite bool_decide_eq_true_2.
Qed.

Lemma filterTasks_query_status_inv req s :
  createdEventController.query_status
    (createdEventController.filterTasks_query req) = Some s →
  query req !! "status" = Some s ∧ s ∈ Task.status_enum.
Proof.
  unfold createdEventController.filterTasks_query. simpl.
  destruct (query req !! "status") as [s'|]; simpl; [|done].
  destruct (negb (String.eqb s' "")); simpl; [|done].
  case_bool_decide; [|done]. by intros [= ->].
Qed.

Lemma filterTasks_query_assignee req a :
  createdEventController.query_assignee
    (createdEventController.filterTasks_query req) = Some a ↔
  query req !! "assignee" = Some a ∧ a ≠ "".
Proof.
  unfold createdEventController.filterTasks_query. simpl.
  destruct (query req !! "assignee") as [a'|]; simpl.
  - destruct (String.eqb_spec a' "") as [->|Hne]; simpl.
    + split; [done|]. by intros [[= <-] Hne].
    + split; [by intros [= ->]|]. by intros [[= ->] _].
  - split; [done|]. by intros [? _].
Qed.

(** C8, as the code has it: the filter endpoint answers 200 with the
    tasks that satisfy every constraint of the request, where a status
    parameter constrains the status of the task to be equal to it only if
    it is one of Pending, In Progress and Completed, and an assignee
    parameter constrains the assignee of the task to be equal to it only
    if it is not empty; an absent parameter, an empty one, and a status
    outside these three values impose no constraint. *)
Theorem filterTasks_equality_filter (req : Request) (st : Store) :
  ∃ l,
    createdEventController.filterTasks req st = mkResponse 200 (JTasks l) ∧
    ∀ x, x ∈ l ↔
      (∃ id, Tasks st !! id = Some x) ∧
      (∀ s, query req !! "status" = Some s → s ∈ Task.status_enum →
            Task.status x = s) ∧
      (∀ a, query req !! "assignee" = Some a → a ≠ "" → Task.assignee x = a).
Proof.
  unfold createdEventController.filterTasks, exec. simpl. rewrite drop_0.
  eexists. split; [reflexivity|]. intros x.
  rewrite elem_of_scan. cbn [q_coll q_filter find].
  unfold createdEventController.matches.
  rewrite andb_true_iff. split.
  - intros [[Hst Has] Hin]. split; [done|]. split.
    + intros s Hs Hs'. rewrite (filterTasks_query_status req s Hs Hs') in Hst.
      by apply String.eqb_eq.
    + intros a Ha Ha'.
      rewrite (proj2 (filterTasks_query_assignee req a) (conj Ha Ha')) in Has.
      by apply String.eqb_eq.
  - intros (Hin & Hst & Has). split; [|done]. split.
    + destruct (createdEventController.query_status _) as [s|] eqn:Hq; [|done].
      apply filterTasks_query_status_inv in Hq as [Hs Hs'].
      apply String.eqb_eq. by apply Hst.
    + destruct (createdEventController.query_assignee _) as [a|] eqn:Hq; [|done].
      apply filterTasks_query_assignee in Hq as [Ha Ha'].
      apply String.eqb_eq. by apply Has.
Qed.
End filter.

(** A status parameter outside the three values does not filter: it is
    left out of the query, and the tasks of every status are returned,
    not the tasks whose status equals it. *)
Lemma filterTasks_unknown_status_counterexample :
  let req := Fixture.request [] [] [("status", "Done")] [] in
  query req !! "status" = Some "Done" ∧
  @createdEventController.filterTasks Fixture.mongoose req Fixture.store1 =
    mkResponse 200 (JTasks [Fixture.task1]) ∧
  Task.status Fixture.task1 ≠ "Done" ∧
  ¬ (∀ x, x ∈ [Fixture.task1] ↔
          (∃ id, Tasks Fixture.store1 !! id = Some x) ∧ Task.status x = "Done").
Proof.
  intros req. split; [reflexivity|]. split; [by vm_compute|].
  split; [discriminate|].
  intros Hclaim. destruct (proj1 (Hclaim Fixture.task1)) as [_ Hst]; [left|].
  discriminate Hst.
Qed.

Lemma filterTasks_equality_filter_witness :
  let req :=
    Fixture.request [] [] [("status", "Pending"); ("assignee", "dev@firm.com")] [] in
  ∃ l,
    @createdEventController.filterTasks Fixture.mongoose req Fixture.store1 =
      mkResponse 200 (JTasks l) ∧
    Fixture.task1 ∈ l.
Proof.
  intros req.
  destruct (@filterTasks_equality_filter Fixture.mongoose req Fixture.store1)
    as (l & Hl & Hin).
  exists l. split; [exact Hl|]. apply Hin. split; [|split].
  - exists Fixture.id1. reflexivity.
  - intros s [= <-] _. reflexivity.
  - intros a [= <-] _. reflexivity.
Defined.

(** ** Empty results *)

Section empty_results.
Context `{Mongoose}.

Lemma getTasksByAssignee_200 req st :
  status (taskController.getTasksByAssignee req st) = 200 →
  ∃ l, json (taskController.getTasksByAssignee req st) = JTasks l ∧ l ≠ [].
Proof.
  unfold taskController.getTasksByAssignee.
  destruct (negb _); [done|].
  destruct (exec _) as [e|l]; [done|].
  destruct l as [|x l]; [done|]. intros _. by eexists.
Qed.

Lemma getEventsByCreator_200 req st :
  status (createdEventController.getEventsByCreator req st) = 200 →
  ∃ l, json (createdEventController.getEventsByCreator req st) = JEvents l ∧ l ≠ [].
Proof.
  unfold createdEventController.getEventsByCreator.
  destruct (negb _); [done|].
  destruct (exec _) as [e|l]; [done|].
  destruct l as [|x l]; [done|]. intros _. by eexists.
Qed.

(** C9, as the code has it: the two listings report an empty result as
    an error. With no task assigned to the email of the request, the
    assigned-tasks listing answers 404 "No tasks found for this
    employee"; with no event created by the email of the request and a
    page parameter that is not a negative number, the created-events
    listing answers 404 "No events found for this creator"; and neither
    ever answers 200 with an empty array. *)
Theorem empty_lists_are_404
    (reqA reqC : Request) (st : Store) (assignee creator : string) :
  headers reqA !! "user-email" = Some assignee → assignee ≠ "" →
  (∀ id x, Tasks st !! id = Some x → Task.assignee x ≠ assignee) →
  headers reqC !! "user-email" = Some creator → creator ≠ "" →
  (∀ id e, Events st !! id = Some e → Event.creator e ≠ creator) →
  (∀ p, JS.parseInt (query reqC !! "page") = Some p → 0 ≤ p) →
  taskController.getTasksByAssignee reqA st =
    mkResponse 404 (JMessage "No tasks found for this employee") ∧
  createdEventController.getEventsByCreator reqC st =
    mkResponse 404 (JMessage "No events found for this creator") ∧
  (∀ req' st',
     status (taskController.getTasksByAssignee req' st') = 200 →
     ∃ l, json (taskController.getTasksByAssignee req' st') = JTasks l ∧ l ≠ []) ∧
  (∀ req' st',
     status (createdEventController.getEventsByCreator req' st') = 200 →
     ∃ l, json (createdEventController.getEventsByCreator req' st') = JEvents l ∧
          l ≠ []).
Proof.
  intros HhA HneA HnoA HhC HneC HnoC Hpage.
  split; [|split; [|split]].
  - unfold taskController.getTasksByAssignee.
    rewrite HhA, truthy_Some by done. simpl. unfold exec. simpl.
    rewrite scan_nil; [done|].
    intros id x Hx. apply String.eqb_neq. by eapply HnoA.
  - rewrite (getEventsByCreator_skip reqC st creator HhC HneC). cbv zeta.
    assert (1 ≤ JS.num_or (JS.parseInt (query reqC !! "page")) 1) as Hpos.
    { destruct (JS.parseInt (query reqC !! "page")) as [p|] eqn:Hp; [|done].
      specialize (Hpage p eq_refl). destruct p; simpl; lia. }
    destruct (Z.ltb_spec
                ((JS.num_or (JS.parseInt (query reqC !! "page")) 1 - 1) * 10) 0);
      [lia|].
    generalize (Z.to_nat
                  ((JS.num_or (JS.parseInt (query reqC !! "page")) 1 - 1) * 10)).
    intros n. rewrite scan_nil; [by destruct n|].
    intros id e He. apply String.eqb_neq. by eapply HnoC.
  - apply getTasksByAssignee_200.
  - apply getEventsByCreator_200.
Qed.
End empty_results.

Lemma empty_lists_are_404_witness :
  let reqA := Fixture.request [("user-email", "nobody@firm.com")] [] [] [] in
  let reqC := Fixture.request [("user-email", "nobody@firm.com")] [] [] [] in
  @taskController.getTasksByAssignee Fixture.mongoose reqA Fixture.store1 =
    mkResponse 404 (JMessage "No tasks found for this employee") ∧
  @createdEventController.getEventsByCreator Fixture.mongoose reqC Fixture.store1 =
    mkResponse 404 (JMessage "No events found for this creator").
Proof.
  intros reqA reqC.
  destruct (@empty_lists_are_404 Fixture.mongoose reqA reqC Fixture.store1
              "nobody@firm.com" "nobody@firm.com")
    as (HA & HC & _).
  - reflexivity.
  - discriminate.
  - intros id x Hx.
    change (Tasks Fixture.store1)
      with ({[Fixture.id1 := Fixture.task1]} : gmap string Task.t) in Hx.
    apply lookup_singleton_Some in Hx as [_ <-]. discriminate.
  - reflexivity.
  - discriminate.
  - intros id e He.
    change (Events Fixture.store1) with (∅ : gmap string Event.t) in He.
    rewrite lookup_empty in He. discriminate.
  - intros p Hp. discriminate Hp.
  - split; [exact HA|exact HC].
Defined.

(** The claim without the condition on the page fails: for a creator
    without events, a negative page parameter gives a negative skip, the
    server refuses the query, and the answer is 500, not 404. *)
Lemma empty_lists_are_404_counterexample :
  let reqC :=
    Fixture.request [("user-email", "nobody@firm.com")] [] [("page", "-1")] [] in
  (∀ id e, Events Fixture.store1 !! id = Some e →
           Event.creator e ≠ "nobody@firm.com") ∧
  @createdEventController.getEventsByCreator Fixture.mongoose reqC Fixture.store1 =
    mkResponse 500
      (JMessage ("Error fetching events: " +:+
                 @error_message Fixture.mongoose (MongoServerError (-20)))) ∧
  @createdEventController.getEventsByCreator Fixture.mongoose reqC Fixture.store1 ≠
    mkResponse 404 (JMessage "No events found for this creator").
Proof.
  intros reqC. split; [|split].
  - intros id e He.
    change (Events Fixture.store1) with (∅ : gmap string Event.t) in He.
    rewrite lookup_empty in He. discriminate.
  - reflexivity.
  - discriminate.
Qed.

Lemma compiled_report_groups_witness :
  let data :=
    [ ReportsHome.mkEntry 2024 "firm-wide" 1000.5 (Some "Ops") (Some "Kickoff");
      ReportsHome.mkEntry 2023 "team-specific" 70 None None;
      ReportsHome.mkEntry 2024 "firm-wide" nan None None;
      ReportsHome.mkEntry 2024 "firm-wide" 500.25 None (Some "Gala") ] in
  let r :=
    ReportsHome.mkRow 2024 "Ops" "firm-wide" 3 ["Kickoff"; "Gala"] 1500.75 in
  r ∈ ReportsHome.finalData data ∧
  ReportsHome.row_eventCount r =
    Z.of_nat (length (ReportsHome.group_of 2024 "firm-wide" data)) ∧
  ReportsHome.row_totalBudget r =
    ReportsHome.sum_budgets (ReportsHome.group_of 2024 "firm-wide" data).
Proof.
  intros data r.
  assert (Hr : r ∈ ReportsHome.finalData data) by (vm_compute; left).
  split; [exact Hr|].
  apply (proj1 (compiled_report_groups data) r Hr).
Defined.

(** * Further properties of the controllers *)

(** ** Reading a task *)

Section reading.
Context `{Mongoose}.

(** X1: the two endpoints that read a task by id agree on every valid
    id (404 when no task has the ObjectId it denotes, otherwise 200 with
    the stored task) and differ on an invalid one: the assignee side
    answers 400, the creator side lets the cast fail and answers 500
    with the error message. *)
Theorem getTaskById_getTaskDetails (reqA reqC : Request) (st : Store) (id : string) :
  params reqA !! "taskId" = Some id →
  params reqC !! "id" = Some id →
  (ObjectId_isValid id = true →
   getTaskById reqA st = getTaskDetails reqC st ∧
   getTaskById reqA st =
     match Tasks st !! ObjectId_cast id with
     | Some task => mkResponse 200 (JTask task)
     | None => mkResponse 404 (JMessage "Task not found")
     end) ∧
  (ObjectId_isValid id = false →
   getTaskById reqA st = mkResponse 400 (JMessage "Invalid Task ID format") ∧
   getTaskDetails reqC st =
     mkResponse 500 (JMessage ("Server error: " +:+ error_message (CastError id)))).
Proof.
  intros HA HC. unfold getTaskById, getTaskDetails, findById.
  rewrite HA, HC. simpl. split; intros Hv; rewrite Hv; simpl.
  - by destruct (Tasks st !! ObjectId_cast id).
  - done.
Qed.
End reading.

Lemma getTaskById_getTaskDetails_witness :
  let reqA := Fixture.request [] [("taskId", "65F0A1B2C3D4E5F6A7B8C9D0")] [] [] in
  let reqC := Fixture.request [] [("id", "65F0A1B2C3D4E5F6A7B8C9D0")] [] [] in
  let badA := Fixture.request [] [("taskId", "42")] [] [] in
  let badC := Fixture.request [] [("id", "42")] [] [] in
  (@getTaskById Fixture.mongoose reqA Fixture.store1 =
     @getTaskDetails Fixture.mongoose reqC Fixture.store1 ∧
   @getTaskById Fixture.mongoose reqA Fixture.store1 =
     mkResponse 200 (JTask Fixture.task1)) ∧
  (@getTaskById Fixture.mongoose badA Fixture.store1 =
     mkResponse 400 (JMessage "Invalid Task ID format") ∧
   @getTaskDetails Fixture.mongoose badC Fixture.store1 =
     mkResponse 500
       (JMessage ("Server error: " +:+
                  @error_message Fixture.mongoose (CastError "42")))).
Proof.
  intros reqA reqC badA badC. split.
  - apply (@getTaskById_getTaskDetails Fixture.mongoose reqA reqC Fixture.store1
             "65F0A1B2C3D4E5F6A7B8C9D0"); reflexivity.
  - apply (@getTaskById_getTaskDetails Fixture.mongoose badA badC Fixture.store1
             "42"); reflexivity.
Defined.

(** ** Writes to the task collection *)

Section writes.
Context `{Mongoose}.

(** The two ways a status update ends: refused, with the store as it
    was, or applied to the task of the request. *)
Lemma updateTaskStatus_cases req now st :
  (¬ (200 ≤ status (taskController.updateTaskStatus req now st).1 < 300) ∧
   (taskController.updateTaskStatus req now st).2 = st) ∨
  (∃ id s x,
     params req !! "taskId" = Some id ∧ body req !! "status" = Some s ∧
     s ≠ "" ∧ ObjectId_isValid id = true ∧
     Tasks st !! ObjectId_cast id = Some x ∧
     taskController.updateTaskStatus req now st =
       (mkResponse 200
          (JMessageTask "Task status updated"
             (Task.set_updatedAt now (Task.set_status s x))),
        set_Tasks
          (<[ObjectId_cast id := Task.set_updatedAt now (Task.set_status s x)]>
             (Tasks st)) st)).
Proof.
  destruct (JS.truthy (params req !! "taskId")) eqn:Hid.
  2:{ left. rewrite updateTaskStatus_missing by auto. simpl. split; [lia|done]. }
  destruct (JS.truthy (body req !! "status")) eqn:Hs.
  2:{ left. rewrite updateTaskStatus_missing by auto. simpl. split; [lia|done]. }
  apply truthy_inv in Hid as (id & Hid & Hne).
  destruct (truthy_inv _ Hs) as (s & Hs' & Hsne).
  destruct (ObjectId_isValid id) eqn:Hv.
  2:{ left. rewrite (updateTaskStatus_invalid req now st id) by done.
      simpl. split; [lia|done]. }
  destruct (Tasks st !! ObjectId_cast id) as [x|] eqn:Hx.
  2:{ left. rewrite (updateTaskStatus_not_found req now st id) by done.
      simpl. split; [lia|done]. }
  right. exists id, s, x. repeat (split; [done|]).
  by apply updateTaskStatus_found.
Qed.

(** The two ways a comment request ends: refused, with the store as it
    was, or appended to the task of the request, which is written back
    under its [_id]. *)
Lemma addComment_cases via req now st :
  (¬ (200 ≤ status (addComment via req now st).1 < 300) ∧
   (addComment via req now st).2 = st) ∨
  (∃ id x author message,
     carries via req id author message ∧ author ≠ "" ∧ message ≠ "" ∧
     ObjectId_isValid id = true ∧ Tasks st !! ObjectId_cast id = Some x ∧
     TaskModel.validate
       (Task.set_comments (Task.comments x ++ [Comment.mk author message now]) x)
       = true ∧
     addComment via req now st =
       (mkResponse 201
          (JMessageTask "Comment added successfully"
             (Task.set_updatedAt now
                (Task.set_comments
                   (Task.comments x ++ [Comment.mk author message now]) x))),
        set_Tasks
          (<[Task._id x :=
               Task.set_updatedAt now
                 (Task.set_comments
                    (Task.comments x ++ [Comment.mk author message now]) x)]>
             (Tasks st)) st)).
Proof.
  destruct via; simpl.
  - unfold taskController.addCommentToTask_Assignee.
    destruct (params req !! "taskId") as [id|] eqn:Hid; simpl; [|left; simpl; split; [lia|done]].
    destruct (ObjectId_isValid id) eqn:Hv; simpl; [|left; simpl; split; [lia|done]].
    destruct (JS.truthy (headers req !! "user-email")) eqn:Ha; simpl; [|left; simpl; split; [lia|done]].
    destruct (JS.truthy (body req !! "message")) eqn:Hm; simpl; [|left; simpl; split; [lia|done]].
    apply truthy_inv in Ha as (a & Ha & Hane).
    apply truthy_inv in Hm as (m & Hm & Hmne).
    rewrite ?Ha, ?Hm. unfold findById. rewrite ?Hv. simpl.
    destruct (Tasks st !! ObjectId_cast id) as [x|] eqn:Hx;
      [|left; simpl; split; [lia|done]].
    unfold TaskModel.save.
    destruct (TaskModel.validate _) eqn:Hval; [|left; simpl; split; [lia|done]].
    right. exists id, x, a, m. simpl. by repeat (split; [done|]).
  - unfold createdEventController.addCommentToTask.
    destruct (JS.truthy (body req !! "author")) eqn:Ha; simpl; [|left; simpl; split; [lia|done]].
    destruct (JS.truthy (body req !! "message")) eqn:Hm; simpl; [|left; simpl; split; [lia|done]].
    apply truthy_inv in Ha as (a & Ha & Hane).
    apply truthy_inv in Hm as (m & Hm & Hmne).
    rewrite Ha, Hm. unfold findById.
    destruct (params req !! "id") as [id|] eqn:Hid; simpl; [|left; simpl; split; [lia|done]].
    destruct (ObjectId_isValid id) eqn:Hv; simpl; [|left; simpl; split; [lia|done]].
    destruct (Tasks st !! ObjectId_cast id) as [x|] eqn:Hx;
      [|left; simpl; split; [lia|done]].
    unfold TaskModel.save.
    destruct (TaskModel.validate _) eqn:Hval; [|left; simpl; split; [lia|done]].
    right. exists id, x, a, m. simpl. by repeat (split; [done|]).
Qed.

(** What one write does to the store: at most one task changes, the one
    the request names, and it changes by its status or by one more
    comment. *)
Lemma apply_op_step op st :
  ids_consistent st →
  (apply_op op st).2 = st ∨
  ∃ id x x',
    ObjectId_cast <$> op_target op = Some id ∧ Tasks st !! id = Some x ∧
    (apply_op op st).2 = set_Tasks (<[id := x']> (Tasks st)) st ∧
    same_identity x x' ∧ Task.updatedAt x' = op_now op ∧
    ((Task.comments x' = Task.comments x ∧
      ∃ request now, op = OpStatus request now ∧
        body request !! "status" = Some (Task.status x')) ∨
     (Task.status x' = Task.status x ∧ TaskModel.validate x' = true ∧
      ∃ c, Task.comments x' = Task.comments x ++ [c] ∧
           Comment.timestamp c = op_now op)).
Proof.
  intros Hids. destruct op as [req now|via req now]; simpl.
  - destruct (updateTaskStatus_cases req now st)
      as [[_ Hst]|(id & s & x & Hid & Hs & _ & _ & Hx & Heq)]; [by left|].
    right. exists (ObjectId_cast id), x, (Task.set_updatedAt now (Task.set_status s x)).
    rewrite Heq. simpl. rewrite Hid. repeat (split; [done|]).
    left. split; [done|]. by exists req, now.
  - destruct (addComment_cases via req now st)
      as [[_ Hst]|(id & x & a & m & Hreq & _ & _ & _ & Hx & Hval & Heq)]; [by left|].
    right. exists (ObjectId_cast id), x.
    eexists. rewrite Heq. simpl. rewrite (Hids _ x Hx).
    split; [by destruct via; destruct Hreq as (-> & _)|].
    split; [done|]. split; [reflexivity|].
    split; [done|]. split; [done|].
    right. split; [done|]. split; [done|]. by eexists.
Qed.

(** X2: a write request that is not answered with a success status
    (200 for a status update, 201 for a comment) leaves the store exactly
    as it was. *)
Theorem refused_write_changes_nothing (op : TaskOp) (st : Store) :
  ¬ (200 ≤ status (apply_op op st).1 < 300) →
  (apply_op op st).2 = st.
Proof.
  intros Hfail. destruct op as [req now|via req now]; simpl in *.
  - destruct (updateTaskStatus_cases req now st)
      as [[_ Hst]|(id & s & x & _ & _ & _ & _ & _ & Heq)]; [done|].
    rewrite Heq in Hfail. simpl in Hfail. lia.
  - destruct (addComment_cases via req now st)
      as [[_ Hst]|(id & x & a & m & _ & _ & _ & _ & _ & _ & Heq)]; [done|].
    rewrite Heq in Hfail. simpl in Hfail. lia.
Qed.

(** X3: a write touches no task but the one its request names (the one
    whose [_id] is the ObjectId that the text in the URL denotes), and
    neither the events nor the employees. *)
Theorem write_touches_one_task (op : TaskOp) (st : Store) (id : string) :
  ids_consistent st →
  ObjectId_cast <$> op_target op ≠ Some id →
  Tasks (apply_op op st).2 !! id = Tasks st !! id ∧
  Events (apply_op op st).2 = Events st ∧
  Employees (apply_op op st).2 = Employees st.
Proof.
  intros Hids Hother.
  destruct (apply_op_step op st Hids)
    as [->|(id' & x & x' & Htarget & _ & -> & _)]; [done|].
  simpl. split; [|done]. apply lookup_insert_ne. congruence.
Qed.

Lemma run_ops_snoc ops op st :
  run_ops (ops ++ [op]) st = (apply_op op (run_ops ops st)).2.
Proof. unfold run_ops. by rewrite fold_left_app. Qed.

Lemma ids_consistent_step op st :
  ids_consistent st → ids_consistent (apply_op op st).2.
Proof.
  intros Hids.
  destruct (apply_op_step op st Hids)
    as [->|(id & x & x' & _ & Hx & -> & (Hid & _) & _)]; [done|].
  intros id' y. simpl. rewrite lookup_insert_Some.
  intros [[<- <-]|[_ Hy]]; [|by apply Hids].
  rewrite Hid. by apply Hids.
Qed.

Lemma ids_consistent_run ops st :
  ids_consistent st → ids_consistent (run_ops ops st).
Proof.
  intros Hids. induction ops as [|op ops IH] using rev_ind; [done|].
  rewrite run_ops_snoc. by apply ids_consistent_step.
Qed.

(** X4: whatever sequence of status updates and comments is served, no
    task is created or deleted, every task stays stored under its own
    id, and the events and the employees are not written. *)
Theorem writes_keep_the_collection (ops : list TaskOp) (st : Store) :
  ids_consistent st →
  ids_consistent (run_ops ops st) ∧
  dom (Tasks (run_ops ops st)) = dom (Tasks st) ∧
  Events (run_ops ops st) = Events st ∧
  Employees (run_ops ops st) = Employees st.
Proof.
  intros Hids. split; [by apply ids_consistent_run|].
  induction ops as [|op ops IH] using rev_ind; [done|].
  rewrite run_ops_snoc.
  destruct (apply_op_step op (run_ops ops st) (ids_consistent_run ops st Hids))
    as [->|(id & x & x' & _ & Hx & -> & _)]; [done|].
  simpl. destruct IH as (Hdom & HE & HM). split; [|done].
  rewrite dom_insert_L, <-Hdom. apply subseteq_union_1_L.
  apply singleton_subseteq_l. by apply elem_of_dom_2 in Hx.
Qed.

Lemma same_identity_refl x : same_identity x x.
Proof. by repeat split. Qed.

Lemma same_identity_trans x y z :
  same_identity x y → same_identity y z → same_identity x z.
Proof.
  unfold same_identity. intros Hxy Hyz.
  destruct Hxy as (?&?&?&?&?&?&?&?&?&?), Hyz as (?&?&?&?&?&?&?&?&?&?).
  repeat split; congruence.
Qed.

(** X5: comments are append-only and the descriptive fields of a task
    are never written: after any sequence of status updates and comments,
    each task is still there with the same id, name, description, event,
    budget, creator, assignee, deadline and creation time, and its
    earlier comments are a prefix of its comments. *)
Theorem comments_append_only
    (ops : list TaskOp) (st : Store) (id : string) (x : Task.t) :
  ids_consistent st →
  Tasks st !! id = Some x →
  ∃ x', Tasks (run_ops ops st) !! id = Some x' ∧
        same_identity x x' ∧
        Task.comments x `prefix_of` Task.comments x'.
Proof.
  intros Hids Hx. induction ops as [|op ops IH] using rev_ind.
  { exists x. split; [done|]. split; [apply same_identity_refl|done]. }
  destruct IH as (y & Hy & Hid & Hpre). rewrite run_ops_snoc.
  destruct (apply_op_step op (run_ops ops st) (ids_consistent_run ops st Hids))
    as [->|(id' & z & z' & _ & Hz & -> & Hid' & _ & Hcs)];
    [by exists y|].
  simpl. destruct (decide (id' = id)) as [->|Hne].
  - rewrite lookup_insert_eq. exists z'. split; [done|].
    rewrite Hy in Hz. injection Hz as <-.
    split; [by eapply same_identity_trans|].
    destruct Hcs as [[-> _]|(_ & _ & c & -> & _)]; [done|].
    by apply prefix_app_r.
  - rewrite lookup_insert_ne by done. by exists y.
Qed.
End writes.

Lemma store1_ids_consistent : ids_consistent Fixture.store1.
Proof.
  intros id x Hx.
  change (Tasks Fixture.store1)
    with ({[Fixture.id1 := Fixture.task1]} : gmap string Task.t) in Hx.
  by apply lookup_singleton_Some in Hx as [<- <-].
Qed.

Lemma refused_write_changes_nothing_witness :
  let op :=
    OpComment CreatorComments
      (Fixture.request [] [("id", "not-an-id")] []
         [("author", "manager@firm.com"); ("message", "Hello")]) 2000 in
  status (@apply_op Fixture.mongoose op Fixture.store1).1 = 500 ∧
  (@apply_op Fixture.mongoose op Fixture.store1).2 = Fixture.store1.
Proof.
  intros op. split; [reflexivity|].
  apply (@refused_write_changes_nothing Fixture.mongoose op Fixture.store1).
  vm_compute. intros [_ Hlt]. discriminate Hlt.
Defined.

Lemma write_touches_one_task_witness :
  let op :=
    OpStatus (Fixture.request [] [("taskId", Task._id (Fixture.task_n 5))] []
                [("status", "Completed")]) 2000 in
  Tasks (@apply_op Fixture.mongoose op Fixture.store25).2
    !! Task._id (Fixture.task_n 3) =
  Tasks Fixture.store25 !! Task._id (Fixture.task_n 3) ∧
  Events (@apply_op Fixture.mongoose op Fixture.store25).2 = Events Fixture.store25 ∧
  Employees (@apply_op Fixture.mongoose op Fixture.store25).2 =
    Employees Fixture.store25.
Proof.
  intros op.
  apply (@write_touches_one_task Fixture.mongoose op Fixture.store25).
  - intros id x Hx.
    apply (elem_of_list_to_map_2 (M := gmap string)) in Hx.
    apply list_elem_of_fmap in Hx as (i & Heq & _). by simplify_eq.
  - vm_compute. discriminate.
Defined.

Example write_reaches_its_task :
  Task.status <$>
    Tasks (@apply_op Fixture.mongoose
             (OpStatus (Fixture.request [] [("taskId", Task._id (Fixture.task_n 5))] []
                          [("status", "Completed")]) 2000) Fixture.store25).2
      !! Task._id (Fixture.task_n 5) = Some "Completed".
Proof. by vm_compute. Qed.

Lemma writes_keep_the_collection_witness :
  let ops :=
    [ OpComment AssigneeComments
        (Fixture.request [("user-email", "dev@firm.com")]
           [("taskId", Fixture.id1)] [] [("message", "Started")]) 2000;
      OpStatus (Fixture.request [] [("taskId", Fixture.id1)] []
                  [("status", "In Progress")]) 3000;
      OpStatus (Fixture.request [] [("taskId", "65f0a1b2c3d4e5f6a7b8c9ff")] []
                  [("status", "Completed")]) 4000 ] in
  ids_consistent (@run_ops Fixture.mongoose ops Fixture.store1) ∧
  dom (Tasks (@run_ops Fixture.mongoose ops Fixture.store1)) =
    dom (Tasks Fixture.store1) ∧
  Events (@run_ops Fixture.mongoose ops Fixture.store1) = Events Fixture.store1 ∧
  Employees (@run_ops Fixture.mongoose ops Fixture.store1) =
    Employees Fixture.store1.
Proof.
  intros ops.
  apply (@writes_keep_the_collection Fixture.mongoose ops Fixture.store1).
  apply store1_ids_consistent.
Defined.

Lemma comments_append_only_witness :
  let ops :=
    [ OpComment AssigneeComments
        (Fixture.request [("user-email", "dev@firm.com")]
           [("taskId", Fixture.id1)] [] [("message", "Started")]) 2000;
      OpStatus (Fixture.request [] [("taskId", Fixture.id1)] []
                  [("status", "In Progress")]) 3000;
      OpComment CreatorComments
        (Fixture.request [] [("id", Fixture.id1)] []
           [("author", "manager@firm.com"); ("message", "Thanks")]) 4000 ] in
  ∃ x', Tasks (@run_ops Fixture.mongoose ops Fixture.store1) !! Fixture.id1 = Some x' ∧
        same_identity Fixture.task1 x' ∧
        Task.comments Fixture.task1 `prefix_of` Task.comments x'.
Proof.
  intros ops.
  apply (@comments_append_only Fixture.mongoose ops Fixture.store1 Fixture.id1
           Fixture.task1).
  - apply store1_ids_consistent.
  - reflexivity.
Defined.

(** ** Invariants kept by sequences of writes *)

Section write_invariants.
Context `{Mongoose}.

Lemma validate_same_identity x x' :
  same_identity x x' →
  Task.comments x' = Task.comments x →
  Task.status x' ∈ Task.status_enum →
  TaskModel.validate x = true → TaskModel.validate x' = true.
Proof.
  intros (_ & Hn & Hd & He & Hi & _ & Hc & Ha & _) Hcs Hst.
  unfold TaskModel.validate. rewrite Hn, Hd, He, Hi, Hc, Ha, Hcs.
  rewrite !andb_true_iff. intros [[[[[[[? ?] ?] ?] _] ?] ?] ?].
  repeat split; try done. by apply bool_decide_eq_true_2.
Qed.

Lemma schema_valid_step op st :
  ids_consistent st → schema_valid st → op_status_declared op →
  schema_valid (apply_op op st).2.
Proof.
  intros Hids Hval Hop.
  destruct (apply_op_step op st Hids)
    as [->|(id & x & x' & _ & Hx & -> & Hid & _ & Hcs)]; [done|].
  intros id' y. simpl. rewrite lookup_insert_Some.
  intros [[<- <-]|[_ Hy]]; [|by eapply Hval].
  destruct Hcs as [[Hsame (req & now & -> & Hs)]|(_ & Hv & _)]; [|done].
  eapply validate_same_identity; eauto.
Qed.

(** X6: if every task satisfies the schema, it still does after any
    sequence of comments and of status updates whose status is one of
    the three the schema declares. *)
Theorem schema_validity_kept (ops : list TaskOp) (st : Store) :
  ids_consistent st →
  schema_valid st →
  Forall op_status_declared ops →
  schema_valid (run_ops ops st).
Proof.
  intros Hids Hval Hops. induction ops as [|op ops IH] using rev_ind; [done|].
  rewrite Forall_app, Forall_singleton in Hops. destruct Hops as [Hops Hop].
  rewrite run_ops_snoc.
  apply schema_valid_step; [by apply ids_consistent_run|by apply IH|exact Hop].
Qed.

Lemma timestamps_ordered_step op st bound :
  ids_consistent st → timestamps_ordered bound st → bound ≤ op_now op →
  timestamps_ordered (op_now op) (apply_op op st).2.
Proof.
  intros Hids Hord Hle.
  assert (Hweak : ∀ l, Forall (λ t, t ≤ bound) l → Forall (λ t, t ≤ op_now op) l).
  { intros l Hl. eapply Forall_impl; [exact Hl|]. intros t ?. simpl in *. lia. }
  destruct (apply_op_step op st Hids)
    as [->|(id & x & x' & _ & Hx & -> & _ & _ & Hcs)].
  { intros id x Hx. destruct (Hord id x Hx). auto. }
  intros id' y. simpl. rewrite lookup_insert_Some.
  intros [[<- <-]|[_ Hy]]; [|destruct (Hord id' y Hy); auto].
  destruct (Hord id x Hx) as [Hsorted Hbound].
  destruct Hcs as [[-> _]|(_ & _ & c & -> & Hc)]; [auto|].
  rewrite fmap_app. simpl. rewrite Hc. split.
  - apply Sorted_snoc; [done|].
    destruct (Comment.timestamp <$> Task.comments x) as [|t l _] using rev_ind;
      constructor.
    rewrite Forall_app, Forall_singleton in Hbound. lia.
  - apply Forall_app. split; [auto|]. by apply Forall_singleton.
Qed.

(** X7: if the clock readings of the requests never go back, the
    timestamps of the comments of every task stay in non-decreasing
    order, whatever the number of comments and the endpoints used. *)
Theorem timestamps_stay_ordered (ops : list TaskOp) (st : Store) (bound : Z) :
  ids_consistent st →
  timestamps_ordered bound st →
  Sorted Z.le (bound :: (op_now <$> ops)) →
  timestamps_ordered (List.last (op_now <$> ops) bound) (run_ops ops st).
Proof.
  revert st bound. induction ops as [|op ops IH]; intros st bound Hids Hord Hs.
  { done. }
  apply Sorted_inv in Hs as [Hs Hhd]. apply HdRel_inv in Hhd.
  change (run_ops (op :: ops) st) with (run_ops ops (apply_op op st).2).
  replace (List.last (op_now <$> op :: ops) bound)
    with (List.last (op_now <$> ops) (op_now op)).
  - apply IH; [by apply ids_consistent_step| |done].
    by eapply timestamps_ordered_step.
  - csimpl. destruct (op_now <$> ops) as [|n l] eqn:Hl; [done|].
    clear. revert n. induction l as [|m l IHl]; intros n; [done|].
    simpl in *. apply IHl.
Qed.
End write_invariants.

Lemma store1_schema_valid : schema_valid Fixture.store1.
Proof.
  intros id x Hx.
  change (Tasks Fixture.store1)
    with ({[Fixture.id1 := Fixture.task1]} : gmap string Task.t) in Hx.
  by apply lookup_singleton_Some in Hx as [<- <-].
Qed.

Lemma schema_validity_kept_witness :
  let ops :=
    [ OpComment AssigneeComments
        (Fixture.request [("user-email", "dev@firm.com")]
           [("taskId", Fixture.id1)] [] [("message", "Started")]) 2000;
      OpStatus (Fixture.request [] [("taskId", Fixture.id1)] []
                  [("status", "In Progress")]) 3000 ] in
  schema_valid (@run_ops Fixture.mongoose ops Fixture.store1).
Proof.
  intros ops.
  apply (@schema_validity_kept Fixture.mongoose ops Fixture.store1).
  - apply store1_ids_consistent.
  - apply store1_schema_valid.
  - constructor; [exact I|]. constructor; [|constructor].
    intros declared Hd. vm_compute in Hd. injection Hd as <-.
    unfold Task.status_enum. apply elem_of_cons. right. left.
Defined.

Lemma timestamps_stay_ordered_witness :
  let ops :=
    [ OpComment AssigneeComments
        (Fixture.request [("user-email", "dev@firm.com")]
           [("taskId", Fixture.id1)] [] [("message", "Started")]) 2000;
      OpStatus (Fixture.request [] [("taskId", Fixture.id1)] []
                  [("status", "In Progress")]) 2000;
      OpComment CreatorComments
        (Fixture.request [] [("id", Fixture.id1)] []
           [("author", "manager@firm.com"); ("message", "Thanks")]) 4000 ] in
  timestamps_ordered 4000 (@run_ops Fixture.mongoose ops Fixture.store1).
Proof.
  intros ops.
  apply (@timestamps_stay_ordered Fixture.mongoose ops Fixture.store1 1000).
  - apply store1_ids_consistent.
  - intros id x Hx.
    change (Tasks Fixture.store1)
      with ({[Fixture.id1 := Fixture.task1]} : gmap string Task.t) in Hx.
    apply lookup_singleton_Some in Hx as [<- <-]. by split; constructor.
  - repeat constructor; by vm_compute.
Defined.

(** ** Writing, then reading *)

Section round_trips.
Context `{Mongoose}.

Lemma carries_target via req now id author message :
  carries via req id author message →
  op_target (OpComment via req now) = Some id.
Proof. by destruct via; intros (? & _). Qed.

(** X8: once a comment request is answered 201, reading the task or its
    comments through the creator-side endpoints gives back what the
    answer carried: the task with its earlier comments followed by the
    new one, stamped with the clock reading of the request. *)
Theorem comment_then_read
    (via : CommentEndpoint) (req reqR : Request) (now : Z) (st : Store)
    (id : string) :
  ids_consistent st →
  status (addComment via req now st).1 = 201 →
  op_target (OpComment via req now) = Some id →
  params reqR !! "id" = Some id →
  ∃ x x' c,
    Tasks st !! ObjectId_cast id = Some x ∧
    (addComment via req now st).1 =
      mkResponse 201 (JMessageTask "Comment added successfully" x') ∧
    getTaskDetails reqR (addComment via req now st).2 = mkResponse 200 (JTask x') ∧
    getTaskComments reqR (addComment via req now st).2 =
      (200, JComments (Task.comments x ++ [c])) ∧
    Task.comments x' = Task.comments x ++ [c] ∧
    Comment.timestamp c = now.
Proof.
  intros Hids Hok Htarget HR.
  destruct (addComment_cases via req now st)
    as [[Hno _]|(id' & x & a & m & Hreq & _ & _ & Hv & Hx & _ & Heq)]; [lia|].
  rewrite (carries_target via req now id' a m Hreq) in Htarget.
  injection Htarget as ->.
  exists x. eexists. exists (Comment.mk a m now).
  rewrite Heq. simpl. rewrite (Hids _ x Hx).
  unfold getTaskDetails, getTaskComments, findById. rewrite HR, Hv. simpl.
  rewrite lookup_insert_eq. by repeat split.
Qed.

Lemma filterTasks_status_elem_of req st s x :
  query req !! "status" = Some s → s ∈ Task.status_enum →
  query req !! "assignee" = None →
  x ∈ tasks_of (createdEventController.filterTasks req st) ↔
  Task.status x = s ∧ ∃ id, Tasks st !! id = Some x.
Proof.
  intros Hs Hin Ha.
  unfold createdEventController.filterTasks, exec, tasks_of. simpl.
  rewrite drop_0, elem_of_scan. cbn [q_coll q_filter find].
  unfold createdEventController.matches.
  rewrite (filterTasks_query_status req s Hs Hin).
  unfold createdEventController.filterTasks_query. simpl. rewrite Ha. simpl.
  rewrite andb_true_r. by rewrite String.eqb_eq.
Qed.

(** X9: once a status update to one of the three declared values is
    answered 200, reading the task gives the updated document with that
    status, the filter endpoint lists it under that status, and under
    each other declared status it lists no task with this id. *)
Theorem status_then_read
    (req reqR reqF reqF' : Request) (now : Z) (st : Store) (id s s' : string) :
  ids_consistent st →
  status (taskController.updateTaskStatus req now st).1 = 200 →
  params req !! "taskId" = Some id →
  body req !! "status" = Some s → s ∈ Task.status_enum →
  params reqR !! "taskId" = Some id →
  query reqF !! "status" = Some s → query reqF !! "assignee" = None →
  query reqF' !! "status" = Some s' → query reqF' !! "assignee" = None →
  s' ∈ Task.status_enum → s' ≠ s →
  ∃ x',
    (taskController.updateTaskStatus req now st).1 =
      mkResponse 200 (JMessageTask "Task status updated" x') ∧
    Task.status x' = s ∧
    getTaskById reqR (taskController.updateTaskStatus req now st).2 =
      mkResponse 200 (JTask x') ∧
    x' ∈ tasks_of (createdEventController.filterTasks reqF
                     (taskController.updateTaskStatus req now st).2) ∧
    ∀ y, y ∈ tasks_of (createdEventController.filterTasks reqF'
                         (taskController.updateTaskStatus req now st).2) →
         Task._id y ≠ ObjectId_cast id.
Proof.
  intros Hids Hok Hid Hs Hin HR HF HFa HF' HFa' Hin' Hne.
  destruct (updateTaskStatus_cases req now st)
    as [[Hno _]|(id0 & s0 & x & Hid0 & Hs0 & _ & Hv & Hx & Heq)]; [lia|].
  rewrite Hid in Hid0. injection Hid0 as <-.
  rewrite Hs in Hs0. injection Hs0 as <-.
  eexists. rewrite Heq. simpl.
  split; [reflexivity|]. split; [reflexivity|]. split; [|split].
  - unfold getTaskById, findById. rewrite HR. simpl. rewrite Hv. simpl.
    by rewrite lookup_insert_eq.
  - apply (filterTasks_status_elem_of reqF _ s); [done..|].
    split; [done|]. exists (ObjectId_cast id). simpl. apply lookup_insert_eq.
  - intros y Hy Hyid.
    apply (filterTasks_status_elem_of reqF' _ s') in Hy as [Hst [id' Hy]];
      [|done..].
    simpl in Hy. apply lookup_insert_Some in Hy as [[<- <-]|[Hne' Hy]].
    + simpl in Hst. congruence.
    + apply Hids in Hy. congruence.
Qed.
End round_trips.

Lemma comment_then_read_witness :
  let req :=
    Fixture.request [("user-email", "dev@firm.com")] [("taskId", Fixture.id1)] []
      [("message", "Started")] in
  let reqR := Fixture.request [] [("id", Fixture.id1)] [] [] in
  let after := (@addComment Fixture.mongoose AssigneeComments req 2000 Fixture.store1).2 in
  ∃ x x' c,
    Tasks Fixture.store1 !! Fixture.id1 = Some x ∧
    (@addComment Fixture.mongoose AssigneeComments req 2000 Fixture.store1).1 =
      mkResponse 201 (JMessageTask "Comment added successfully" x') ∧
    @getTaskDetails Fixture.mongoose reqR after = mkResponse 200 (JTask x') ∧
    @getTaskComments Fixture.mongoose reqR after =
      (200, JComments (Task.comments x ++ [c])) ∧
    Task.comments x' = Task.comments x ++ [c] ∧
    Comment.timestamp c = 2000.
Proof.
  intros req reqR after.
  apply (@comment_then_read Fixture.mongoose AssigneeComments req reqR 2000
           Fixture.store1 Fixture.id1).
  - apply store1_ids_consistent.
  - reflexivity.
  - reflexivity.
  - reflexivity.
Defined.

Lemma status_then_read_witness :
  let req :=
    Fixture.request [] [("taskId", Fixture.id1)] [] [("status", "Completed")] in
  let reqR := Fixture.request [] [("taskId", Fixture.id1)] [] [] in
  let reqF := Fixture.request [] [] [("status", "Completed")] [] in
  let reqF' := Fixture.request [] [] [("status", "Pending")] [] in
  let after := (@taskController.updateTaskStatus Fixture.mongoose req 2000 Fixture.store1).2 in
  ∃ x',
    (@taskController.updateTaskStatus Fixture.mongoose req 2000 Fixture.store1).1 =
      mkResponse 200 (JMessageTask "Task status updated" x') ∧
    Task.status x' = "Completed" ∧
    @getTaskById Fixture.mongoose reqR after = mkResponse 200 (JTask x') ∧
    x' ∈ tasks_of (@createdEventController.filterTasks Fixture.mongoose reqF after) ∧
    ∀ y, y ∈ tasks_of (@createdEventController.filterTasks Fixture.mongoose reqF' after) →
         Task._id y ≠ Fixture.id1.
Proof.
  intros req reqR reqF reqF' after.
  apply (@status_then_read Fixture.mongoose req reqR reqF reqF' 2000 Fixture.store1
           Fixture.id1 "Completed" "Pending");
    try reflexivity; try discriminate.
  - apply store1_ids_consistent.
  - unfold Task.status_enum. do 2 right. left.
  - unfold Task.status_enum. left.
Defined.

(** ** Page numbers *)

Section paging.
Context `{Mongoose}.

#[local] Instance deadline_then_createdAt_trans :
  Transitive deadline_then_createdAt.
Proof.
  intros x y z. unfold deadline_then_createdAt.
  destruct (Task.deadline x), (Task.deadline y), (Task.deadline z);
    try tauto; lia.
Qed.

Lemma deadline_then_createdAt_antisym x y :
  deadline_then_createdAt x y → deadline_then_createdAt y x →
  Task.deadline x = Task.deadline y ∧ Task.createdAt x = Task.createdAt y.
Proof.
  unfold deadline_then_createdAt.
  destruct (Task.deadline x), (Task.deadline y); try tauto.
  - intros [?|[-> ?]] [?|[? ?]]; try lia. split; [done|lia].
  - intros ? ?. split; [done|lia].
Qed.

(** When no two of the tasks have both the same deadline and the same
    creation time, there is one way only to put them in order. *)
Lemma sorted_unique (l1 l2 : list Task.t) :
  (∀ x y, x ∈ l1 → y ∈ l1 →
          Task.deadline x = Task.deadline y →
          Task.createdAt x = Task.createdAt y → x = y) →
  Sorted deadline_then_createdAt l1 → Sorted deadline_then_createdAt l2 →
  l1 ≡ₚ l2 → l1 = l2.
Proof.
  intros Hkeys Hs1 Hs2. apply Sorted_StronglySorted in Hs1; [|apply _].
  apply Sorted_StronglySorted in Hs2; [|apply _].
  revert l2 Hs2. induction Hs1 as [|x l1 _ IH Hx]; intros l2 Hs2 Hperm.
  { by apply Permutation_nil_l in Hperm. }
  destruct Hs2 as [|y l2 Hs2 Hy].
  { by apply Permutation_nil_r in Hperm. }
  assert (x = y) as <-.
  { assert (y ∈ x :: l1) as Hyin by (rewrite Hperm; left).
    assert (x ∈ y :: l2) as Hxin by (rewrite <-Hperm; left).
    apply elem_of_cons in Hyin as [->|Hyin]; [done|].
    apply elem_of_cons in Hxin as [->|Hxin]; [done|].
    rewrite Forall_forall in Hx, Hy.
    destruct (deadline_then_createdAt_antisym x y (Hx y Hyin) (Hy x Hxin)).
    apply Hkeys; [left|by right|done..]. }
  f_equal. apply IH; [|done|by apply Permutation_cons_inv in Hperm].
  intros a b Ha Hb. apply Hkeys; by right.
Qed.

(** X10: when no two tasks of the creator have both the same deadline
    and the same creation time, the pages of the creator task list tile
    the sorted list: the pages 1 to k, requested with the decimal page
    numbers, put end to end are the first 10 * k tasks of the creator in
    the order (deadline, creation time), hence all of them once 10 * k
    reaches their number; no task is skipped or repeated. (The order of
    two tasks with the same deadline and creation time is the choice of
    the server at each query.) *)
Theorem getTasks_pages_tile
    (reqs : nat → Request) (st : Store) (email : string) (k : nat)
    (sorted : list Task.t) :
  email ≠ "" →
  (∀ n, headers (reqs n) !! "user-email" = Some email ∧
        query (reqs n) !! "page" = Some (pretty n)) →
  Z.of_nat k < 2 ^ 53 →
  Sorted deadline_then_createdAt sorted →
  sorted ≡ₚ filter (λ x, Task.creator x = email) (map_to_list (Tasks st)).*2 →
  (∀ x y, x ∈ sorted → y ∈ sorted →
          Task.deadline x = Task.deadline y →
          Task.createdAt x = Task.createdAt y → x = y) →
  mjoin ((λ n, tasks_of (createdEventController.getTasks (reqs n) st)) <$> seq 1 k)
    = take (10 * k) sorted ∧
  ((length sorted ≤ 10 * k)%nat →
   mjoin ((λ n, tasks_of (createdEventController.getTasks (reqs n) st)) <$> seq 1 k)
     = sorted).
Proof.
  intros Hne Hreqs Hk Hsorted Hperm Hkeys.
  assert (Hpages :
    mjoin ((λ n, tasks_of (createdEventController.getTasks (reqs n) st)) <$> seq 1 k)
      = take (10 * k) sorted).
  { induction k as [|k IH]; [done|].
    rewrite seq_S, fmap_app, join_app, IH by lia. simpl.
    destruct (Hreqs (S k)) as [Hh Hq].
    destruct (getTasks_page (reqs (S k)) st email (Z.of_nat (S k)) Hh Hne)
      as (page & Hs & Hp & ->).
    { unfold pretty, pretty_nat in Hq. rewrite Hq, parseInt_pretty by lia.
      rewrite num_or_nonzero; lia. }
    { lia. }
    assert (page = sorted) as ->.
    { symmetry. apply sorted_unique; [done..|]. by rewrite Hp. }
    unfold tasks_of. simpl. rewrite app_nil_r.
    replace (Z.to_nat ((Z.of_nat (S k) - 1) * 10)) with (10 * k)%nat by lia.
    rewrite take_take_drop. f_equal. lia. }
  split; [done|]. intros Hlen. rewrite Hpages. by apply take_ge.
Qed.

(** X11: a page parameter that is absent, is not a number, or is 0
    selects the first page. *)
Theorem getTasks_default_page (req req1 : Request) (st : Store) (email : string) :
  headers req !! "user-email" = Some email →
  headers req1 !! "user-email" = Some email →
  email ≠ "" →
  JS.parseInt (query req !! "page") = None ∨
  JS.parseInt (query req !! "page") = Some 0 →
  query req1 !! "page" = Some "1" →
  createdEventController.getTasks req st = createdEventController.getTasks req1 st.
Proof.
  intros Hh Hh1 Hne Hpage H1.
  rewrite (getTasks_skip req st email), (getTasks_skip req1 st email) by done.
  rewrite H1. by destruct Hpage as [-> | ->].
Qed.

(** X12: a negative page parameter makes the skip negative; the query is
    rejected and both paginated listings answer 500 with the message of
    the error. *)
Theorem negative_page_is_500 (req : Request) (st : Store) (email : string) (p : Z) :
  headers req !! "user-email" = Some email → email ≠ "" →
  JS.parseInt (query req !! "page") = Some p → p < 0 →
  createdEventController.getTasks req st =
    mkResponse 500
      (JMessage ("Error fetching tasks: " +:+
                 error_message (MongoServerError ((p - 1) * 10)))) ∧
  createdEventController.getEventsByCreator req st =
    mkResponse 500
      (JMessage ("Error fetching events: " +:+
                 error_message (MongoServerError ((p - 1) * 10)))).
Proof.
  intros Hh Hne Hp Hneg.
  rewrite (getTasks_skip req st email), (getEventsByCreator_skip req st email)
    by done.
  rewrite Hp, num_or_nonzero by lia. cbv zeta.
  destruct (Z.ltb_spec ((p - 1) * 10) 0); [done|lia].
Qed.

(** X13: a page past the end is an empty array with status 200 for the
    creator task list, but a 404 for the created-events list, even though
    the creator has events. *)
Theorem page_past_the_end (req : Request) (st : Store) (email : string) (p : Z) :
  headers req !! "user-email" = Some email → email ≠ "" →
  JS.parseInt (query req !! "page") = Some p → 1 ≤ p →
  (Z.of_nat (length (matching (Tasks st)
                      (λ x, String.eqb (Task.creator x) email))) ≤ (p - 1) * 10 →
   createdEventController.getTasks req st = mkResponse 200 (JTasks [])) ∧
  (Z.of_nat (length (matching (Events st)
                      (λ e, String.eqb (Event.creator e) email))) ≤ (p - 1) * 10 →
   createdEventController.getEventsByCreator req st =
     mkResponse 404 (JMessage "No events found for this creator")).
Proof.
  intros Hh Hne Hp Hpos.
  rewrite (getTasks_skip req st email), (getEventsByCreator_skip req st email)
    by done.
  rewrite Hp, num_or_nonzero by lia. cbv zeta.
  destruct (Z.ltb_spec ((p - 1) * 10) 0); [lia|].
  split; intros Hlen.
  - rewrite drop_ge; [done|]. rewrite sorted_scan_Permutation.
    cbn [q_coll q_filter find sort skip limit]. lia.
  - rewrite drop_ge; [done|]. rewrite sorted_scan_Permutation.
    cbn [q_coll q_filter find sort skip limit]. lia.
Qed.
End paging.

Lemma store26_tasks x :
  x ∈ filter (λ x, Task.creator x = "manager@firm.com")
        (map_to_list (Tasks Fixture2.store26)).*2 →
  ∃ i, x = Fixture.task_n i.
Proof.
  intros [_ Hx]%list_elem_of_filter.
  apply list_elem_of_fmap in Hx as ([id x'] & -> & Hx).
  apply elem_of_map_to_list in Hx.
  apply (elem_of_list_to_map_2 (M := gmap string)) in Hx.
  apply list_elem_of_fmap in Hx as (i & Heq & _). exists i. by simplify_eq.
Qed.

Lemma getTasks_pages_tile_witness :
  let reqs := λ n : nat, Fixture2.page_request (pretty n) in
  let sorted :=
    sorted_by (Some by_deadline_createdAt)
      (filter (λ x, Task.creator x = "manager@firm.com")
         (map_to_list (Tasks Fixture2.store26)).*2) in
  length sorted = 25%nat ∧
  mjoin ((λ n, tasks_of (@createdEventController.getTasks Fixture.mongoose
                           (reqs n) Fixture2.store26)) <$> seq 1 3)
    = take 30 sorted ∧
  mjoin ((λ n, tasks_of (@createdEventController.getTasks Fixture.mongoose
                           (reqs n) Fixture2.store26)) <$> seq 1 3)
    = sorted.
Proof.
  intros reqs sorted.
  assert (length sorted = 25%nat) as Hlen by (clear; by vm_compute).
  destruct (@getTasks_pages_tile Fixture.mongoose reqs Fixture2.store26
              "manager@firm.com" 3 sorted) as [Htile Hall].
  - discriminate.
  - intros n. unfold reqs, Fixture2.page_request, Fixture.request.
    cbn [headers query]. rewrite !list_to_map_cons, !list_to_map_nil.
    split; apply lookup_insert_eq.
  - lia.
  - apply sorted_by_Sorted.
  - apply sorted_by_Permutation.
  - intros x y Hx Hy _ Hcreated.
    unfold sorted in Hx, Hy. rewrite sorted_by_Permutation in Hx, Hy.
    apply store26_tasks in Hx as [i ->]. apply store26_tasks in Hy as [j ->].
    simpl in Hcreated. by replace j with i by lia.
  - split; [exact Hlen|]. split; [exact Htile|]. apply Hall. rewrite Hlen. lia.
Defined.

(** Without the condition on the deadlines and creation times the pages
    need not tile: with eleven tasks that the sort does not tell apart
    and a server that meets them in another order for the second page,
    the task of the second page is the first of the first page, and one
    task is on no page. *)
Example pages_with_ties_overlap :
  let page n :=
    tasks_of (@createdEventController.getTasks Fixture2.reversing
                (Fixture2.page_request n) Fixture2.store_tied) in
  length (page "1") = 10%nat ∧
  page "2" = [Fixture2.tied 10] ∧
  head (page "1") = Some (Fixture2.tied 10) ∧
  Tasks Fixture2.store_tied !! Task._id (Fixture2.tied 0) = Some (Fixture2.tied 0) ∧
  Task._id (Fixture2.tied 0) ∉ Task._id <$> page "1" ++ page "2".
Proof.
  intros page. split; [by vm_compute|]. split; [by vm_compute|].
  split; [by vm_compute|]. split; [by vm_compute|].
  apply (bool_decide_unpack _). by vm_compute.
Qed.

Lemma getTasks_default_page_witness :
  @createdEventController.getTasks Fixture.mongoose
    (Fixture2.page_request "first") Fixture2.store26 =
  @createdEventController.getTasks Fixture.mongoose
    (Fixture2.page_request "1") Fixture2.store26.
Proof.
  apply (@getTasks_default_page Fixture.mongoose _ _ _ "manager@firm.com");
    try reflexivity.
  - discriminate.
  - left. reflexivity.
Defined.

Lemma negative_page_is_500_witness :
  @createdEventController.getTasks Fixture.mongoose
    (Fixture2.page_request "-1") Fixture2.store26 =
    mkResponse 500
      (JMessage ("Error fetching tasks: " +:+
                 @error_message Fixture.mongoose (MongoServerError (-20)))) ∧
  @createdEventController.getEventsByCreator Fixture.mongoose
    (Fixture2.page_request "-1") Fixture2.store26 =
    mkResponse 500
      (JMessage ("Error fetching events: " +:+
                 @error_message Fixture.mongoose (MongoServerError (-20)))).
Proof.
  apply (@negative_page_is_500 Fixture.mongoose
           (Fixture2.page_request "-1") Fixture2.store26 "manager@firm.com" (-1)).
  - reflexivity.
  - discriminate.
  - reflexivity.
  - lia.
Defined.

Lemma page_past_the_end_witness :
  @createdEventController.getTasks Fixture.mongoose
    (Fixture2.page_request "4") Fixture2.store26 = mkResponse 200 (JTasks []) ∧
  @createdEventController.getEventsByCreator Fixture.mongoose
    (Fixture2.page_request "2") Fixture2.store26 =
    mkResponse 404 (JMessage "No events found for this creator") ∧
  matching (Events Fixture2.store26)
    (λ e, String.eqb (Event.creator e) "manager@firm.com") = [Fixture.event1].
Proof.
  split; [|split].
  - apply (@page_past_the_end Fixture.mongoose
             (Fixture2.page_request "4") Fixture2.store26 "manager@firm.com" 4);
      [reflexivity|discriminate|reflexivity|lia|by vm_compute].
  - apply (@page_past_the_end Fixture.mongoose
             (Fixture2.page_request "2") Fixture2.store26 "manager@firm.com" 2);
      [reflexivity|discriminate|reflexivity|lia|by vm_compute].
  - by vm_compute.
Defined.

(** ** The credential *)

Section credential.
Context `{Mongoose} `{Jwt}.

Lemma replace_unfold pat rep s :
  JS.replace pat rep s =
    if String.prefix pat s
    then rep +:+ String.substring (String.length pat)
                   (String.length s - String.length pat) s
    else match s with
         | String c s' => String c (JS.replace pat rep s')
         | EmptyString => EmptyString
         end.
Proof. by destruct s. Qed.

Lemma prefix_append pat s : String.prefix pat (pat +:+ s) = true.
Proof.
  induction pat as [|c pat IH]; simpl; [by destruct s|].
  destruct (Ascii.ascii_dec c c); [done|congruence].
Qed.

Lemma substring_all s : String.substring 0 (String.length s) s = s.
Proof. induction s as [|c s IH]; simpl; [done|]. by rewrite IH. Qed.

Lemma substring_append pat s n :
  String.substring (String.length pat) n (pat +:+ s) = String.substring 0 n s.
Proof. induction pat as [|c pat IH]; simpl; [done|]. apply IH. Qed.

Lemma length_append (s1 s2 : string) :
  String.length (s1 +:+ s2) = (String.length s1 + String.length s2)%nat.
Proof. induction s1 as [|c s1 IH]; simpl; [done|]. by rewrite IH. Qed.

(** Replacing a pattern at the head of a text. *)
Lemma replace_prefix pat rep s : JS.replace pat rep (pat +:+ s) = rep +:+ s.
Proof.
  rewrite replace_unfold, prefix_append, substring_append, length_append.
  replace (String.length pat + String.length s - String.length pat)%nat
    with (String.length s) by lia.
  by rewrite substring_all.
Qed.

(** X14: the middleware reads the token from the cookie when there is
    one, and only otherwise from the [Authorization] header, of which it
    drops a leading "Bearer "; a request carrying a token in the cookie
    and a request carrying the same token in the header are decided
    alike. *)
Theorem token_from_cookie_or_header
    (reqC reqH : Request) (st : Store) (jar : gmap string string) (t : string) :
  cookies reqC = Some jar → jar !! "token" = Some t → t ≠ "" →
  JS.truthy (cookies reqH ≫= (.!! "token")) = false →
  headers reqH !! "authorization" = Some ("Bearer " +:+ t) →
  authenticateUser.token_of reqC = Some t ∧
  authenticateUser.token_of reqH = Some t ∧
  auth_outcome (authenticateUser.authenticateUser reqC st) =
    auth_outcome (authenticateUser.authenticateUser reqH st).
Proof.
  intros Hjar Ht Hne Hnone Hhead.
  assert (HC : authenticateUser.token_of reqC = Some t).
  { unfold authenticateUser.token_of, JS.or_else. rewrite Hjar. simpl.
    rewrite Ht. by rewrite truthy_Some. }
  assert (HH : authenticateUser.token_of reqH = Some t).
  { unfold authenticateUser.token_of, JS.or_else, header. rewrite Hnone.
    change (JS.toLowerCase "Authorization") with "authorization".
    rewrite Hhead. simpl. f_equal. apply (replace_prefix "Bearer " "" t). }
  split; [done|]. split; [done|].
  unfold authenticateUser.authenticateUser. rewrite HC, HH.
  rewrite truthy_Some by done. simpl.
  destruct (jwt_verify t authenticateUser.JWT_SECRET) as [e|id]; [done|].
  by destruct (findById (Employees st) id) as [e|[employee|]].
Qed.

(** X15: a token that verifies and decodes to the id of a stored
    employee (the one whose [_id] is the ObjectId it denotes) lets the
    request through: the handler runs on the request
    with the id, email, name, role and team of that employee attached,
    and nothing else of the request changed. *)
Theorem authenticateUser_accepts
    (handler : Request → Z → Store → Response * Store)
    (req : Request) (now : Z) (st : Store) (t i : string) (e : Employee.t) :
  authenticateUser.token_of req = Some t → t ≠ "" →
  jwt_verify t authenticateUser.JWT_SECRET = inr (Some i) →
  ObjectId_isValid i = true →
  Employees st !! ObjectId_cast i = Some e →
  ∃ req',
    authenticateUser.authenticateUser req st = Next req' ∧
    authenticateUser.guarded handler req now st = handler req' now st ∧
    user req' =
      Some (mkAuthUser (Employee._id e) (Employee.email e) (Employee.name e)
              (Employee.role e) (Employee.team e)) ∧
    headers req' = headers req ∧ cookies req' = cookies req ∧
    params req' = params req ∧ query req' = query req ∧ body req' = body req.
Proof.
  intros Htok Hne Hjwt Hv He.
  eexists. unfold authenticateUser.guarded, authenticateUser.authenticateUser.
  rewrite Htok, truthy_Some by done. simpl. rewrite Hjwt. simpl.
  rewrite Hv, He. by repeat split.
Qed.
End credential.

Lemma token_from_cookie_or_header_witness :
  let reqC := Fixture2.cookie_request [("token", "valid.token")] in
  let reqH := Fixture.request [("authorization", "Bearer valid.token")] [] [] [] in
  authenticateUser.token_of reqC = Some "valid.token" ∧
  authenticateUser.token_of reqH = Some "valid.token" ∧
  auth_outcome (@authenticateUser.authenticateUser Fixture.mongoose Fixture.jwt
                  reqC Fixture2.store27) =
  auth_outcome (@authenticateUser.authenticateUser Fixture.mongoose Fixture.jwt
                  reqH Fixture2.store27).
Proof.
  intros reqC reqH.
  apply (@token_from_cookie_or_header Fixture.mongoose Fixture.jwt reqC reqH
           Fixture2.store27 (list_to_map [("token", "valid.token")]) "valid.token");
    try reflexivity.
  discriminate.
Defined.

Lemma authenticateUser_accepts_witness :
  let handler : Request → Z → Store → Response * Store :=
    λ request _ st,
      (mkResponse 200 (JMessage (default "" (user_email <$> user request))), st) in
  let req := Fixture2.cookie_request [("token", "valid.token")] in
  ∃ req',
    @authenticateUser.authenticateUser Fixture.mongoose Fixture.jwt req
      Fixture2.store27 = Next req' ∧
    @authenticateUser.guarded Fixture.mongoose Fixture.jwt handler req 2000
      Fixture2.store27 = handler req' 2000 Fixture2.store27 ∧
    user req' =
      Some (mkAuthUser "65f0a1b2c3d4e5f601234567" "dev@firm.com" "Dev"
              "employee" "General") ∧
    headers req' = headers req ∧ cookies req' = cookies req ∧
    params req' = params req ∧ query req' = query req ∧ body req' = body req.
Proof.
  intros handler req.
  apply (@authenticateUser_accepts Fixture.mongoose Fixture.jwt handler req 2000
           Fixture2.store27 "valid.token" "65f0a1b2c3d4e5f601234567"
           Fixture2.employee1);
    try reflexivity.
  discriminate.
Defined.

(** ** Counts of the compiled report *)

Section report_sums.
Import ReportsHome.

Lemma set_fresh k r acc : get k acc = None → set k r acc = acc ++ [(k, r)].
Proof.
  induction acc as [|[k' r'] acc IH]; simpl; [done|].
  destruct (String.eqb_spec k' k); [done|]. intros Hget. by rewrite IH.
Qed.

Lemma set_existing k r r' acc :
  get k acc = Some r →
  ∃ l1 l2, acc = l1 ++ (k, r) :: l2 ∧ set k r' acc = l1 ++ (k, r') :: l2.
Proof.
  induction acc as [|[k' r0] acc IH]; simpl; [done|].
  destruct (String.eqb_spec k' k) as [->|Hne].
  - intros [= ->]. by exists [], acc.
  - intros Hget. destruct (IH Hget) as (l1 & l2 & -> & ->).
    by exists ((k', r0) :: l1), l2.
Qed.

Lemma total_count_app l1 l2 :
  total_count (l1 ++ l2) = total_count l1 + total_count l2.
Proof.
  unfold total_count. induction l1 as [|r l1 IH]; simpl; [done|].
  rewrite IH. lia.
Qed.

Lemma selected_rows_app sel l1 l2 :
  selected_rows sel (l1 ++ l2) = selected_rows sel l1 ++ selected_rows sel l2.
Proof. apply filter_app. Qed.

Lemma selected_rows_singleton sel r :
  selected_rows sel [r] =
    if sel (row_year r) (row_eventType r) then [r] else [].
Proof.
  unfold selected_rows.
  destruct (sel (row_year r) (row_eventType r)) eqn:Hsel.
  - rewrite filter_cons_True; [done|]. by rewrite Hsel.
  - rewrite filter_cons_False; [done|]. rewrite Hsel. simpl. tauto.
Qed.

Lemma selected_rows_cons sel r l :
  selected_rows sel (r :: l) =
    (if sel (row_year r) (row_eventType r) then [r] else []) ++ selected_rows sel l.
Proof.
  rewrite <-selected_rows_singleton. apply (selected_rows_app sel [r] l).
Qed.

(** The callback on a key already there, and on a new key. *)
Lemma step_existing acc cur r :
  get (key_of (year cur) (eventType cur)) acc = Some r →
  step acc cur =
    set (key_of (year cur) (eventType cur))
      {| row_year := row_year r; row_team := row_team r;
         row_eventType := row_eventType r;
         row_eventCount := row_eventCount r + 1;
         row_eventNames :=
           if JS.truthy (eventName cur)
           then row_eventNames r ++ [default "" (eventName cur)]
           else row_eventNames r;
         row_totalBudget :=
           (row_totalBudget r + JS.float_or (totalBudget cur) 0)%float |}
      acc.
Proof. intros Hget. unfold step. rewrite Hget. cbv zeta iota. by rewrite Hget. Qed.

Lemma set_snoc k r r' acc :
  get k acc = None → set k r' (acc ++ [(k, r)]) = acc ++ [(k, r')].
Proof.
  induction acc as [|[k' r0] acc IH]; simpl.
  - by rewrite String.eqb_refl.
  - destruct (String.eqb_spec k' k); [done|]. intros Hget. by rewrite IH.
Qed.

Lemma step_fresh acc cur :
  get (key_of (year cur) (eventType cur)) acc = None →
  step acc cur =
    acc ++
    [(key_of (year cur) (eventType cur),
      {| row_year := year cur;
         row_team := default "" (JS.or_else (team cur) (Some "N/A"));
         row_eventType := eventType cur;
         row_eventCount := 0 + 1;
         row_eventNames :=
           if JS.truthy (eventName cur)
           then [] ++ [default "" (eventName cur)]
           else [];
         row_totalBudget := (0 + JS.float_or (totalBudget cur) 0)%float |})].
Proof.
  intros Hget. unfold step. rewrite Hget. cbv zeta iota.
  rewrite get_set_eq, (set_fresh _ _ acc Hget). by rewrite set_snoc.
Qed.

(** One more entry adds one to the count of the rows that select it,
    and nothing to the others. *)
Lemma step_totals sel acc cur :
  (∀ k r, (k, r) ∈ acc → k = key_of (row_year r) (row_eventType r)) →
  total_count (selected_rows sel (step acc cur).*2) =
    total_count (selected_rows sel acc.*2) +
    (if sel (year cur) (eventType cur) then 1 else 0).
Proof.
  intros Hkeys.
  destruct (get (key_of (year cur) (eventType cur)) acc) as [r|] eqn:Hget.
  - rewrite (step_existing acc cur r Hget).
    assert (row_year r = year cur ∧ row_eventType r = eventType cur) as [Hy Hty].
    { apply get_Some_elem_of, Hkeys in Hget.
      by apply key_of_inj in Hget as [-> ->]. }
    edestruct (set_existing (key_of (year cur) (eventType cur)) r)
      as (l1 & l2 & Hacc & Hset); [done|].
    rewrite Hset, Hacc, !fmap_app, !fmap_cons. cbn [snd].
    rewrite !selected_rows_app, !selected_rows_cons.
    cbn [row_year row_eventType]. rewrite Hy, Hty.
    rewrite !total_count_app.
    destruct (sel (year cur) (eventType cur)); simpl; lia.
  - rewrite (step_fresh acc cur Hget).
    rewrite !fmap_app, !selected_rows_app.
    change ([(key_of (year cur) (eventType cur), ?r)].*2) with [r].
    rewrite !selected_rows_singleton. cbn [row_year row_eventType].
    rewrite !total_count_app.
    destruct (sel (year cur) (eventType cur)); simpl; lia.
Qed.

Lemma aggregatedData_keys data k r :
  (k, r) ∈ aggregatedData data → k = key_of (row_year r) (row_eventType r).
Proof.
  intros Hin. by apply aggregatedData_elem_of in Hin as (first & _ & -> & ->).
Qed.

Lemma length_selected_snoc sel data cur :
  Z.of_nat (length (selected_entries sel (data ++ [cur]))) =
    Z.of_nat (length (selected_entries sel data)) +
    (if sel (year cur) (eventType cur) then 1 else 0).
Proof.
  unfold selected_entries. rewrite filter_app, length_app.
  destruct (sel (year cur) (eventType cur)) eqn:Hsel.
  - rewrite filter_cons_True by (by rewrite Hsel). simpl. lia.
  - rewrite filter_cons_False by (rewrite Hsel; simpl; tauto). simpl. lia.
Qed.

(** For every selection of years and event types, the rows selected
    count exactly the entries selected. *)
Lemma selected_totals sel data :
  total_count (selected_rows sel (finalData data)) =
    Z.of_nat (length (selected_entries sel data)).
Proof.
  unfold finalData. induction data as [|cur data IH] using rev_ind; [done|].
  rewrite aggregatedData_snoc, length_selected_snoc.
  rewrite (step_totals sel (aggregatedData data) cur (aggregatedData_keys data)).
  by rewrite IH.
Qed.

Lemma filter_Is_true_true {A} (l : list A) :
  filter (λ _ : A, Is_true true) l = l.
Proof.
  induction l as [|x l IH]; [done|].
  rewrite filter_cons_True by done. by rewrite IH.
Qed.

(** X16: the compiled report loses and invents no entry: the counts of
    its rows add up to the number of entries, and this holds year by
    year and event type by event type, so that the rows of one year, or
    of one event type, count the entries of that year, or of that type. *)
Theorem report_totals (data : list Entry) (y : N) (ty : string) :
  total_count (finalData data) = Z.of_nat (length data) ∧
  total_count (filter (λ r, row_year r = y) (finalData data)) =
    Z.of_nat (length (filter (λ e, year e = y) data)) ∧
  total_count (filter (λ r, row_eventType r = ty) (finalData data)) =
    Z.of_nat (length (filter (λ e, eventType e = ty) data)).
Proof.
  pose proof (selected_totals (λ _ _, true) data) as Hall.
  pose proof (selected_totals (λ y' _, bool_decide (y' = y)) data) as Hyear.
  pose proof (selected_totals (λ _ ty', bool_decide (ty' = ty)) data) as Htype.
  unfold selected_rows, selected_entries in *.
  rewrite !filter_Is_true_true in Hall.
  split; [done|]. split.
  - rewrite (list_filter_iff (λ r, row_year r = y)
               (λ r, Is_true (bool_decide (row_year r = y))))
      by (intros; by rewrite bool_decide_spec).
    rewrite (list_filter_iff (λ e, year e = y)
               (λ e, Is_true (bool_decide (year e = y))))
      by (intros; by rewrite bool_decide_spec).
    done.
  - rewrite (list_filter_iff (λ r, row_eventType r = ty)
               (λ r, Is_true (bool_decide (row_eventType r = ty))))
      by (intros; by rewrite bool_decide_spec).
    rewrite (list_filter_iff (λ e, eventType e = ty)
               (λ e, Is_true (bool_decide (eventType e = ty))))
      by (intros; by rewrite bool_decide_spec).
    done.
Qed.

(** X17: each row of the compiled report carries the team of the first
    entry of its group ("N/A" when that entry has none) and the names of
    the entries of the group that have one, in their order in the data. *)
Theorem report_row_details (data : list Entry) (r : Row) :
  r ∈ finalData data →
  ∃ first rest,
    group_of (row_year r) (row_eventType r) data = first :: rest ∧
    row_team r = default "" (JS.or_else (team first) (Some "N/A")) ∧
    row_eventNames r = names_of (first :: rest).
Proof.
  intros Hr. unfold finalData in Hr.
  apply list_elem_of_fmap in Hr as ([key r'] & -> & Hin).
  apply get_elem_of in Hin; [|apply aggregatedData_keys_NoDup].
  rewrite aggregatedData_get in Hin.
  destruct (keyed key data) as [|first rest] eqn:Hg; [done|].
  assert (first ∈ keyed key data) as Hfirst by (rewrite Hg; left).
  apply list_elem_of_filter in Hfirst as [Hkey _].
  injection Hin as <-. exists first, rest. simpl.
  by rewrite <-keyed_group, Hkey, Hg.
Qed.
End report_sums.

Lemma report_row_details_witness :
  let data :=
    [ ReportsHome.mkEntry 2024 "firm-wide" 1000 None (Some "Kickoff");
      ReportsHome.mkEntry 2023 "team-specific" nan (Some "Ops") None;
      ReportsHome.mkEntry 2024 "firm-wide" 500 (Some "Sales") (Some "Gala") ] in
  let r := ReportsHome.mkRow 2024 "N/A" "firm-wide" 2 ["Kickoff"; "Gala"] 1500 in
  r ∈ ReportsHome.finalData data ∧
  ∃ first rest,
    ReportsHome.group_of 2024 "firm-wide" data = first :: rest ∧
    ReportsHome.row_team r =
      default "" (JS.or_else (ReportsHome.team first) (Some "N/A")) ∧
    ReportsHome.row_eventNames r = ReportsHome.names_of (first :: rest).
Proof.
  intros data r.
  assert (Hr : r ∈ ReportsHome.finalData data) by (vm_compute; left).
  split; [exact Hr|]. apply (report_row_details data r Hr).
Defined.

(** * Properties of the browser side *)

(** ** The assignee's client *)

Section client.
Context `{Mongoose}.

(** X18: the client function that lists the tasks of the assignee undoes
    the 404 of the server: for every non-empty email it returns what the
    query of the server gives, the assignee's tasks (the stored tasks
    whose assignee is the email) in the order (deadline, creation time),
    the empty array included; without an email it returns the empty
    array. *)
Theorem fetchTasks_lists_assigned (userEmail : option string) (st : Store) :
  let sorted :=
    sorted_by (Some by_deadline_createdAt)
      (scan (find (Tasks st)
               (λ x, String.eqb (Task.assignee x) (default "" userEmail))
             |> sort by_deadline_createdAt)) in
  api.fetchTasks userEmail st =
    (if JS.truthy userEmail then JTasks sorted else JTasks []) ∧
  Sorted deadline_then_createdAt sorted ∧
  sorted ≡ₚ filter (λ x, Task.assignee x = default "" userEmail)
              (map_to_list (Tasks st)).*2.
Proof.
  intros sorted. split; [|split].
  - unfold api.fetchTasks.
    destruct (JS.truthy userEmail) eqn:Hemail; simpl; [|done].
    apply truthy_inv in Hemail as (email & -> & Hne).
    unfold taskController.getTasksByAssignee. cbn [headers].
    rewrite lookup_singleton_eq, truthy_Some by done. cbn [negb default].
    unfold exec. cbn [q_skip q_sort q_limit find sort Z.ltb Z.compare Z.to_nat].
    rewrite drop_0. subst sorted. cbn [default].
    by destruct (sorted_by _ _).
  - apply sorted_by_Sorted.
  - unfold sorted. rewrite sorted_scan_Permutation.
    cbn [q_coll q_filter find sort]. by rewrite matching_eqb.
Qed.
End client.

Lemma fetchTasks_lists_assigned_witness :
  ∃ sorted,
    @api.fetchTasks Fixture.mongoose (Some "dev@firm.com") Fixture.store25 =
      JTasks sorted ∧
    Sorted deadline_then_createdAt sorted ∧
    length sorted = 25%nat ∧
    @api.fetchTasks Fixture.mongoose (Some "nobody@firm.com") Fixture.store25 =
      JTasks [] ∧
    @api.fetchTasks Fixture.mongoose None Fixture.store25 = JTasks [].
Proof.
  destruct (@fetchTasks_lists_assigned Fixture.mongoose (Some "dev@firm.com")
              Fixture.store25) as (Hfetch & Hsorted & Hperm).
  eexists. split; [exact Hfetch|]. split; [exact Hsorted|].
  split; [rewrite Hperm; clear; by vm_compute|].
  split; [by vm_compute|].
  exact (proj1 (@fetchTasks_lists_assigned Fixture.mongoose None Fixture.store25)).
Defined.

(** ** The tasks of an event, as the creator's pages hold them *)

Section event_tasks.
Context `{Mongoose}.

Lemma getTasksByEventID_query (eventID : string) (st : Store) :
  getTasksByEventID
    {| headers := ∅; cookies := None; params := ∅;
       query := {[ "eventID" := eventID ]}; body := ∅; user := None |} st =
    if ObjectId_isValid eventID
    then mkResponse 200
           (JTasks
              (scan (find (Tasks st)
                       (λ x, String.eqb (Task.eventID x) (ObjectId_cast eventID)))))
    else mkResponse 400 (JError "Invalid eventID format").
Proof.
  unfold getTasksByEventID. cbn [query]. rewrite lookup_singleton_eq.
  change (default "" (Some eventID)) with eventID.
  rewrite bool_decide_eq_true_2 by eauto.
  destruct (ObjectId_isValid eventID); cbn [negb orb]; [|done].
  unfold exec. simpl. by rewrite drop_0.
Qed.

Lemma fetchEventTasks_Some id st s :
  id ≠ "" →
  EventContext.fetchEventTasks (Some id) st s =
    if bool_decide (Some id = EventContext.lastFetchedEventID s) then s
    else if ObjectId_isValid id
    then EventContext.mkState
           (JTasks
              (scan (find (Tasks st)
                       (λ x, String.eqb (Task.eventID x) (ObjectId_cast id)))))
           (Some id)
    else EventContext.mkState (JTasks []) (EventContext.lastFetchedEventID s).
Proof.
  intros Hne. unfold EventContext.fetchEventTasks.
  rewrite truthy_Some by done. cbn [negb orb].
  case_bool_decide; [done|].
  change (default "" (Some id)) with id.
  rewrite getTasksByEventID_query. by destruct (ObjectId_isValid id).
Qed.

(** X20: the provider never fetches the tasks of the event it fetched
    last: asking again for the same event changes nothing of its state,
    whatever has become of the store in between. What it holds after a
    fetch that went through is the tasks of that event (those whose
    [eventID] is the ObjectId that the text denotes) in the store as it
    was then, in the order the server gave them. *)
Theorem fetchEventTasks_cached
    (eventID : option string) (st1 st2 : Store) (s : EventContext.State) :
  EventContext.fetchEventTasks eventID st2
    (EventContext.fetchEventTasks eventID st1 s) =
  EventContext.fetchEventTasks eventID st1 s ∧
  (∀ id, eventID = Some id → ObjectId_isValid id = true →
         EventContext.lastFetchedEventID s ≠ Some id →
         ∃ tasks,
           EventContext.fetchEventTasks eventID st1 s =
             EventContext.mkState (JTasks tasks) (Some id) ∧
           tasks ≡ₚ filter (λ x, Task.eventID x = ObjectId_cast id)
                      (map_to_list (Tasks st1)).*2).
Proof.
  split.
  - destruct (JS.truthy eventID) eqn:He.
    2:{ unfold EventContext.fetchEventTasks. by rewrite He. }
    apply truthy_inv in He as (id & -> & Hne).
    rewrite (fetchEventTasks_Some id st1 s Hne).
    case_bool_decide as Hlast.
    { rewrite fetchEventTasks_Some by done. by rewrite bool_decide_eq_true_2. }
    destruct (ObjectId_isValid id) eqn:Hv.
    + rewrite fetchEventTasks_Some by done. cbn [EventContext.lastFetchedEventID].
      by rewrite bool_decide_eq_true_2.
    + rewrite fetchEventTasks_Some by done. cbn [EventContext.lastFetchedEventID].
      rewrite bool_decide_eq_false_2 by done. by rewrite Hv.
  - intros id -> Hv Hlast.
    rewrite fetchEventTasks_Some by (by apply isValid_nonempty).
    rewrite bool_decide_eq_false_2 by congruence. rewrite Hv.
    eexists. split; [reflexivity|].
    rewrite scan_Permutation. cbn [q_coll q_filter find].
    by rewrite matching_eqb.
Qed.
End event_tasks.

Lemma fetchEventTasks_cached_witness :
  let s0 := EventContext.mkState (JTasks []) None in
  let e := Some "65F0A1B2C3D4E5F6A7B8C9D1" in
  let s1 := @EventContext.fetchEventTasks Fixture.mongoose e Fixture.store1 s0 in
  s1 = EventContext.mkState (JTasks [Fixture.task1]) e ∧
  @EventContext.fetchEventTasks Fixture.mongoose e Fixture.store25 s1 = s1.
Proof.
  intros s0 e s1. split.
  - destruct (proj2 (@fetchEventTasks_cached Fixture.mongoose e Fixture.store1
                       Fixture.store1 s0) "65F0A1B2C3D4E5F6A7B8C9D1")
      as (tasks & Hfetch & _); [reflexivity|reflexivity|discriminate|].
    by vm_compute.
  - exact (proj1 (@fetchEventTasks_cached Fixture.mongoose e Fixture.store1
                    Fixture.store25 s0)).
Defined.

(** ** Text filters of the pages *)

(** A text that trimming empties starts with a white-space character. *)
Lemma trim_blank_head c s :
  JS.trim (String c s) = "" → JS.white_space (String c s) ≠ 0%nat.
Proof.
  unfold JS.trim. intros Hblank Hws.
  assert (JS.trim_start (String c s) = String c s) as Hstart.
  { cbn [JS.trim_start]. by rewrite Hws. }
  rewrite Hstart in Hblank. cbn [JS.trim_end] in Hblank.
  by rewrite Hws in Hblank.
Qed.

Lemma filter_all {A} (f : A → bool) (l : list A) :
  (∀ x, f x = true) → List.filter f l = l.
Proof.
  intros Hf. induction l as [|x l IH]; simpl; [done|]. by rewrite Hf, IH.
Qed.

(** X21: a filter text made of white space only (the white space that
    [trim] removes, which is not only the space character) is no filter
    on the creator's dashboard, which trims it before testing it, but it
    is one on the page of the tasks of an event, which does not: there it
    hides every task whose status, like Pending and Completed, has no
    white space. *)
Theorem blank_filter (taskFilter : string) (tasks : list Task.t)
    (events : list (string * string)) :
  JS.trim taskFilter = "" →
  Dashboard.filteredTasks taskFilter tasks = tasks ∧
  Dashboard.filteredEvents taskFilter events = events ∧
  (taskFilter ≠ "" →
   ∀ x, In x (EventTasksPage.filteredTasks taskFilter tasks) →
        Task.status x ≠ "Pending" ∧ Task.status x ≠ "Completed").
Proof.
  intros Hblank.
  unfold Dashboard.filteredTasks, Dashboard.filteredEvents. rewrite Hblank.
  split; [by apply filter_all|]. split; [by apply filter_all|].
  intros Hne x Hx. unfold EventTasksPage.filteredTasks in Hx.
  apply filter_In in Hx as [_ Hx]. rewrite truthy_Some in Hx by done.
  destruct taskFilter as [|c f]; [done|].
  apply trim_blank_head in Hblank.
  split; intros Hst; rewrite Hst in Hx;
    destruct c as [[] [] [] [] [] [] [] []]; try (by destruct Hblank);
    discriminate Hx.
Qed.

Lemma filter_twice {A} (f g : A → bool) (l : list A) :
  List.filter f (List.filter g l) = List.filter (λ x, g x && f x) l.
Proof.
  induction l as [|x l IH]; simpl; [done|].
  destruct (g x); simpl; [|done]. destruct (f x); by rewrite IH.
Qed.

(** X22: the three filters of the assignee's dashboard act one by one:
    filtering by the three at once is filtering by the event, then by
    the status, then by the search text; a filter left empty keeps every
    task, and a status filter keeps only the tasks with exactly that
    status. *)
Theorem assignee_filters_compose
    (search statusFilter eventFilter : string) (tasks : list Task.t) :
  DashboardAssignee.filteredTasks search statusFilter eventFilter tasks =
    DashboardAssignee.filteredTasks search "" ""
      (DashboardAssignee.filteredTasks "" statusFilter ""
         (DashboardAssignee.filteredTasks "" "" eventFilter tasks)) ∧
  DashboardAssignee.filteredTasks "" "" "" tasks = tasks ∧
  (statusFilter ≠ "" →
   ∀ x, In x (DashboardAssignee.filteredTasks search statusFilter eventFilter tasks) →
        Task.status x = statusFilter).
Proof.
  unfold DashboardAssignee.filteredTasks. split; [|split].
  - rewrite !filter_twice. apply List.filter_ext. intros x.
    change (JS.truthy (Some "")) with false. cbn [negb orb andb].
    rewrite !andb_true_r.
    destruct (negb (JS.truthy (Some search)) || _),
      (negb (JS.truthy (Some statusFilter)) || _),
      (negb (JS.truthy (Some eventFilter)) || _); reflexivity.
  - by apply filter_all.
  - intros Hne x Hx. apply filter_In in Hx as [_ Hx].
    rewrite (truthy_Some statusFilter) in Hx by done. cbn [negb orb] in Hx.
    apply andb_prop in Hx as [Hx _]. apply andb_prop in Hx as [_ Hx].
    by apply String.eqb_eq in Hx.
Qed.

Lemma blank_filter_witness :
  let tasks := [Fixture.task1; Fixture.task_n 1] in
  Dashboard.filteredTasks Fixture2.blank tasks = tasks ∧
  Dashboard.filteredEvents Fixture2.blank [("65f0a1b2c3d4e5f6a7b8c9d1", "Workshop")] =
    [("65f0a1b2c3d4e5f6a7b8c9d1", "Workshop")] ∧
  (Fixture2.blank ≠ "" →
   ∀ x, In x (EventTasksPage.filteredTasks Fixture2.blank tasks) →
        Task.status x ≠ "Pending" ∧ Task.status x ≠ "Completed").
Proof.
  intros tasks. apply (blank_filter Fixture2.blank tasks). reflexivity.
Defined.

(** ** The data of the charts *)

Section charts.
Import ReportsHome ReportsCharts.

(** Filling an object from the rows: what is under a key comes from the
    rows with that key, one after the other. *)
Lemma fill_lookup {V} (f : option V → Row → V) (rows : list Row)
    (obj : gmap N V) (key : N) :
  fold_left (λ obj r, <[row_year r := f (obj !! row_year r) r]> obj) rows obj
    !! key =
  fold_left (λ o r, Some (f o r)) (filter (λ r, row_year r = key) rows)
    (obj !! key).
Proof.
  revert obj. induction rows as [|r rows IH]; intros obj; [done|].
  cbn [fold_left]. rewrite IH.
  destruct (decide (row_year r = key)) as [Hk|Hk].
  - rewrite filter_cons_True by done. cbn [fold_left].
    by rewrite Hk, lookup_insert_eq.
  - rewrite filter_cons_False by done. by rewrite lookup_insert_ne.
Qed.

Lemma fold_counts (rows : list Row) (o : option Z) :
  fold_left (λ o r, Some (JS.num_or o 0 + row_eventCount r)) rows o =
    match rows with
    | [] => o
    | _ => Some (default 0 o + total_count rows)
    end.
Proof.
  revert o. induction rows as [|r rows IH]; intros o; [done|].
  cbn [fold_left]. rewrite IH.
  assert (JS.num_or o 0 = default 0 o) as -> by (by destruct o as [[]|]).
  destruct rows as [|r' rows]; cbn [default]; f_equal.
  - unfold total_count. simpl. lia.
  - unfold total_count. simpl. lia.
Qed.

Lemma fold_budgets (rows : list Row) (s : float) :
  fold_left
    (λ o r, Some (JS.float_or (default nan o) 0 + row_totalBudget r)%float)
    rows (Some s) =
  Some (fold_left (λ s r, (JS.float_or s 0 + row_totalBudget r)%float) rows s).
Proof.
  revert s. induction rows as [|r rows IH]; intros s; [done|].
  cbn [fold_left default]. apply IH.
Qed.

Lemma fold_eventsPerYear rows c :
  eventsPerYear (fold_left forEach_step rows c) =
    fold_left
      (λ obj r,
         <[row_year r := JS.num_or (obj !! row_year r) 0 + row_eventCount r]> obj)
      rows (eventsPerYear c).
Proof. revert c. induction rows as [|r rows IH]; intros c; [done|]. apply IH. Qed.

Lemma fold_budgetPerYear rows c :
  budgetPerYear (fold_left forEach_step rows c) =
    fold_left
      (λ obj r,
         <[row_year r :=
             (JS.float_or (default nan (obj !! row_year r)) 0
              + row_totalBudget r)%float]> obj)
      rows (budgetPerYear c).
Proof. revert c. induction rows as [|r rows IH]; intros c; [done|]. apply IH. Qed.

(** The rows selected are none exactly when the entries selected are
    none. *)
Lemma selected_none sel data :
  selected_rows sel (finalData data) = [] ↔ selected_entries sel data = [].
Proof.
  split.
  - intros Hrows. pose proof (selected_totals sel data) as Hc.
    rewrite Hrows in Hc. simpl in Hc.
    destruct (selected_entries sel data); [done|]. simpl in Hc. lia.
  - intros Hentries.
    destruct (selected_rows sel (finalData data)) as [|r l] eqn:Hrows; [done|].
    assert (r ∈ selected_rows sel (finalData data)) as Hr by (rewrite Hrows; left).
    apply list_elem_of_filter in Hr as [Hsel Hr].
    apply list_elem_of_fmap in Hr as ([key r'] & -> & Hin).
    apply aggregatedData_elem_of in Hin as (first & Hfirst & _ & ->).
    simpl in Hsel.
    assert (first ∈ selected_entries sel data) as Hin
      by (by apply list_elem_of_filter).
    rewrite Hentries in Hin. by apply elem_of_nil in Hin.
Qed.

(** X23: from the entries of the compiled report to the numbers of the
    two charts by year: under a year are the number of the entries of
    that year, and the budgets of the rows of that year added one after
    the other, as doubles, in the order of the rows; nothing is under a
    year that no entry has. *)
Theorem chart_totals (data : list Entry) (y : N) :
  data ≠ [] →
  ∃ c,
    charts (finalData data) = Some c ∧
    eventsPerYear c !! y =
      match filter (λ e, year e = y) data with
      | [] => None
      | g => Some (Z.of_nat (length g))
      end ∧
    budgetPerYear c !! y =
      match filter (λ e, year e = y) data with
      | [] => None
      | _ =>
          Some (fold_left (λ s r, (JS.float_or s 0 + row_totalBudget r)%float)
                  (filter (λ r, row_year r = y) (finalData data)) 0%float)
      end.
Proof.
  intros Hdata. unfold charts.
  destruct (finalData data) as [|r0 rows0] eqn:Hfinal.
  { pose proof (selected_none (λ _ _, true) data) as [Hnone _].
    unfold selected_rows, selected_entries in Hnone.
    rewrite !filter_Is_true_true in Hnone. by specialize (Hnone Hfinal). }
  cbn [length Nat.eqb]. rewrite <-Hfinal.
  eexists. split; [reflexivity|].
  pose proof (selected_totals (λ y' _, bool_decide (y' = y)) data) as Hcount.
  pose proof (selected_none (λ y' _, bool_decide (y' = y)) data) as Hnone.
  assert (selected_entries (λ y' _, bool_decide (y' = y)) data =
          filter (λ e, year e = y) data) as Hentries.
  { apply list_filter_iff. intros e. by rewrite bool_decide_spec. }
  assert (selected_rows (λ y' _, bool_decide (y' = y)) (finalData data) =
          filter (λ r, row_year r = y) (finalData data)) as Hrows.
  { apply list_filter_iff. intros r. by rewrite bool_decide_spec. }
  rewrite Hentries, Hrows in Hcount, Hnone.
  rewrite fold_eventsPerYear, fold_budgetPerYear.
  cbn [eventsPerYear budgetPerYear].
  rewrite (fill_lookup (λ o r, JS.num_or o 0 + row_eventCount r)).
  rewrite (fill_lookup
             (λ o r, (JS.float_or (default nan o) 0 + row_totalBudget r)%float)).
  rewrite !lookup_empty.
  rewrite fold_counts, Hcount.
  destruct (filter (λ e, year e = y) data) as [|e g] eqn:Hg.
  - rewrite (proj2 Hnone eq_refl). done.
  - destruct (filter (λ r, row_year r = y) (finalData data)) as [|r rows] eqn:Hr.
    { by destruct Hnone as [Hnone _]; specialize (Hnone eq_refl). }
    split; [done|]. cbn [fold_left default]. by rewrite fold_budgets.
Qed.
End charts.

Lemma chart_totals_witness :
  let data :=
    [ReportsHome.mkEntry 2024 "Firm-wide" 1000.5 (Some "HR") (Some "Gala");
     ReportsHome.mkEntry 2024 "Team" 500.25 None None;
     ReportsHome.mkEntry 2023 "Team" nan (Some "IT") (Some "Retreat")] in
  ∃ c,
    ReportsCharts.charts (ReportsHome.finalData data) = Some c ∧
    ReportsCharts.eventsPerYear c !! 2024%N = Some 2 ∧
    ReportsCharts.budgetPerYear c !! 2024%N = Some 1500.75%float ∧
    ReportsCharts.eventsPerYear c !! 2022%N = None.
Proof.
  intros data.
  destruct (chart_totals data 2024) as (c & Hc & H1 & H2); [discriminate|].
  destruct (chart_totals data 2022) as (c' & Hc' & H3 & _); [discriminate|].
  rewrite Hc in Hc'. injection Hc' as <-.
  exists c. split; [exact Hc|]. split; [exact H1|]. split; [exact H2|exact H3].
Defined.

Lemma assignee_filters_compose_witness :
  let tasks := [Fixture.task1; Fixture.task_n 1] in
  DashboardAssignee.filteredTasks "off" "Pending" "" tasks =
    DashboardAssignee.filteredTasks "off" "" ""
      (DashboardAssignee.filteredTasks "" "Pending" ""
         (DashboardAssignee.filteredTasks "" "" "" tasks)) ∧
  DashboardAssignee.filteredTasks "" "" "" tasks = tasks ∧
  ("Pending" ≠ "" →
   ∀ x, In x (DashboardAssignee.filteredTasks "off" "Pending" "" tasks) →
        Task.status x = "Pending").
Proof.
  intros tasks. exact (assignee_filters_compose "off" "Pending" "" tasks).
Defined.
